(** * skll/experiments/output.py: aggregation of result records

    A shallow embedding of the result-aggregation functions of
    [skll.experiments.output], of the fold-id writer, and of the column
    selection, melt, fit-time averaging and y-limit computation used for the
    learning-curve plots, with the figures the plot functions save.

    Conventions of the embedding:
    - a JSON value is a [json]; a result record (a Python [dict] loaded from
      JSON) is a [gmap string json];
    - the file system is a finite map from paths to file contents; a path that
      is not in the map does not exist;
    - the output file is the list of rows handed to the [csv.DictWriter], in
      the order they were written;
    - a call ends in one of three ways: it returns normally, it returns early
      after logging the missing path, or it raises a Python exception;
    - floating-point numbers are idealised as rationals ([Q]); the axis
      limits are also computed on cells that are a rational or NaN;
    - the figures are the file names handed to [plt.savefig], in the order of
      the calls; drawing itself is not modelled. *)

From Stdlib Require Import QArith Qround Qminmax Lqa Ascii.
From stdpp Require Import gmap strings list fin_maps sorting.

Local Open Scope string_scope.
Local Open Scope list_scope.
Local Open Scope nat_scope.

(** ** JSON values and Python helpers *)

#[warnings="-register-all"]
Inductive json :=
  | JNull
  | JBool (b : bool)
  | JNum (q : Q)
  | JStr (s : string)
  | JList (l : list json)
  | JObj (kvs : list (string * json)).

(** A result record, one JSON object of a results file. *)
Abbreviation record := (gmap string json).

(** The Python exceptions the modelled code can raise. *)
Inductive exn :=
  | IndexError
  | KeyError (key : string)
  | TypeError
  | AttributeError
  | ValueError
  | JSONDecodeError
  | YAMLError.

(** How a call ends: [Ok] is a normal return, [Abort p] the early [return]
    that follows [logger.error] about the missing path [p], [Raise e] an
    exception that propagates to the caller. *)
Inductive res (A : Type) :=
  | Ok (a : A)
  | Abort (missing : string)
  | Raise (e : exn).
Arguments Ok {A} a.
Arguments Abort {A} missing.
Arguments Raise {A} e.

Definition res_bind {A B} (r : res A) (k : A → res B) : res B :=
  match r with
  | Ok a => k a
  | Abort p => Abort p
  | Raise e => Raise e
  end.

(** [d[k]] on a dict: [KeyError] when the key is absent. *)
Definition getitem (d : record) (k : string) : res json :=
  match d !! k with
  | Some v => Ok v
  | None => Raise (KeyError k)
  end.

(** [l[0]] on a list: [IndexError] when the list is empty. *)
Definition first {A} (l : list A) : res A :=
  match l with
  | x :: _ => Ok x
  | [] => Raise IndexError
  end.

(** The start of [s] up to the first occurrence of [sep]:
    [s.split(sep, 1)[0]]. *)
Fixpoint split_first (sep s : string) : string :=
  if String.prefix sep s then ""
  else match s with
       | "" => ""
       | String c s' => String c (split_first sep s')
       end.

(** [sub in s] for two strings. *)
Fixpoint str_contains (sub s : string) : bool :=
  String.prefix sub s ||
  match s with
  | "" => false
  | String _ s' => str_contains sub s'
  end.

Definition value_eqb_str (sub : string) (v : json) : bool :=
  match v with
  | JStr s => String.eqb sub s
  | _ => false
  end.

(** [sub in v] for a string [sub] and a JSON value [v]: substring test on a
    string, membership on a list, key membership on an object, [TypeError]
    on the values that are not containers. *)
Definition py_contains (sub : string) (v : json) : res bool :=
  match v with
  | JStr s => Ok (str_contains sub s)
  | JList l => Ok (existsb (value_eqb_str sub) l)
  | JObj kvs => Ok (existsb (λ kv, String.eqb sub kv.1) kvs)
  | _ => Raise TypeError
  end.

(** [v.split(sep, 1)[0]]: only strings have [split]. *)
Definition py_split_first (sep : string) (v : json) : res string :=
  match v with
  | JStr s => Ok (split_first sep s)
  | _ => Raise AttributeError
  end.

Fixpoint chars (s : string) : list json :=
  match s with
  | "" => []
  | String c s' => JStr (String c "") :: chars s'
  end.

(** The elements Python iterates over: list items, the characters of a
    string, the keys of an object; the other values are not iterable. *)
Definition py_iter (v : json) : res (list json) :=
  match v with
  | JList l => Ok l
  | JStr s => Ok (chars s)
  | JObj kvs => Ok (JStr <$> kvs.*1)
  | _ => Raise TypeError
  end.

(** [sorted] on strings: Python compares by code point, which on UTF-8
    encoded strings is the bytewise lexicographic order. *)
Definition sorted (l : list string) : list string := merge_sort String.le l.

(** ** Files, the output table and the writer monad *)

(** What [json.load] finds in an existing file: text that is not JSON, or a
    document that is an array of result records. *)
Inductive file :=
  | NotJSON
  | Document (obj : list record).

Abbreviation filesystem := (gmap string file).

Definition json_load (f : file) : res (list record) :=
  match f with
  | NotJSON => Raise JSONDecodeError
  | Document obj => Ok obj
  end.

(** One row handed to the csv writer, and the output file as the rows
    written so far. *)
Abbreviation row := (list json).
Abbreviation table := (list row).

(** A computation that may write rows to the output file. The rows written
    before an exception stay in the file. *)
Definition W (A : Type) : Type := table → res A * table.

Definition ret {A} (a : A) : W A := λ out, (Ok a, out).

Definition bind {A B} (m : W A) (k : A → W B) : W B := λ out,
  match m out with
  | (Ok a, out') => k a out'
  | (Abort p, out') => (Abort p, out')
  | (Raise e, out') => (Raise e, out')
  end.

Definition lift {A} (r : res A) : W A := λ out, (r, out).

Declare Scope py_scope.
Delimit Scope py_scope with py.
Notation "x <- m ;; k" := (bind m (λ x, k))
  (at level 100, m at next level, right associativity) : py_scope.
Notation "x <~ r ;; k" := (res_bind r (λ x, k))
  (at level 100, r at next level, right associativity) : py_scope.
Local Open Scope py_scope.

(** [writer.writerow(rowdict)] of a [csv.DictWriter] built with
    [extrasaction="ignore"]: one cell per header field, the empty string
    (the writer's [restval]) where the dict has no such key; keys outside
    the header are ignored. *)
Definition dict_row (header : list string) (rowdict : record) : row :=
  (λ k, default (JStr "") (rowdict !! k)) <$> header.

Definition writerow (header : list string) (rowdict : record) : W unit :=
  λ out, (Ok (), out ++ [dict_row header rowdict]).

(** [writer.writeheader()]: the row of the field names. *)
Definition writeheader (header : list string) : W unit :=
  λ out, (Ok (), out ++ [JStr <$> header]).

(** [for x in l: body(x)]. *)
Fixpoint for_each {A} (body : A → W unit) (l : list A) : W unit :=
  match l with
  | [] => ret ()
  | x :: l' => _ <- body x ;; for_each body l'
  end.

(** The text of the output file: the csv module renders each cell with
    [render], joins the cells of a row with tabs and ends the row with the
    line terminator of the [excel_tab] dialect. *)
Definition CR : Ascii.ascii := Ascii.ascii_of_nat 13.
Definition LF : Ascii.ascii := Ascii.ascii_of_nat 10.
Definition TAB : Ascii.ascii := Ascii.ascii_of_nat 9.

Fixpoint join (sep : string) (l : list string) : string :=
  match l with
  | [] => ""
  | [s] => s
  | s :: l' => s +:+ sep +:+ join sep l'
  end.

Definition row_line (render : json → string) (r : row) : string :=
  join (String TAB "") (render <$> r) +:+ String CR (String LF "").

Fixpoint file_text (render : json → string) (t : table) : string :=
  match t with
  | [] => ""
  | r :: t' => row_line render r +:+ file_text render t'
  end.

(** ** Summary aggregation: [_write_summary_file] *)

Section Summary.

(** [yaml.load] of ruamel.yaml applied to a record's [featureset] field: the
    decoded list of feature names, or the exception raised by the loader or
    by iterating over what it returned.
    [json.dumps] applied to a sorted list of feature names. Both are library
    functions, shared by every definition below. *)
Variable yaml_load : json → res (list string).
Variable json_dumps : list string → string.

(** [all_features = defaultdict(set)]: from a parent featureset name to the
    features seen for it; a name that is not a key reads as the empty set. *)
Abbreviation feature_map := (gmap string (gset string)).

Definition features_of (all_features : feature_map) (parent : string) : gset string :=
  default ∅ (all_features !! parent).

(** The body of the loading loop for a file that exists: the record list is
    extended with the document, and in an ablation run the feature list of
    the document's first record is added to the features of its parent when
    the first record's featureset name contains the marker. *)
Definition summary_load_file (ablation : Z) (f : file)
    (st : list record * feature_map) : res (list record * feature_map) :=
  obj <~ json_load f ;;
  obj0 <~ first obj ;;
  featureset_name <~ getitem obj0 "featureset_name" ;;
  all_features <~
    (if decide (ablation ≠ 0%Z) then
       marked <~ py_contains "_minus_" featureset_name ;;
       if (marked : bool) then
         parent_set <~ py_split_first "_minus_" featureset_name ;;
         featureset <~ getitem obj0 "featureset" ;;
         features <~ yaml_load featureset ;;
         Ok (<[parent_set := features_of st.2 parent_set ∪ list_to_set features]> st.2)
       else Ok st.2
     else Ok st.2) ;;
  Ok (st.1 ++ obj, all_features).

(** The loading loop: it stops with [Abort] at the first path that does not
    exist. *)
Fixpoint summary_load (fs : filesystem) (ablation : Z) (paths : list string)
    (st : list record * feature_map) : res (list record * feature_map) :=
  match paths with
  | [] => Ok st
  | json_path :: paths' =>
      match fs !! json_path with
      | None => Abort json_path
      | Some f =>
          st' <~ summary_load_file ablation f st ;;
          summary_load fs ablation paths' st'
      end
  end.

(** The header: the sorted keys of the first loaded record without
    [result_table] and [descriptive], with [ablated_features] added in an
    ablation run. *)
Definition summary_header (ablation : Z) (learner_result_dicts : list record)
    : res (list string) :=
  lrd0 <~ first learner_result_dicts ;;
  let unique_columns : gset string :=
    dom lrd0 ∖ {[ "result_table"; "descriptive" ]} in
  let unique_columns :=
    if decide (ablation ≠ 0%Z) then unique_columns ∪ {[ "ablated_features" ]}
    else unique_columns in
  Ok (sorted (elements unique_columns)).

(** [ablated_features] of one record in an ablation run: the features of the
    record's parent that the record's own feature list lacks. Reading
    [all_features[parent_set]] for a new parent adds an empty entry to the
    defaultdict, which no later read can tell from an absent one. *)
Definition ablated_of (all_features : feature_map) (parent_set : string)
    (features : list string) : gset string :=
  features_of all_features parent_set ∖ list_to_set features.

(** The two assignments to [lrd["ablated_features"]]: first the empty
    string, then the serialized sorted list when the set is not empty. *)
Definition set_ablated (ablated_features : gset string) (lrd : record) : record :=
  let lrd := <["ablated_features" := JStr ""]> lrd in
  if decide (ablated_features ≠ ∅)
  then <["ablated_features" := JStr (json_dumps (sorted (elements ablated_features)))]> lrd
  else lrd.

(** The body of the writing loop. *)
Definition summary_write_record (ablation : Z) (all_features : feature_map)
    (header : list string) (lrd : record) : W unit :=
  featureset_name <- lift (getitem lrd "featureset_name") ;;
  lrd' <- (if decide (ablation ≠ 0%Z) then
             parent_set <- lift (py_split_first "_minus_" featureset_name) ;;
             featureset <- lift (getitem lrd "featureset") ;;
             features <- lift (yaml_load featureset) ;;
             ret (set_ablated (ablated_of all_features parent_set features) lrd)
           else ret lrd) ;;
  writerow header lrd'.

(** The row the loop body writes for one record, or the way it fails
    before writing; [summary_write_record_emit] relates it to the loop
    body. *)
Definition summary_record_row (ablation : Z) (all_features : gmap string (gset string))
    (header : list string) (lrd : record) : res row :=
  featureset_name <~ getitem lrd "featureset_name" ;;
  lrd' <~ (if decide (ablation ≠ 0%Z) then
             parent_set <~ py_split_first "_minus_" featureset_name ;;
             featureset <~ getitem lrd "featureset" ;;
             features <~ yaml_load featureset ;;
             Ok (set_ablated (ablated_of all_features parent_set features) lrd)
           else Ok lrd) ;;
  Ok (dict_row header lrd').

Definition _write_summary_file (fs : filesystem) (result_json_paths : list string)
    (ablation : Z) : W unit :=
  st <- lift (summary_load fs ablation result_json_paths ([], ∅)) ;;
  header <- lift (summary_header ablation st.1) ;;
  _ <- writeheader header ;;
  for_each (summary_write_record ablation st.2 header) st.1.

End Summary.

(** ** Learning-curve aggregation: [_write_learning_curve_file] *)

(** The loading loop: no per-file work besides extending the record list. *)
Fixpoint curve_load (fs : filesystem) (paths : list string)
    (learner_result_dicts : list record) : res (list record) :=
  match paths with
  | [] => Ok learner_result_dicts
  | json_path :: paths' =>
      match fs !! json_path with
      | None => Abort json_path
      | Some f =>
          obj <~ json_load f ;;
          curve_load fs paths' (learner_result_dicts ++ obj)
      end
  end.

Definition curve_header : list string :=
  [ "featureset_name"; "learner_name"; "metric"; "train_set_name";
    "training_set_size"; "train_score_mean"; "test_score_mean";
    "fit_time_mean"; "train_score_std"; "test_score_std"; "fit_time_std";
    "scikit_learn_version"; "version" ].

(** One tuple of the seven-way [zip]: size, train mean, test mean, fit-time
    mean, train std, test std, fit-time std. *)
Abbreviation point := (json * (json * (json * (json * (json * (json * json))))))%type.

(** [zip] of seven iterables: it stops with the shortest. *)
Definition zip7 (l1 l2 l3 l4 l5 l6 l7 : list json) : list point :=
  zip l1 (zip l2 (zip l3 (zip l4 (zip l5 (zip l6 l7))))).

(** The seven assignments of the inner loop body. *)
Definition set_point (t : point) (lrd : record) : record :=
  let '(size, (train_score_mean, (test_score_mean, (fit_time_mean,
         (train_score_std, (test_score_std, fit_time_std)))))) := t in
  <["fit_time_std" := fit_time_std]>
  (<["test_score_std" := test_score_std]>
  (<["train_score_std" := train_score_std]>
  (<["fit_time_mean" := fit_time_mean]>
  (<["test_score_mean" := test_score_mean]>
  (<["train_score_mean" := train_score_mean]>
  (<["training_set_size" := size]> lrd)))))).

(** The inner loop: the record is updated in place and written once per
    tuple. *)
Fixpoint curve_write_points (points : list point) (lrd : record) : W unit :=
  match points with
  | [] => ret ()
  | t :: points' =>
      let lrd := set_point t lrd in
      _ <- writerow curve_header lrd ;;
      curve_write_points points' lrd
  end.

(** The body of the outer loop, for one record. *)
Definition curve_write_record (lrd : record) : W unit :=
  training_set_sizes <- lift (getitem lrd "computed_curve_train_sizes") ;;
  train_scores_means_by_size <- lift (getitem lrd "learning_curve_train_scores_means") ;;
  test_scores_means_by_size <- lift (getitem lrd "learning_curve_test_scores_means") ;;
  fit_times_means_by_size <- lift (getitem lrd "learning_curve_fit_times_means") ;;
  train_scores_stds_by_size <- lift (getitem lrd "learning_curve_train_scores_stds") ;;
  test_scores_stds_by_size <- lift (getitem lrd "learning_curve_test_scores_stds") ;;
  fit_times_stds_by_size <- lift (getitem lrd "learning_curve_fit_times_stds") ;;
  grid_objective <- lift (getitem lrd "grid_objective") ;;
  let lrd := <["metric" := grid_objective]> lrd in
  l1 <- lift (py_iter training_set_sizes) ;;
  l2 <- lift (py_iter train_scores_means_by_size) ;;
  l3 <- lift (py_iter test_scores_means_by_size) ;;
  l4 <- lift (py_iter fit_times_means_by_size) ;;
  l5 <- lift (py_iter train_scores_stds_by_size) ;;
  l6 <- lift (py_iter test_scores_stds_by_size) ;;
  l7 <- lift (py_iter fit_times_stds_by_size) ;;
  curve_write_points (zip7 l1 l2 l3 l4 l5 l6 l7) lrd.

Definition _write_learning_curve_file (fs : filesystem)
    (result_json_paths : list string) : W unit :=
  learner_result_dicts <- lift (curve_load fs result_json_paths []) ;;
  _ <- writeheader curve_header ;;
  for_each curve_write_record learner_result_dicts.

(** ** Reshaping for the plots: [generate_learning_curve_plots] *)

(** A data frame: the column labels and, per row, one cell per column. *)
Record frame := Frame { columns : list string; data : list (list json) }.

(** The cell of row [r] under the column [c]. Every use below asks for a
    column of the frame itself; [JNull] stands for a missing cell. *)
Fixpoint cell (cols : list string) (r : list json) (c : string) : json :=
  match cols, r with
  | c' :: cols', x :: r' => if decide (c' = c) then x else cell cols' r' c
  | _, _ => JNull
  end.

(** [df[cols]]: the frame restricted to the columns [cols], in that order. *)
Definition select (cols : list string) (df : frame) : frame :=
  Frame cols ((λ r, cell (columns df) r <$> cols) <$> data df).

Definition score_excluded : list string :=
  [ "train_set_name"; "fit_time_mean"; "fit_time_std";
    "scikit_learn_version"; "version" ].

Definition time_excluded : list string :=
  [ "train_set_name"; "train_score_mean"; "train_score_std";
    "test_score_mean"; "test_score_std"; "scikit_learn_version"; "version" ].

(** The two list comprehensions over [df.columns]. *)
Definition score_columns (cols : list string) : list string :=
  filter (λ column, column ∉ score_excluded) cols.

Definition time_columns (cols : list string) : list string :=
  filter (λ column, column ∉ time_excluded) cols.

(** [pd.melt(df, id_vars=id_vars)]: the value variables are the columns that
    are not identifiers, in frame order; for each of them in turn, every row
    gives one long row made of its identifier cells, the variable's name and
    the variable's cell. *)
Definition long_row (cols id_vars : list string) (var : string) (r : list json)
    : list json :=
  (cell cols r <$> id_vars) ++ [JStr var; cell cols r var].

Definition melt (df : frame) (id_vars : list string) : frame :=
  let value_vars := filter (λ c, c ∉ id_vars) (columns df) in
  Frame (id_vars ++ ["variable"; "value"])
        (value_vars ≫= λ var, long_row (columns df) id_vars var <$> data df).

Definition score_vars : list string := [ "train_score_mean"; "test_score_mean" ].

Definition df_score (df : frame) : frame := select (score_columns (columns df)) df.

Definition df_time (df : frame) : frame := select (time_columns (columns df)) df.

Definition score_id_vars (df : frame) : list string :=
  filter (λ c, c ∉ score_vars) (columns (df_score df)).

Definition df_score_melted (df : frame) : frame :=
  melt (df_score df) (score_id_vars df).

(** ** Axis limits: [_compute_ylimits_for_featureset] *)

(** The columns of the long-form score frame that the function reads. *)
Record observation := Observation {
  variable : string;
  metric : string;
  value : Q;
  train_score_std : Q;
  test_score_std : Q }.

Definition Qltb (x y : Q) : bool := negb (Qle_bool y x).

(** Python's two-argument [max] and [min]: the first argument unless the
    second is strictly greater (smaller). *)
Definition py_max (a b : Q) : Q := if Qltb a b then b else a.
Definition py_min (a b : Q) : Q := if Qltb b a then b else a.

(** [np.min] and [np.max] of an array: [ValueError] on an empty one. *)
Definition np_min (a : list Q) : res Q :=
  match a with
  | [] => Raise ValueError
  | x :: a' => Ok (fold_left Qmin a' x)
  end.

Definition np_max (a : list Q) : res Q :=
  match a with
  | [] => Raise ValueError
  | x :: a' => Ok (fold_left Qmax a' x)
  end.

(** The loop body: the limits of one metric. *)
Definition metric_ylimits (df : list observation) (m : string) : res (Q * Q) :=
  let df_train := filter (λ o, variable o = "train_score_mean" ∧ metric o = m) df in
  let df_test := filter (λ o, variable o = "test_score_mean" ∧ metric o = m) df in
  let train_values_lower := (λ o, value o - train_score_std o)%Q <$> df_train in
  let test_values_lower := (λ o, value o - test_score_std o)%Q <$> df_test in
  min_score <~ np_min (train_values_lower ++ test_values_lower) ;;
  let train_values_upper := (λ o, value o + train_score_std o)%Q <$> df_train in
  let test_values_upper := (λ o, value o + test_score_std o)%Q <$> df_test in
  max_score <~ np_max (train_values_upper ++ test_values_upper) ;;
  let lower_limit :=
    if Qltb min_score 0
    then py_max (min_score - (1 # 10)) (inject_Z (Qfloor min_score) - (5 # 100))
    else 0%Q in
  let upper_limit :=
    if Qltb 0 max_score
    then py_min (max_score + (1 # 10)) (inject_Z (Qceiling max_score) + (5 # 100))
    else 0%Q in
  Ok (lower_limit, upper_limit).

Fixpoint ylimits_loop (df : list observation) (metrics : list string)
    (ylimits : gmap string (Q * Q)) : res (gmap string (Q * Q)) :=
  match metrics with
  | [] => Ok ylimits
  | m :: metrics' =>
      limits <~ metric_ylimits df m ;;
      ylimits_loop df metrics' (<[m := limits]> ylimits)
  end.

Definition _compute_ylimits_for_featureset (df : list observation)
    (metrics : list string) : res (gmap string (Q * Q)) :=
  ylimits_loop df metrics ∅.

(** ** Axis limits on frames with missing scores

    pandas reads an empty score cell as NaN. Here the limits are computed
    on cells that are a number or NaN, with the arithmetic, the reductions
    and the comparisons of numpy and Python on NaN; on frames of numbers
    the result is that of the definitions above. Infinite cells are left
    out. *)

Module Float.

Inductive float :=
  | Num (q : Q)
  | NaN.

Record observation := Observation {
  variable : string;
  metric : string;
  value : float;
  train_score_std : float;
  test_score_std : float }.

(** Elementwise [-] and [+]: NaN as soon as an operand is NaN. *)
Definition sub (a b : float) : float :=
  match a, b with
  | Num x, Num y => Num (x - y)
  | _, _ => NaN
  end.

Definition add (a b : float) : float :=
  match a, b with
  | Num x, Num y => Num (x + y)
  | _, _ => NaN
  end.

(** The numbers of an array that holds no NaN. *)
Fixpoint numbers (a : list float) : option (list Q) :=
  match a with
  | [] => Some []
  | Num q :: a' => cons q <$> numbers a'
  | NaN :: _ => None
  end.

(** [np.min] and [np.max]: [ValueError] on an empty array, NaN as soon as
    the array holds a NaN. *)
Definition np_min (a : list float) : res float :=
  match numbers a with
  | Some qs => q <~ np_min qs ;; Ok (Num q)
  | None => Ok NaN
  end.

Definition np_max (a : list float) : res float :=
  match numbers a with
  | Some qs => q <~ np_max qs ;; Ok (Num q)
  | None => Ok NaN
  end.

(** The loop body. The tests [min_score < 0] and [max_score > 0] are false
    on NaN, which sends both limits to 0. *)
Definition metric_ylimits (df : list observation) (m : string) : res (Q * Q) :=
  let df_train := filter (λ o, variable o = "train_score_mean" ∧ metric o = m) df in
  let df_test := filter (λ o, variable o = "test_score_mean" ∧ metric o = m) df in
  let train_values_lower := (λ o, sub (value o) (train_score_std o)) <$> df_train in
  let test_values_lower := (λ o, sub (value o) (test_score_std o)) <$> df_test in
  min_score <~ np_min (train_values_lower ++ test_values_lower) ;;
  let train_values_upper := (λ o, add (value o) (train_score_std o)) <$> df_train in
  let test_values_upper := (λ o, add (value o) (test_score_std o)) <$> df_test in
  max_score <~ np_max (train_values_upper ++ test_values_upper) ;;
  let lower_limit :=
    match min_score with
    | Num min_score =>
        if Qltb min_score 0
        then py_max (min_score - (1 # 10)) (inject_Z (Qfloor min_score) - (5 # 100))
        else 0%Q
    | NaN => 0%Q
    end in
  let upper_limit :=
    match max_score with
    | Num max_score =>
        if Qltb 0 max_score
        then py_min (max_score + (1 # 10)) (inject_Z (Qceiling max_score) + (5 # 100))
        else 0%Q
    | NaN => 0%Q
    end in
  Ok (lower_limit, upper_limit).

Fixpoint ylimits_loop (df : list observation) (metrics : list string)
    (ylimits : gmap string (Q * Q)) : res (gmap string (Q * Q)) :=
  match metrics with
  | [] => Ok ylimits
  | m :: metrics' =>
      limits <~ metric_ylimits df m ;;
      ylimits_loop df metrics' (<[m := limits]> ylimits)
  end.

Definition _compute_ylimits_for_featureset (df : list observation)
    (metrics : list string) : res (gmap string (Q * Q)) :=
  ylimits_loop df metrics ∅.

End Float.

(** A row of numbers as a row of float cells. *)
Definition float_observation (o : observation) : Float.observation :=
  Float.Observation (variable o) (metric o) (Float.Num (value o))
    (Float.Num (train_score_std o)) (Float.Num (test_score_std o)).

(** The standard deviation that goes with a row, and the rows of a metric
    that the plot shows, on float cells. *)
Definition float_band_std (o : Float.observation) : Float.float :=
  if decide (Float.variable o = "train_score_mean") then Float.train_score_std o
  else Float.test_score_std o.

Definition float_plotted (m : string) (o : Float.observation) : Prop :=
  Float.metric o = m
  ∧ (Float.variable o = "train_score_mean" ∨ Float.variable o = "test_score_mean").

(** ** Fold ids: [_write_skll_folds] *)

(** The fold mapping, a Python dict from example ids to fold ids, as the
    list of its items in insertion order. Iterating over the dict gives the
    keys in that order; indexing gives the value of the first item with the
    key, [KeyError] when there is none. In a dict the keys are distinct. *)
Abbreviation fold_mapping := (list (string * json)).

Definition fold_getitem (skll_fold_ids : fold_mapping) (example_id : string)
    : res json :=
  match list_find (λ item, item.1 = example_id) skll_fold_ids with
  | Some (_, item) => Ok item.2
  | None => Raise (KeyError example_id)
  end.

(** [f.writerow(cells)] of a plain [csv.writer]. *)
Definition csv_writerow (cells : row) : W unit := λ out, (Ok (), out ++ [cells]).

Definition _write_skll_folds (skll_fold_ids : fold_mapping) : W unit :=
  _ <- csv_writerow [ JStr "id"; JStr "cv_test_fold" ] ;;
  for_each (λ example_id,
              fold <- lift (fold_getitem skll_fold_ids example_id) ;;
              csv_writerow [ JStr example_id; fold ])
           (skll_fold_ids.*1).

(** ** The frames and the figures: [generate_learning_curve_plots] *)

(** A row of the learning-curve TSV as [pd.read_csv] types its columns:
    the names are strings, the training-set sizes integers, the scores and
    the times floats. The names are text that [read_csv] keeps as text: a
    column of number-like names would be read as numbers, and compared as
    numbers, and an NA-like name as a missing value. *)
Module Wide.
Record line := Line {
  featureset_name : string;
  learner_name : string;
  metric : string;
  train_set_name : string;
  training_set_size : Z;
  train_score_mean : Q;
  test_score_mean : Q;
  fit_time_mean : Q;
  train_score_std : Q;
  test_score_std : Q;
  fit_time_std : Q;
  scikit_learn_version : string;
  version : string }.
End Wide.

(** The cells of a typed row, under the columns of [curve_header]. *)
Definition line_cells (l : Wide.line) : list json :=
  [ JStr (Wide.featureset_name l); JStr (Wide.learner_name l);
    JStr (Wide.metric l); JStr (Wide.train_set_name l);
    JNum (inject_Z (Wide.training_set_size l));
    JNum (Wide.train_score_mean l); JNum (Wide.test_score_mean l);
    JNum (Wide.fit_time_mean l); JNum (Wide.train_score_std l);
    JNum (Wide.test_score_std l); JNum (Wide.fit_time_std l);
    JStr (Wide.scikit_learn_version l); JStr (Wide.version l) ].

Definition wide_frame (df : list Wide.line) : frame :=
  Frame curve_header (line_cells <$> df).

(** [Series.unique()]: the distinct values in order of first appearance. *)
Fixpoint unique {A} `{EqDecision A} (l : list A) : list A :=
  match l with
  | [] => []
  | x :: l' => x :: filter (λ y, y ≠ x) (unique l')
  end.

Definition num_learners (df : list Wide.line) : nat :=
  length (unique (Wide.learner_name <$> df)).

Definition num_metrics (df : list Wide.line) : nat :=
  length (unique (Wide.metric <$> df)).

(** [df["training_set_size"].unique().max() >= 1000]; the [max] of an
    empty array raises [ValueError]. *)
Definition rotate_labels (df : list Wide.line) : res bool :=
  largest <~ np_max (inject_Z <$> unique (Wide.training_set_size <$> df)) ;;
  Ok (Qle_bool 1000 largest).

(** A row of the long-form score frame: the identifier columns next to the
    columns the limits are computed from. *)
Module Long.
Record row := Row {
  featureset_name : string;
  learner_name : string;
  training_set_size : Z;
  observed : observation }.
End Long.

(** [pd.melt] of the score frame, on typed rows: the block of the train
    scores followed by the block of the test scores. *)
Definition score_row (var : string) (l : Wide.line) : Long.row :=
  Long.Row (Wide.featureset_name l) (Wide.learner_name l)
    (Wide.training_set_size l)
    (Observation var (Wide.metric l)
       (if decide (var = "train_score_mean") then Wide.train_score_mean l
        else Wide.test_score_mean l)
       (Wide.train_score_std l) (Wide.test_score_std l)).

Definition score_rows (df : list Wide.line) : list Long.row :=
  score_vars ≫= λ var, score_row var <$> df.

(** The cells of a long score row, under the columns of the melted frame. *)
Definition long_cells (r : Long.row) : list json :=
  [ JStr (Long.featureset_name r); JStr (Long.learner_name r);
    JStr (metric (Long.observed r));
    JNum (inject_Z (Long.training_set_size r));
    JNum (train_score_std (Long.observed r));
    JNum (test_score_std (Long.observed r));
    JStr (variable (Long.observed r)); JNum (value (Long.observed r)) ].

(** The cells of a typed row under the columns of the time frame. *)
Definition time_cells (l : Wide.line) : list json :=
  [ JStr (Wide.featureset_name l); JStr (Wide.learner_name l);
    JStr (Wide.metric l); JNum (inject_Z (Wide.training_set_size l));
    JNum (Wide.fit_time_mean l); JNum (Wide.fit_time_std l) ].

(** The time frame: the group key of [groupby(level=...)], ordered as pandas
    sorts the groups (by featureset, then learner, then size). *)
Abbreviation key := (string * string * Z)%type.

Definition key_of (l : Wide.line) : key :=
  (Wide.featureset_name l, Wide.learner_name l, Wide.training_set_size l).

Definition key_le (k1 k2 : key) : Prop :=
  if decide (k1.1.1 = k2.1.1)
  then if decide (k1.1.2 = k2.1.2) then (k1.2 ≤ k2.2)%Z
       else String.le k1.1.2 k2.1.2
  else String.le k1.1.1 k2.1.1.

#[global] Instance key_le_dec : RelDecision key_le.
Proof. intros k1 k2. unfold key_le. repeat case_decide; apply _. Defined.

(** [.mean()] of a column of a group; a group has at least one row. The
    mean is the exact one: the rounding of the floating-point sum and
    division is not modelled. *)
Definition mean (a : list Q) : Q :=
  (fold_right Qplus 0 a / inject_Z (Z.of_nat (length a)))%Q.

Module Mean.
Record row := Row {
  featureset_name : string;
  learner_name : string;
  training_set_size : Z;
  fit_time_mean : Q;
  fit_time_std : Q }.
End Mean.

(** [df_time_indexed.groupby(level=[...]).mean().reset_index()]: one row
    per group, the groups in sorted order; the metric level is dropped and
    the two time columns are averaged over the rows of the group. *)
Definition time_means (df : list Wide.line) : list Mean.row :=
  (λ k : key,
     let group := filter (λ l, key_of l = k) df in
     Mean.Row k.1.1 k.1.2 k.2
       (mean (Wide.fit_time_mean <$> group))
       (mean (Wide.fit_time_std <$> group)))
  <$> merge_sort key_le (unique (key_of <$> df)).

Module Time.
Record row := Row {
  featureset_name : string;
  learner_name : string;
  training_set_size : Z;
  fit_time_std : Q;
  variable : string;
  value : Q }.
End Time.

(** [pd.melt] of the averaged frame: [fit_time_mean] is its only value
    variable. *)
Definition df_time_melted (df : list Wide.line) : list Time.row :=
  (λ r, Time.Row (Mean.featureset_name r) (Mean.learner_name r)
          (Mean.training_set_size r) (Mean.fit_time_std r)
          "fit_time_mean" (Mean.fit_time_mean r))
  <$> time_means df.

Definition time_key (r : Time.row) : key :=
  (Time.featureset_name r, Time.learner_name r, Time.training_set_size r).

(** The figures: the calls into matplotlib and seaborn are taken to draw
    and return, and [plt.savefig] to write its file ([savefig] raises when
    the name is not a path it can write, as for a featureset name with a
    slash). The model keeps the computations around them and the names of
    the files handed to [plt.savefig], in the order of the calls. *)
Abbreviation figures := (list string).

Definition limits_of (ylimits : gmap string (Q * Q)) (row_name : string)
    : res (Q * Q) :=
  match ylimits !! row_name with
  | Some limits => Ok limits
  | None => Raise (KeyError row_name)
  end.

Fixpoint for_res {A} (body : A → res unit) (l : list A) : res unit :=
  match l with
  | [] => Ok ()
  | x :: l' => _ <~ body x ;; for_res body l'
  end.

Fixpoint for_figures {A} (body : A → figures → res unit * figures)
    (l : list A) (saved : figures) : res unit * figures :=
  match l with
  | [] => (Ok (), saved)
  | x :: l' =>
      match body x saved with
      | (Ok _, saved') => for_figures body l' saved'
      | failed => failed
      end
  end.

Definition score_plot_name (experiment_name fs_name : string) : string :=
  experiment_name +:+ "_" +:+ fs_name +:+ ".png".

Definition time_plot_name (experiment_name fs_name : string) : string :=
  experiment_name +:+ "_" +:+ fs_name +:+ "_times.png".

(** The body of the loop over the featureset groups. The facet rows are the
    metrics of the group in order of appearance; the facet columns are the
    categories of the learner column, which the caller made categorical. *)
Definition score_plot (df_scores : list Long.row) (experiment_name : string)
    (fs_name : string) (saved : figures) : res unit * figures :=
  let df_fs := filter (λ r, Long.featureset_name r = fs_name) df_scores in
  let row_names := unique ((λ r, metric (Long.observed r)) <$> df_fs) in
  let col_names := sorted (unique (Long.learner_name <$> df_scores)) in
  let drawn :=
    ylimits <~ _compute_ylimits_for_featureset (Long.observed <$> df_fs) row_names ;;
    for_res (λ row_name,
               for_res (λ _ : string,
                          _ <~ limits_of ylimits row_name ;; Ok ())
                       col_names)
            row_names in
  match drawn with
  | Ok _ => (Ok (), saved ++ [score_plot_name experiment_name fs_name])
  | Abort p => (Abort p, saved)
  | Raise e => (Raise e, saved)
  end.

(** [for fs_name, df_fs in df_scores.groupby("featureset_name")]: the
    groups come in sorted order of the name. *)
Definition _generate_learning_curve_score_plots (df_scores : list Long.row)
    (num_metrics num_learners : nat) (experiment_name : string)
    (rotate_labels : bool) : figures → res unit * figures :=
  for_figures (score_plot df_scores experiment_name)
              (sorted (unique (Long.featureset_name <$> df_scores))).

Definition _generate_learning_curve_time_plots (df_times : list Time.row)
    (num_learners : nat) (experiment_name : string) (rotate_labels : bool)
    : figures → res unit * figures :=
  for_figures (λ fs_name saved,
                 (Ok (), saved ++ [time_plot_name experiment_name fs_name]))
              (sorted (unique (Time.featureset_name <$> df_times))).

Definition generate_learning_curve_plots (experiment_name : string)
    (df : list Wide.line) (saved : figures) : res unit * figures :=
  match rotate_labels df with
  | Ok rotate =>
      match _generate_learning_curve_score_plots (score_rows df)
              (num_metrics df) (num_learners df) experiment_name rotate saved with
      | (Ok _, saved') =>
          _generate_learning_curve_time_plots (df_time_melted df)
            (num_learners df) experiment_name rotate saved'
      | failed => failed
      end
  | Abort p => (Abort p, saved)
  | Raise e => (Raise e, saved)
  end.

(** ** Concrete library functions for the examples

    The theorems below hold for every [yaml_load], [json_dumps] and cell
    renderer. The examples run the code with these simple ones, which agree
    with the libraries on plain ASCII feature names. *)

Definition DQUOTE : Ascii.ascii := Ascii.ascii_of_nat 34.

Definition flush_item (cur : string) : list string :=
  if decide (cur = "") then [] else [cur].

(** The items of a YAML flow sequence of plain or quoted scalars, such as
    the text [[f1, f2]]. *)
Fixpoint flow_items (s cur : string) : list string :=
  match s with
  | "" => flush_item cur
  | String c s' =>
      if Ascii.eqb c ","%char || Ascii.eqb c "]"%char then flush_item cur ++ flow_items s' ""
      else if Ascii.eqb c "["%char || Ascii.eqb c " "%char || Ascii.eqb c DQUOTE
      then flow_items s' cur
      else flow_items s' (cur +:+ String c "")
  end.

Definition yaml_flow_list (v : json) : res (list string) :=
  match v with
  | JStr s => Ok (flow_items s "")
  | _ => Raise YAMLError
  end.

Definition json_dumps_names (l : list string) : string :=
  "[" +:+ join ", " ((λ s, String DQUOTE (s +:+ String DQUOTE "")) <$> l) +:+ "]".

Definition render_plain (v : json) : string :=
  match v with
  | JStr s => s
  | _ => ""
  end.

(** Two result files of an ablation run over the features f1, f2, f3. *)
Definition demo_record (name features : string) : record :=
  <["featureset_name" := JStr name]> (<["featureset" := JStr features]> ∅).

Definition demo_fs : filesystem :=
  <["a.json" := Document [demo_record "A_minus_f1" "[f2, f3]"]]>
  (<["b.json" := Document [demo_record "A_minus_f2" "[f1, f3]"]]> ∅).

Definition demo_paths : list string := [ "a.json"; "missing.json"; "b.json" ].

(** One results file with two records: the full featureset first, then an
    ablation child of it that has one more key. *)
Definition mixed_fs : filesystem :=
  {[ "mixed.json" :=
       Document [ demo_record "A" "[f1, f2]";
                  <["pearson" := JNum (1 # 2)]> (demo_record "A_minus_f1" "[f2]") ] ]}.

(** One results file that holds both ablation children of the parent A. *)
Definition joint_fs : filesystem :=
  {[ "joint.json" :=
       Document [ demo_record "A_minus_f1" "[f2, f3]";
                  demo_record "A_minus_f2" "[f1, f3]" ] ]}.

(** ** Vocabulary of the statements and data of the examples *)

(** The call ran to its end: it neither took the early [return] nor
    raised. *)
Definition is_ok {A} (r : res A) : Prop := ∃ a, r = Ok a.

(** A loop body that hands one row to the writer when [f] succeeds and
    leaves the file alone when [f] fails. *)
Definition emit {A} (f : A → res row) (x : A) : W unit := λ out,
  match f x with
  | Ok r => (Ok (), out ++ [r])
  | Abort p => (Abort p, out)
  | Raise e => (Raise e, out)
  end.

(** The records of the documents named by [paths], in input order. *)
Definition documents (fs : filesystem) (paths : list string) : list record :=
  paths ≫= λ p, match fs !! p with Some (Document obj) => obj | _ => [] end.

(** A file whose first record is an ablation child of [parent] with the
    decoded feature [x]. *)
Definition first_record_feature (yaml_load : json → res (list string))
    (f : file) (parent x : string) : Prop :=
  ∃ obj0 rest name featureset features,
    f = Document (obj0 :: rest)
    ∧ obj0 !! "featureset_name" = Some (JStr name)
    ∧ str_contains "_minus_" name = true
    ∧ split_first "_minus_" name = parent
    ∧ obj0 !! "featureset" = Some featureset
    ∧ yaml_load featureset = Ok features
    ∧ x ∈ features.

(** What a written cell shows for the key [k] of a record. *)
Definition field (lrd : record) (k : string) : json := default (JStr "") (lrd !! k).

(** The row of one tuple, cell by cell in the order of [curve_header]. *)
Definition curve_row (lrd : record) (grid_objective : json) (t : point) : row :=
  let '(size, (train_score_mean, (test_score_mean, (fit_time_mean,
         (train_score_std, (test_score_std, fit_time_std)))))) := t in
  [ field lrd "featureset_name"; field lrd "learner_name"; grid_objective;
    field lrd "train_set_name"; size; train_score_mean; test_score_mean;
    fit_time_mean; train_score_std; test_score_std; fit_time_std;
    field lrd "scikit_learn_version"; field lrd "version" ].

(** The rows the outer loop body writes for one record, or the way it
    fails before writing. *)
Definition curve_record_rows (lrd : record) : res (list row) :=
  training_set_sizes <~ getitem lrd "computed_curve_train_sizes" ;;
  train_scores_means_by_size <~ getitem lrd "learning_curve_train_scores_means" ;;
  test_scores_means_by_size <~ getitem lrd "learning_curve_test_scores_means" ;;
  fit_times_means_by_size <~ getitem lrd "learning_curve_fit_times_means" ;;
  train_scores_stds_by_size <~ getitem lrd "learning_curve_train_scores_stds" ;;
  test_scores_stds_by_size <~ getitem lrd "learning_curve_test_scores_stds" ;;
  fit_times_stds_by_size <~ getitem lrd "learning_curve_fit_times_stds" ;;
  grid_objective <~ getitem lrd "grid_objective" ;;
  l1 <~ py_iter training_set_sizes ;;
  l2 <~ py_iter train_scores_means_by_size ;;
  l3 <~ py_iter test_scores_means_by_size ;;
  l4 <~ py_iter fit_times_means_by_size ;;
  l5 <~ py_iter train_scores_stds_by_size ;;
  l6 <~ py_iter test_scores_stds_by_size ;;
  l7 <~ py_iter fit_times_stds_by_size ;;
  Ok (curve_row lrd grid_objective <$> zip7 l1 l2 l3 l4 l5 l6 l7).

(** A loop body that writes the rows [f] gives, or nothing when [f] fails. *)
Definition emit_all {A} (f : A → res (list row)) (x : A) : W unit := λ out,
  match f x with
  | Ok rows => (Ok (), out ++ rows)
  | Abort p => (Abort p, out)
  | Raise e => (Raise e, out)
  end.

(** The header fields that the flattening copies from the record as they
    are. *)
Definition passthrough : list string :=
  [ "featureset_name"; "learner_name"; "train_set_name";
    "scikit_learn_version"; "version" ].

(** A JSON array of numbers. *)
Definition nums (l : list Q) : json := JList (JNum <$> l).

(** The learning-curve record of the example in the specification, and a
    variant whose train-score means lack the second entry. *)
Definition curve_record (train_scores_means : list Q) : record :=
  list_to_map
    [ ("featureset_name", JStr "A"); ("learner_name", JStr "SVC");
      ("grid_objective", JStr "accuracy");
      ("computed_curve_train_sizes", nums [10; 20]);
      ("learning_curve_train_scores_means", nums train_scores_means);
      ("learning_curve_test_scores_means", nums [4 # 10; 5 # 10]);
      ("learning_curve_fit_times_means", nums [1 # 10; 2 # 10]);
      ("learning_curve_train_scores_stds", nums [5 # 100; 5 # 100]);
      ("learning_curve_test_scores_stds", nums [5 # 100; 5 # 100]);
      ("learning_curve_fit_times_stds", nums [1 # 100; 1 # 100]) ]%Q.

Definition curve_fs : filesystem :=
  <["curve.json" := Document [curve_record [5 # 10; 6 # 10]%Q]]>
  (<["ragged.json" := Document [curve_record [5 # 10]%Q]]> ∅).



(** The wide table written for the example record, read back as a frame. *)
Definition demo_wide : frame :=
  Frame curve_header
    [ [ JStr "A"; JStr "SVC"; JStr "accuracy"; JStr ""; JNum 10;
        JNum (5 # 10); JNum (4 # 10); JNum (1 # 10); JNum (5 # 100);
        JNum (5 # 100); JNum (1 # 100); JStr ""; JStr "" ];
      [ JStr "A"; JStr "SVC"; JStr "accuracy"; JStr ""; JNum 20;
        JNum (6 # 10); JNum (5 # 10); JNum (2 # 10); JNum (5 # 100);
        JNum (5 # 100); JNum (1 # 100); JStr ""; JStr "" ] ].

(** The standard deviation that goes with an observation: the train one for
    a train score, the test one for a test score. *)
Definition band_std (o : observation) : Q :=
  if decide (variable o = "train_score_mean") then train_score_std o
  else test_score_std o.

(** The observations of a metric that the score plot shows. *)
Definition plotted (m : string) (o : observation) : Prop :=
  metric o = m
  ∧ (variable o = "train_score_mean" ∨ variable o = "test_score_mean").

(** The clamped limits of the metric [m]: [min_score] is the least
    value minus std and [max_score] the greatest value plus std over the
    plotted observations of [m], and the limits are the clamped ones. *)
Definition clamped_limits (df : list observation) (m : string)
    (lower upper : Q) : Prop :=
  ∃ min_score max_score,
    (∃ o, o ∈ df ∧ plotted m o ∧ min_score = (value o - band_std o)%Q)
    ∧ (∀ o, o ∈ df → plotted m o → (min_score <= value o - band_std o)%Q)
    ∧ (∃ o, o ∈ df ∧ plotted m o ∧ max_score = (value o + band_std o)%Q)
    ∧ (∀ o, o ∈ df → plotted m o → (value o + band_std o <= max_score)%Q)
    ∧ ((min_score < 0)%Q →
         (lower == Qmax (min_score - (1 # 10))
                        (inject_Z (Qfloor min_score) - (5 # 100)))%Q)
    ∧ (¬ (min_score < 0)%Q → lower = 0%Q)
    ∧ ((0 < max_score)%Q →
         (upper == Qmin (max_score + (1 # 10))
                        (inject_Z (Qceiling max_score) + (5 # 100)))%Q)
    ∧ (¬ (0 < max_score)%Q → upper = 0%Q).

(** Observations of two metrics: accuracy stays between 0 and 1, the
    negated error is below 0. *)
Definition demo_observations : list observation :=
  [ Observation "train_score_mean" "accuracy" (5 # 10) (5 # 100) 0;
    Observation "test_score_mean" "accuracy" (4 # 10) 0 (5 # 100);
    Observation "train_score_mean" "neg_error" (- (13 # 10)) (2 # 10) 0;
    Observation "test_score_mean" "neg_error" (- (15 # 10)) 0 (2 # 10) ]%Q.

(** ** Further vocabulary and example data *)

(** The featuresets of a table, as the two plot loops visit them. *)
Definition featuresets (df : list Wide.line) : list string :=
  sorted (unique (Wide.featureset_name <$> df)).

Definition two_sets : list Wide.line :=
  [ Wide.Line "B" "SVC" "accuracy" "" 500 (9 # 10) (8 # 10) (3 # 10)
      (1 # 100) (2 # 100) (1 # 10) "" "";
    Wide.Line "A" "SVC" "accuracy" "" 1500 (9 # 10) (8 # 10) (2 # 10)
      (1 # 100) (2 # 100) (1 # 10) "" "";
    Wide.Line "A" "SVC" "f1" "" 1500 (7 # 10) (6 # 10) (4 # 10)
      (1 # 100) (2 # 100) (3 # 10) "" "" ]%Q.

Definition times_sets : list Wide.line :=
  [ Wide.Line "A" "SVC" "accuracy" "" 500 (9 # 10) (8 # 10) (3 # 10)
      (1 # 100) (2 # 100) (1 # 10) "" "";
    Wide.Line "A_times" "SVC" "accuracy" "" 500 (9 # 10) (8 # 10) (2 # 10)
      (1 # 100) (2 # 100) (1 # 10) "" "" ]%Q.

(** A file whose second record has no [featureset_name]. *)
Definition nameless_fs : filesystem :=
  {[ "folds.json" := Document [ demo_record "A" "[f1]";
                                {[ "featureset" := JStr "[f1]" ]} ] ]}.

(** The keys the loop body reads from every record, in the order it reads
    them. *)
Definition curve_required : list string :=
  [ "computed_curve_train_sizes"; "learning_curve_train_scores_means";
    "learning_curve_test_scores_means"; "learning_curve_fit_times_means";
    "learning_curve_train_scores_stds"; "learning_curve_test_scores_stds";
    "learning_curve_fit_times_stds"; "grid_objective" ].

(** A learning-curve file whose only record has no [grid_objective]. *)
Definition no_objective_fs : filesystem :=
  {[ "curve.json" := Document [ delete "grid_objective" (curve_record [5 # 10; 6 # 10]%Q) ] ]}.

(** The features accumulated by the ablation run over [a.json] and
    [b.json]. *)
Definition demo_features : gmap string (gset string) :=
  {[ "A" := {[ "f1"; "f2"; "f3" ]} ]}.

(** Two plain results files, summarised with the ablation flag on. *)
Definition plain_fs : filesystem :=
  <["a.json" := Document [demo_record "A" "[f1, f2]"]]>
  (<["b.json" := Document [demo_record "B" "[f3]"]]> ∅).

(** Accuracy has all its scores; the train score of f1 is missing. *)
Definition gappy_observations : list Float.observation :=
  [ Float.Observation "train_score_mean" "accuracy" (Float.Num (5 # 10))
      (Float.Num (5 # 100)) (Float.Num 0);
    Float.Observation "test_score_mean" "accuracy" (Float.Num (4 # 10))
      (Float.Num 0) (Float.Num (5 # 100));
    Float.Observation "train_score_mean" "f1" Float.NaN
      (Float.Num (5 # 100)) (Float.Num 0);
    Float.Observation "test_score_mean" "f1" (Float.Num (3 # 10))
      (Float.Num 0) (Float.Num (5 # 100)) ]%Q.

(** * Properties *)

(** ** The writer monad *)

(** A call that took the early return or raised did not run to its end. *)
Lemma abort_not_ok {A} p : ¬ is_ok (@Abort A p).
Proof. intros [a Ha]. discriminate Ha. Qed.

Lemma raise_not_ok {A} e : ¬ is_ok (@Raise A e).
Proof. intros [a Ha]. discriminate Ha. Qed.

Create HintDb outcome.
#[local] Hint Resolve abort_not_ok raise_not_ok : outcome.

(** A call that did not run to its end took the early return or raised. *)
Lemma not_ok_cases {A} (r : res A) :
  ¬ is_ok r → (∃ q, r = Abort q) ∨ (∃ e, r = Raise e).
Proof.
  destruct r as [a|q|e]; intros Hno; [|eauto..]. destruct Hno. by exists a.
Qed.

(** Closes a goal that assumes, or denies, the normal return of a call that
    aborted or raised. *)
Ltac stopped :=
  solve [ auto with outcome
        | let H := fresh in
          intros H; exfalso; revert H;
          first [ apply abort_not_ok | apply raise_not_ok ] ].

Lemma for_each_ext {A} (body body' : A → W unit) l out :
  (∀ x out, body x out = body' x out) →
  for_each body l out = for_each body' l out.
Proof.
  intros Hb. revert out. induction l as [|x l IH]; intros out; [done|].
  simpl. unfold bind. rewrite Hb. destruct (body' x out) as [[[]| |] out']; auto.
Qed.

Lemma for_each_emit_cons {A} (f : A → res row) x l out :
  for_each (emit f) (x :: l) out =
  match f x with
  | Ok r => for_each (emit f) l (out ++ [r])
  | Abort p => (Abort p, out)
  | Raise e => (Raise e, out)
  end.
Proof. simpl. unfold bind, emit at 1. by destruct (f x). Qed.

(** The rows appended by a loop of [emit]: row [i] comes from element [i]. *)
Lemma for_each_emit {A} (f : A → res row) l out :
  ∃ rows, (for_each (emit f) l out).2 = out ++ rows
    ∧ length rows ≤ length l
    ∧ (∀ i r, rows !! i = Some r → ∃ x, l !! i = Some x ∧ f x = Ok r)
    ∧ (is_ok (for_each (emit f) l out).1 → length rows = length l).
Proof.
  revert out. induction l as [|x l IH]; intros out.
  - exists []. simpl. rewrite app_nil_r. split_and!; done.
  - rewrite for_each_emit_cons. destruct (f x) as [r| |] eqn:Hfx.
    + destruct (IH (out ++ [r])) as (rows & Heq & Hlen & Hrows & Hok).
      exists (r :: rows). rewrite Heq, <- app_assoc. simpl.
      split_and!; [done|lia| |intros H; rewrite Hok; done].
      intros [|i] r' Hi; simpl in *.
      * inversion Hi; subst. eauto.
      * eauto.
    + exists []. simpl. rewrite app_nil_r. split_and!; try done; [lia|].
      stopped.
    + exists []. simpl. rewrite app_nil_r. split_and!; try done; [lia|].
      stopped.
Qed.

(** ** Loading *)

Section Loading.

Variable yaml_load : json → res (list string).
Variable json_dumps : list string → string.
Variable fs : filesystem.
Variable ablation : Z.

Lemma summary_load_app pre post st :
  summary_load yaml_load fs ablation (pre ++ post) st =
  res_bind (summary_load yaml_load fs ablation pre st)
           (summary_load yaml_load fs ablation post).
Proof.
  revert st. induction pre as [|q pre IH]; intros st; [done|].
  simpl. destruct (fs !! q) as [f|]; [|done].
  destruct (summary_load_file yaml_load ablation f st); simpl; auto.
Qed.

Lemma curve_load_app pre post acc :
  curve_load fs (pre ++ post) acc =
  res_bind (curve_load fs pre acc) (curve_load fs post).
Proof.
  revert acc. induction pre as [|q pre IH]; intros acc; [done|].
  simpl. destruct (fs !! q) as [f|]; [|done].
  destruct (json_load f); simpl; auto.
Qed.

Lemma summary_load_missing paths st :
  (∃ p, p ∈ paths ∧ fs !! p = None) →
  ¬ is_ok (summary_load yaml_load fs ablation paths st).
Proof.
  intros (p & Hin & Hp). revert st.
  induction paths as [|q paths IH]; intros st; [by inversion Hin|].
  simpl. destruct (fs !! q) as [f|] eqn:Hq.
  - apply elem_of_cons in Hin as [->|Hin]; [congruence|].
    destruct (summary_load_file yaml_load ablation f st); simpl.
    + by apply IH.
    + stopped.
    + stopped.
  - stopped.
Qed.

Lemma curve_load_missing paths acc :
  (∃ p, p ∈ paths ∧ fs !! p = None) → ¬ is_ok (curve_load fs paths acc).
Proof.
  intros (p & Hin & Hp). revert acc.
  induction paths as [|q paths IH]; intros acc; [by inversion Hin|].
  simpl. destruct (fs !! q) as [f|] eqn:Hq.
  - apply elem_of_cons in Hin as [->|Hin]; [congruence|].
    destruct (json_load f); simpl.
    + by apply IH.
    + stopped.
    + stopped.
  - stopped.
Qed.

Lemma summary_load_empty_document paths st :
  (∃ p, p ∈ paths ∧ fs !! p = Some (Document [])) →
  ¬ is_ok (summary_load yaml_load fs ablation paths st).
Proof.
  intros (p & Hin & Hp). revert st.
  induction paths as [|q paths IH]; intros st; [by inversion Hin|].
  simpl. destruct (fs !! q) as [f|] eqn:Hq.
  - apply elem_of_cons in Hin as [->|Hin].
    + rewrite Hp in Hq. inversion Hq; subst. simpl. stopped.
    + destruct (summary_load_file yaml_load ablation f st); simpl.
      * by apply IH.
      * stopped.
      * stopped.
  - stopped.
Qed.

(** When loading does not complete, the call ends the way loading ended and
    the output file is untouched. *)
Lemma write_summary_load_stops paths out :
  ¬ is_ok (summary_load yaml_load fs ablation paths ([], ∅)) →
  (_write_summary_file yaml_load json_dumps fs paths ablation out).2 = out
  ∧ ¬ is_ok (_write_summary_file yaml_load json_dumps fs paths ablation out).1
  ∧ (∀ p, summary_load yaml_load fs ablation paths ([], ∅) = Abort p →
       (_write_summary_file yaml_load json_dumps fs paths ablation out).1 = Abort p)
  ∧ (∀ e, summary_load yaml_load fs ablation paths ([], ∅) = Raise e →
       (_write_summary_file yaml_load json_dumps fs paths ablation out).1 = Raise e).
Proof.
  intros Hno. unfold _write_summary_file, bind, lift.
  destruct (summary_load yaml_load fs ablation paths ([], ∅)) as [st|p|e]; simpl.
  - destruct Hno. by exists st.
  - split_and!; try done; [intros [? ?]; discriminate|by intros ? [= ->]].
  - split_and!; try done; [intros [? ?]; discriminate|by intros ? [= ->]].
Qed.

Lemma write_curve_load_stops paths out :
  ¬ is_ok (curve_load fs paths []) →
  (_write_learning_curve_file fs paths out).2 = out
  ∧ ¬ is_ok (_write_learning_curve_file fs paths out).1
  ∧ (∀ p, curve_load fs paths [] = Abort p →
       (_write_learning_curve_file fs paths out).1 = Abort p).
Proof.
  intros Hno. unfold _write_learning_curve_file, bind, lift.
  destruct (curve_load fs paths []) as [st|p|e]; simpl.
  - destruct Hno. by exists st.
  - split_and!; try done; [intros [? ?]; discriminate|by intros ? [= ->]].
  - split_and!; try done; stopped.
Qed.

Lemma write_curve_load_raises paths out e :
  curve_load fs paths [] = Raise e →
  (_write_learning_curve_file fs paths out).1 = Raise e.
Proof.
  intros Hload. unfold _write_learning_curve_file, bind, lift. by rewrite Hload.
Qed.

(** The first missing path. *)
Lemma first_missing_path paths :
  (∃ p, p ∈ paths ∧ fs !! p = None) →
  ∃ pre p post, paths = pre ++ p :: post ∧ fs !! p = None
                ∧ Forall (λ q, is_Some (fs !! q)) pre.
Proof.
  intros (p & Hin & Hp). induction paths as [|q paths IH]; [by inversion Hin|].
  destruct (fs !! q) as [f|] eqn:Hq.
  - apply elem_of_cons in Hin as [->|Hin]; [congruence|].
    destruct (IH Hin) as (pre & p' & post & -> & Hp' & Hpre).
    exists (q :: pre), p', post. split_and!; [done..|].
    constructor; [by rewrite Hq|done].
  - by exists [], q, paths.
Qed.

(** Only a missing path makes loading return early. *)
Lemma curve_load_no_abort paths acc q :
  Forall (λ q, is_Some (fs !! q)) paths → curve_load fs paths acc ≠ Abort q.
Proof.
  intros Hall. revert acc. induction Hall as [|p paths [f Hf] _ IH]; intros acc; [done|].
  simpl. rewrite Hf. destruct f as [|obj]; simpl; [done|]. apply IH.
Qed.

Lemma summary_load_no_abort paths st q :
  (∀ v q', yaml_load v ≠ Abort q') →
  Forall (λ q, is_Some (fs !! q)) paths →
  summary_load yaml_load fs ablation paths st ≠ Abort q.
Proof.
  intros Hyaml Hall. revert st.
  induction Hall as [|p paths [f Hf] _ IH]; intros st; [done|].
  simpl. rewrite Hf.
  destruct (summary_load_file yaml_load ablation f st) as [st'|q'|e] eqn:Hstep;
    simpl; [apply IH| |done].
  exfalso. unfold summary_load_file in Hstep.
  destruct f as [|obj]; simpl in Hstep; [done|].
  destruct obj as [|obj0 rest]; simpl in Hstep; [done|].
  destruct (getitem obj0 "featureset_name") as [namev| |] eqn:Hname;
    simpl in Hstep; [|by unfold getitem in Hname; destruct (obj0 !! _)|done].
  destruct (decide (ablation ≠ 0%Z)); simpl in Hstep; [|done].
  destruct (py_contains "_minus_" namev) as [[]| |] eqn:Hmark; simpl in Hstep;
    [|done|by destruct namev|done].
  destruct (py_split_first "_minus_" namev) as [parent| |] eqn:Hsplit;
    simpl in Hstep; [|by destruct namev|done].
  destruct (getitem obj0 "featureset") as [featureset| |] eqn:Hfs;
    simpl in Hstep; [|by unfold getitem in Hfs; destruct (obj0 !! _)|done].
  destruct (yaml_load featureset) as [features| |] eqn:Hy; simpl in Hstep;
    [done| |done].
  by apply Hyaml in Hy.
Qed.

End Loading.

(** ** Missing and empty input files *)

(** C1, as stated, fails: when the file before the missing path holds an
    empty array, the summary aggregation raises [IndexError] on that file
    and never reports the missing path. *)
Lemma missing_path_not_reported_after_empty_file :
  let fs : filesystem := {[ "a.json" := Document [] ]} in
  let paths := [ "a.json"; "b.json" ] in
  ("b.json" ∈ paths ∧ fs !! "b.json" = None)
  ∧ _write_summary_file yaml_flow_list json_dumps_names fs paths 0 []
    = (Raise IndexError, []).
Proof.
  split; [split|].
  - set_solver.
  - reflexivity.
  - reflexivity.
Qed.

(** C1 (amended): with a missing path among the inputs, neither aggregation
    writes anything (no header, no row, an empty file stays empty); each
    ends by the early [return] or by an exception. How the call ends is fixed by the
    paths before a missing path [p]: when they load, the call logs [p] and
    takes the early [return] (a plain return, no exception); when loading
    them raises, the call ends with that exception and [p] is not reported.
    There is a first missing path; before it only an exception can stop the
    loading (for the summary, as long as [yaml.load] itself raises on
    failure), so one of the two cases applies. *)
Theorem missing_input_writes_nothing
    (yaml_load : json → res (list string)) (json_dumps : list string → string)
    (render : json → string) (fs : filesystem) (paths : list string)
    (ablation : Z) (out : table) :
  (∃ p, p ∈ paths ∧ fs !! p = None) →
  let s := _write_summary_file yaml_load json_dumps fs paths ablation out in
  let c := _write_learning_curve_file fs paths out in
  (s.2 = out ∧ ((∃ q, s.1 = Abort q) ∨ (∃ e, s.1 = Raise e)))
  ∧ (c.2 = out ∧ ((∃ q, c.1 = Abort q) ∨ (∃ e, c.1 = Raise e)))
  ∧ (out = [] → file_text render s.2 = "" ∧ file_text render c.2 = "")
  ∧ (∀ pre p post, paths = pre ++ p :: post → fs !! p = None →
       (is_ok (summary_load yaml_load fs ablation pre ([], ∅)) → s.1 = Abort p)
       ∧ (is_ok (curve_load fs pre []) → c.1 = Abort p)
       ∧ (∀ e, summary_load yaml_load fs ablation pre ([], ∅) = Raise e →
               s.1 = Raise e)
       ∧ (∀ e, curve_load fs pre [] = Raise e → c.1 = Raise e))
  ∧ (∃ pre p post,
       paths = pre ++ p :: post ∧ fs !! p = None
       ∧ Forall (λ q, is_Some (fs !! q)) pre
       ∧ (∀ q, curve_load fs pre [] ≠ Abort q)
       ∧ ((∀ v q, yaml_load v ≠ Abort q) →
          ∀ q, summary_load yaml_load fs ablation pre ([], ∅) ≠ Abort q)).
Proof.
  intros Hmiss s c.
  pose proof (summary_load_missing yaml_load fs ablation paths ([], ∅) Hmiss) as Hs.
  pose proof (curve_load_missing fs paths [] Hmiss) as Hc.
  destruct (write_summary_load_stops yaml_load json_dumps fs ablation paths out Hs)
    as (Hs2 & Hs1 & Hsa & Hsr).
  destruct (write_curve_load_stops fs paths out Hc) as (Hc2 & Hc1 & Hca).
  split_and!; try done.
  - by apply not_ok_cases.
  - by apply not_ok_cases.
  - intros ->. subst s c. by rewrite Hs2, Hc2.
  - intros pre p post -> Hp. split_and!.
    + intros [st Hst]. apply Hsa.
      rewrite summary_load_app, Hst. simpl. by rewrite Hp.
    + intros [acc Hacc]. apply Hca.
      rewrite curve_load_app, Hacc. simpl. by rewrite Hp.
    + intros e He. apply Hsr. by rewrite summary_load_app, He.
    + intros e He. apply write_curve_load_raises. by rewrite curve_load_app, He.
  - destruct (first_missing_path fs paths Hmiss) as (pre & p & post & Heq & Hp & Hpre).
    exists pre, p, post. split_and!; [done..| |].
    + intros q. by apply curve_load_no_abort.
    + intros Hyaml q. by apply summary_load_no_abort.
Qed.

(** The ablation run over [a.json], a missing file and [b.json]: both
    aggregations report the missing path and leave the file empty. *)
Lemma missing_input_writes_nothing_witness :
  let s := _write_summary_file yaml_flow_list json_dumps_names demo_fs demo_paths 1 [] in
  let c := _write_learning_curve_file demo_fs demo_paths [] in
  (s.1 = Abort "missing.json" ∧ s.2 = [])
  ∧ (c.1 = Abort "missing.json" ∧ c.2 = []).
Proof.
  intros s c.
  assert (Hmiss : ∃ p, p ∈ demo_paths ∧ demo_fs !! p = None).
  { exists "missing.json". split.
    - unfold demo_paths. set_solver.
    - reflexivity. }
  destruct (missing_input_writes_nothing yaml_flow_list json_dumps_names
              render_plain demo_fs demo_paths 1 [] Hmiss)
    as ((Hs2 & _) & (Hc2 & _) & _ & Hrep & _).
  destruct (Hrep ["a.json"] "missing.json" ["b.json"] eq_refl)
    as (Hs1 & Hc1 & _ & _).
  { reflexivity. }
  split; split.
  - apply Hs1. eexists. reflexivity.
  - exact Hs2.
  - apply Hc1. eexists. reflexivity.
  - exact Hc2.
Defined.

(** C10: [_write_summary_file] needs a record to build the header from and
    a first record in every file. On an empty path list the access to the
    first loaded record raises [IndexError]; when a file holds an empty
    array and the paths before it load, the access to its first record
    raises [IndexError]; in both cases, and whatever stops the loading
    earlier, nothing is written and the call does not return normally. *)
Theorem summary_needs_first_record
    (yaml_load : json → res (list string)) (json_dumps : list string → string)
    (fs : filesystem) (paths : list string) (ablation : Z) (out : table) :
  paths = [] ∨ (∃ p, p ∈ paths ∧ fs !! p = Some (Document [])) →
  let s := _write_summary_file yaml_load json_dumps fs paths ablation out in
  s.2 = out ∧ ¬ is_ok s.1
  ∧ (paths = [] → s.1 = Raise IndexError)
  ∧ (∀ pre p post, paths = pre ++ p :: post → fs !! p = Some (Document []) →
       is_ok (summary_load yaml_load fs ablation pre ([], ∅)) →
       s.1 = Raise IndexError).
Proof.
  intros Hreq s.
  assert (Hempty : paths = [] → s = (Raise IndexError, out)).
  { intros ->. reflexivity. }
  assert (Hdoc : (∃ p, p ∈ paths ∧ fs !! p = Some (Document [])) →
                 s.2 = out ∧ ¬ is_ok s.1
                 ∧ ∀ e, summary_load yaml_load fs ablation paths ([], ∅) = Raise e →
                        s.1 = Raise e).
  { intros Hp.
    pose proof (summary_load_empty_document yaml_load fs ablation paths ([], ∅) Hp) as Hs.
    destruct (write_summary_load_stops yaml_load json_dumps fs ablation paths out Hs)
      as (H2 & H1 & _ & He).
    done. }
  split_and!.
  - destruct Hreq as [Hnil|Hp]; [by rewrite (Hempty Hnil)|by apply Hdoc].
  - destruct Hreq as [Hnil|Hp]; [|by apply Hdoc].
    rewrite (Hempty Hnil). stopped.
  - intros Hnil. by rewrite (Hempty Hnil).
  - intros pre p post Hpaths Hp [st Hst].
    destruct Hdoc as (_ & _ & He).
    { exists p. split; [|done]. rewrite Hpaths. apply elem_of_app. right. constructor. }
    apply He. rewrite Hpaths, summary_load_app, Hst. simpl. by rewrite Hp.
Qed.

(** A run whose second file holds an empty array. *)
Lemma summary_needs_first_record_witness :
  let fs : filesystem := <["empty.json" := Document []]> demo_fs in
  let s := _write_summary_file yaml_flow_list json_dumps_names fs
             [ "a.json"; "empty.json"; "b.json" ] 1 [] in
  s.1 = Raise IndexError ∧ s.2 = [].
Proof.
  intros fs s.
  destruct (summary_needs_first_record yaml_flow_list json_dumps_names fs
              [ "a.json"; "empty.json"; "b.json" ] 1 [])
    as (H2 & _ & _ & H1).
  { right. exists "empty.json". split.
    - set_solver.
    - reflexivity. }
  split; [|exact H2].
  apply (H1 ["a.json"] "empty.json" ["b.json"] eq_refl).
  - reflexivity.
  - eexists. reflexivity.
Defined.

(** ** Sorting and rows *)

Lemma sorted_spec (X : gset string) :
  StronglySorted String.le (sorted (elements X))
  ∧ NoDup (sorted (elements X))
  ∧ ∀ x, x ∈ sorted (elements X) ↔ x ∈ X.
Proof.
  unfold sorted. split_and!.
  - apply (StronglySorted_merge_sort String.le).
  - rewrite merge_sort_Permutation. apply NoDup_elements.
  - intros x. rewrite merge_sort_Permutation. apply elem_of_elements.
Qed.

(** The cell of a written row under a header field is the dict's value for
    the field, or the empty string. *)
Lemma cell_dict_row header (d : record) k :
  k ∈ header → cell header (dict_row header d) k = default (JStr "") (d !! k).
Proof.
  induction header as [|c header IH]; intros Hin; [by inversion Hin|].
  simpl. destruct (decide (c = k)) as [->|Hne]; [done|].
  apply elem_of_cons in Hin as [->|Hin]; [done|]. by apply IH.
Qed.

Lemma set_ablated_lookup json_dumps (X : gset string) (lrd : record) :
  set_ablated json_dumps X lrd !! "ablated_features" =
  Some (if decide (X = ∅) then JStr ""
        else JStr (json_dumps (sorted (elements X)))).
Proof.
  unfold set_ablated. destruct (decide (X ≠ ∅)) as [Hne|He].
  - rewrite lookup_insert_eq. by destruct (decide (X = ∅)).
  - rewrite lookup_insert_eq. destruct (decide (X = ∅)); [done|]. by destruct He.
Qed.

(** ** The writing loop of the summary *)

Section SummaryRows.

Variable yaml_load : json → res (list string).
Variable json_dumps : list string → string.

Lemma summary_write_record_emit ablation all_features header lrd out :
  summary_write_record yaml_load json_dumps ablation all_features header lrd out
  = emit (summary_record_row yaml_load json_dumps ablation all_features header) lrd out.
Proof.
  unfold summary_write_record, emit, summary_record_row, bind, lift, ret, writerow.
  destruct (getitem lrd "featureset_name") as [name| |]; simpl; [|done..].
  destruct (decide (ablation ≠ 0%Z)); simpl; [|done].
  destruct (py_split_first "_minus_" name); simpl; [|done..].
  destruct (getitem lrd "featureset") as [fsv| |]; simpl; [|done..].
  destruct (yaml_load fsv); simpl; done.
Qed.

Lemma summary_record_row_ablation ablation all_features header lrd r :
  ablation ≠ 0%Z →
  summary_record_row yaml_load json_dumps ablation all_features header lrd = Ok r →
  ∃ name fsv features,
    lrd !! "featureset_name" = Some (JStr name)
    ∧ lrd !! "featureset" = Some fsv
    ∧ yaml_load fsv = Ok features
    ∧ r = dict_row header
            (set_ablated json_dumps
               (ablated_of all_features (split_first "_minus_" name) features) lrd).
Proof.
  intros Habl. unfold summary_record_row, getitem.
  destruct (lrd !! "featureset_name") as [namev|]; simpl; [|done].
  destruct (decide (ablation ≠ 0%Z)); [|done].
  destruct namev as [| | |name| |]; simpl; try done.
  destruct (lrd !! "featureset") as [fsv|]; simpl; [|done].
  destruct (yaml_load fsv) as [features| |] eqn:Hy; simpl; [|done..].
  intros [= <-]. by exists name, fsv, features.
Qed.

Lemma write_summary_unfold fs paths ablation out lrds all_features :
  summary_load yaml_load fs ablation paths ([], ∅) = Ok (lrds, all_features) →
  _write_summary_file yaml_load json_dumps fs paths ablation out =
  match summary_header ablation lrds with
  | Ok header =>
      for_each (emit (summary_record_row yaml_load json_dumps ablation all_features header)) lrds
               (out ++ [JStr <$> header])
  | Abort p => (Abort p, out)
  | Raise e => (Raise e, out)
  end.
Proof.
  intros Hload. unfold _write_summary_file, bind, lift. rewrite Hload. simpl.
  destruct (summary_header ablation lrds) as [header| |]; simpl; [|done..].
  apply for_each_ext. intros. apply summary_write_record_emit.
Qed.

(** The output of a call whose loading phase completed: the old content, the
    header row, and one row per record of a prefix of the loaded records. *)
Lemma write_summary_rows fs paths ablation out lrds all_features :
  summary_load yaml_load fs ablation paths ([], ∅) = Ok (lrds, all_features) →
  let s := _write_summary_file yaml_load json_dumps fs paths ablation out in
  match summary_header ablation lrds with
  | Ok header =>
      ∃ rows, s.2 = out ++ (JStr <$> header) :: rows
        ∧ (∀ i r, rows !! i = Some r →
             ∃ lrd, lrds !! i = Some lrd
               ∧ summary_record_row yaml_load json_dumps ablation all_features header lrd = Ok r)
        ∧ (is_ok s.1 → length rows = length lrds)
  | _ => s.2 = out ∧ ¬ is_ok s.1
  end.
Proof.
  intros Hload s. subst s. rewrite (write_summary_unfold _ _ _ _ _ _ Hload).
  destruct (summary_header ablation lrds) as [header| |]; simpl.
  - destruct (for_each_emit (summary_record_row yaml_load json_dumps ablation all_features header) lrds
                (out ++ [JStr <$> header])) as (rows & Heq & _ & Hrows & Hlen).
    exists rows. rewrite Heq, <- app_assoc. done.
  - split; [done|]. stopped.
  - split; [done|]. stopped.
Qed.

End SummaryRows.

(** ** What the loading loop accumulates *)

Section Accumulation.

Variable yaml_load : json → res (list string).
Variable fs : filesystem.
Variable ablation : Z.

Lemma summary_load_file_ok f st st' :
  summary_load_file yaml_load ablation f st = Ok st' →
  ∃ obj, f = Document obj ∧ st'.1 = st.1 ++ obj
    ∧ (ablation = 0%Z → st'.2 = st.2)
    ∧ (ablation ≠ 0%Z → ∀ parent x,
         x ∈ features_of st'.2 parent ↔
         x ∈ features_of st.2 parent ∨ first_record_feature yaml_load f parent x).
Proof.
  unfold summary_load_file. destruct f as [|obj]; simpl; [done|].
  destruct obj as [|obj0 rest]; simpl; [done|].
  unfold getitem. destruct (obj0 !! "featureset_name") as [namev|] eqn:Hname; simpl; [|done].
  destruct (decide (ablation ≠ 0%Z)) as [Habl|Habl]; simpl.
  - destruct (py_contains "_minus_" namev) as [marked| |] eqn:Hmark; simpl; [|done..].
    destruct marked.
    + destruct namev as [| | |name| |]; simpl; try done.
      destruct (obj0 !! "featureset") as [featureset|] eqn:Hfs; simpl; [|done].
      destruct (yaml_load featureset) as [features| |] eqn:Hy; simpl; [|done..].
      intros [= <-]. exists (obj0 :: rest). simpl. split_and!; try done.
      intros _ parent x. unfold features_of at 1.
      destruct (decide (split_first "_minus_" name = parent)) as [<-|Hne].
      * rewrite lookup_insert_eq. simpl. rewrite elem_of_union, elem_of_list_to_set.
        split.
        -- intros [?|?]; [by left|]. right.
           exists obj0, rest, name, featureset, features.
           simpl in Hmark. injection Hmark as Hmark. done.
        -- intros [?|(o & r & n & fv & ft & [= <- <-] & Hn & _ & Hp & Hf & Hyl & Hx)];
             [by left|].
           right. rewrite Hname in Hn. injection Hn as <-.
           rewrite Hfs in Hf. injection Hf as <-.
           rewrite Hy in Hyl. by injection Hyl as <-.
      * rewrite lookup_insert_ne by done. fold (features_of st.2 parent).
        split; [by left|].
        intros [?|(o & r & n & fv & ft & [= <- <-] & Hn & _ & Hp & _)]; [done|].
        rewrite Hname in Hn. by injection Hn as <-.
    + intros [= <-]. exists (obj0 :: rest). simpl. split_and!; try done.
      intros _ parent x. split; [by left|].
      intros [?|(o & r & n & fv & ft & [= <- <-] & Hn & Hc & _)]; [done|].
      rewrite Hname in Hn. injection Hn as ->. simpl in Hmark. congruence.
  - intros [= <-]. exists (obj0 :: rest). simpl. split_and!; try done.
Qed.

Lemma summary_load_ok paths st lrds all_features :
  summary_load yaml_load fs ablation paths st = Ok (lrds, all_features) →
  lrds = st.1 ++ documents fs paths
  ∧ Forall (λ p, ∃ obj0 rest, fs !! p = Some (Document (obj0 :: rest))) paths
  ∧ (ablation = 0%Z → all_features = st.2)
  ∧ (ablation ≠ 0%Z → ∀ parent x,
       x ∈ features_of all_features parent ↔
       x ∈ features_of st.2 parent
       ∨ ∃ p f, p ∈ paths ∧ fs !! p = Some f
                ∧ first_record_feature yaml_load f parent x).
Proof.
  revert st. induction paths as [|q paths IH]; intros st; simpl.
  - destruct st as [l a]. intros [= <- <-]. simpl. rewrite app_nil_r.
    split_and!; try done.
    intros _ parent x. split; [by left|].
    intros [?|(p & f & Hin & _)]; [done|by inversion Hin].
  - destruct (fs !! q) as [f|] eqn:Hq; [|done].
    destruct (summary_load_file yaml_load ablation f st) as [st'| |] eqn:Hstep;
      simpl; [|done..].
    intros Hload.
    destruct (summary_load_file_ok f st st' Hstep) as (obj & -> & H1 & H0 & Hf).
    destruct (IH st' Hload) as (Hlrds & Hall & Hz & Hfeat).
    split_and!.
    + by rewrite Hlrds, H1, <- app_assoc.
    + constructor; [|done]. unfold summary_load_file in Hstep. simpl in Hstep.
      destruct obj as [|obj0 rest]; [done|]. eauto.
    + intros Habl. by rewrite Hz, H0.
    + intros Habl parent x. rewrite (Hfeat Habl), (Hf Habl). split.
      * intros [[?|?]|(p & f & Hin & Hp & Hfr)]; [by left|..].
        -- right. exists q, (Document obj). split_and!; [constructor|done..].
        -- right. exists p, f. split_and!; [by constructor|done..].
      * intros [?|(p & f & Hin & Hp & Hfr)]; [by left; left|].
        apply elem_of_cons in Hin as [->|Hin].
        -- rewrite Hq in Hp. injection Hp as <-. by left; right.
        -- right. eauto.
Qed.

End Accumulation.

(** ** Ablated features *)

(** C2, as stated, fails: the features seen for a parent are taken from
    the first record of each file only. Both children of A are loaded from
    one file; f1 is a feature of the second, a loaded record whose name has
    the marker and whose parent is A, and f1 is not a feature of the first,
    yet the row of the first has the empty string under
    [ablated_features]. *)
Lemma seen_feature_missing_from_ablated_cell :
  let run := _write_summary_file yaml_flow_list json_dumps_names joint_fs
               [ "joint.json" ] 1 [] in
  let header := [ "ablated_features"; "featureset"; "featureset_name" ] in
  documents joint_fs [ "joint.json" ]
    = [ demo_record "A_minus_f1" "[f2, f3]"; demo_record "A_minus_f2" "[f1, f3]" ]
  ∧ split_first "_minus_" "A_minus_f1" = "A"
  ∧ split_first "_minus_" "A_minus_f2" = "A"
  ∧ str_contains "_minus_" "A_minus_f1" = true
  ∧ str_contains "_minus_" "A_minus_f2" = true
  ∧ yaml_flow_list (JStr "[f2, f3]") = Ok [ "f2"; "f3" ]
  ∧ yaml_flow_list (JStr "[f1, f3]") = Ok [ "f1"; "f3" ]
  ∧ run.1 = Ok ()
  ∧ run.2 !! 0 = Some (JStr <$> header)
  ∧ (∃ r, run.2 !! 1 = Some r
          ∧ cell header r "featureset_name" = JStr "A_minus_f1"
          ∧ cell header r "ablated_features" = JStr "").
Proof.
  split_and!; try reflexivity.
  eexists. split_and!; reflexivity.
Qed.

(** C2 (amended): in an ablation run, every row the summary emits carries,
    under [ablated_features], the JSON serialization of the sorted list of
    the features that are seen for the row's parent and are not among the
    row's own decoded features, and the empty string when there is none. A
    feature is seen for a parent when it is a decoded feature of the first
    record of an input file whose first record is an ablation child of that
    parent; the later records of a file are not looked at. The parent is
    the featureset name up to the marker, so this holds in particular for
    the rows whose name contains the marker. *)
Theorem ablated_features_of_emitted_rows
    (yaml_load : json → res (list string)) (json_dumps : list string → string)
    (fs : filesystem) (paths : list string) (ablation : Z) (out : table) :
  ablation ≠ 0%Z →
  let final := (_write_summary_file yaml_load json_dumps fs paths ablation out).2 in
  ∀ i r, final !! (length out + 1 + i) = Some r →
    ∃ header lrd name featureset features names,
      final !! length out = Some (JStr <$> header)
      ∧ "ablated_features" ∈ header
      ∧ documents fs paths !! i = Some lrd
      ∧ lrd !! "featureset_name" = Some (JStr name)
      ∧ lrd !! "featureset" = Some featureset
      ∧ yaml_load featureset = Ok features
      ∧ StronglySorted String.le names
      ∧ NoDup names
      ∧ (∀ x, x ∈ names ↔
           (∃ p f, p ∈ paths ∧ fs !! p = Some f
                   ∧ first_record_feature yaml_load f
                       (split_first "_minus_" name) x)
           ∧ x ∉ features)
      ∧ cell header r "ablated_features" =
          if decide (names = []) then JStr "" else JStr (json_dumps names).
Proof.
  intros Habl final i r Hr.
  destruct (summary_load yaml_load fs ablation paths ([], ∅))
    as [[lrds all_features]|q|e] eqn:Hload.
  - pose proof (write_summary_rows yaml_load json_dumps fs paths ablation out
                  lrds all_features Hload) as Hrows.
    simpl in Hrows. fold final in Hrows.
    destruct (summary_load_ok yaml_load fs ablation paths ([], ∅) lrds
                all_features Hload) as (Hlrds & _ & _ & Hfeat).
    simpl in Hlrds. subst lrds.
    assert (Hseen : ∀ parent x,
              x ∈ features_of all_features parent ↔
              ∃ p f, p ∈ paths ∧ fs !! p = Some f
                     ∧ first_record_feature yaml_load f parent x).
    { intros parent x. rewrite (Hfeat Habl). simpl.
      unfold features_of at 1. rewrite lookup_empty. simpl.
      split; [intros [H|H]; [by apply not_elem_of_empty in H|done]|by right]. }
    destruct (summary_header ablation (documents fs paths)) as [header| |] eqn:Hh.
    + destruct Hrows as (rows & Hfinal & Hrows & _).
      assert (Hin : "ablated_features" ∈ header).
      { unfold summary_header in Hh. destruct (documents fs paths) as [|lrd0 ?]; [done|].
        simpl in Hh. destruct (decide (ablation ≠ 0%Z)); [|done].
        injection Hh as <-. apply sorted_spec.
        apply elem_of_union. right. by apply elem_of_singleton. }
      rewrite Hfinal in Hr.
      rewrite lookup_app_r in Hr by lia.
      replace (length out + 1 + i - length out) with (S i) in Hr by lia.
      simpl in Hr.
      destruct (Hrows i r Hr) as (lrd & Hlrd & Hrow).
      destruct (summary_record_row_ablation yaml_load json_dumps ablation
                  all_features header lrd r Habl Hrow)
        as (name & featureset & features & Hname & Hfs & Hy & ->).
      set (difference := ablated_of all_features (split_first "_minus_" name) features).
      destruct (sorted_spec difference) as (Hsorted & Hnodup & Hmem).
      exists header, lrd, name, featureset, features, (sorted (elements difference)).
      split_and!; try done.
      * rewrite Hfinal. rewrite lookup_app_r by lia.
        by replace (length out - length out) with 0 by lia.
      * intros x. rewrite Hmem. unfold difference, ablated_of.
        by rewrite elem_of_difference, elem_of_list_to_set, Hseen.
      * rewrite cell_dict_row by done. rewrite set_ablated_lookup.
        fold difference.
        destruct (decide (difference = ∅)) as [Hempty|Hne].
        -- rewrite decide_True; [done|].
           apply elem_of_nil_inv. intros x. rewrite Hmem, Hempty.
           apply not_elem_of_empty.
        -- rewrite decide_False; [done|].
           intros Hnil. apply Hne. apply set_eq. intros x.
           rewrite <- Hmem, Hnil. split; intros H; [by inversion H|].
           by apply not_elem_of_empty in H.
    + destruct Hrows as [Hfinal _]. rewrite Hfinal in Hr.
      apply lookup_lt_Some in Hr. lia.
    + destruct Hrows as [Hfinal _]. rewrite Hfinal in Hr.
      apply lookup_lt_Some in Hr. lia.
  - assert (Hno : ¬ is_ok (summary_load yaml_load fs ablation paths ([], ∅)))
      by (rewrite Hload; stopped).
    destruct (write_summary_load_stops yaml_load json_dumps fs ablation paths out Hno)
      as (Hfinal & _). fold final in Hfinal. rewrite Hfinal in Hr.
    apply lookup_lt_Some in Hr. lia.
  - assert (Hno : ¬ is_ok (summary_load yaml_load fs ablation paths ([], ∅)))
      by (rewrite Hload; stopped).
    destruct (write_summary_load_stops yaml_load json_dumps fs ablation paths out Hno)
      as (Hfinal & _). fold final in Hfinal. rewrite Hfinal in Hr.
    apply lookup_lt_Some in Hr. lia.
Qed.

(** A duplicate-free list whose members all equal [a], and which has [a],
    is the list of [a] alone. *)
Lemma NoDup_only {A} (a : A) (l : list A) :
  NoDup l → a ∈ l → (∀ x, x ∈ l → x = a) → l = [ a ].
Proof.
  intros Hnd Ha Hall. destruct l as [|x l]; [by inversion Ha|].
  assert (x = a) as -> by (apply Hall; left).
  destruct l as [|y l]; [done|].
  assert (y = a) as -> by (apply Hall; right; left).
  apply NoDup_cons in Hnd as [Hnot _]. destruct Hnot. left.
Qed.

(** The first row of the ablation run over [a.json] and [b.json]: the child
    without f1 gets the serialized list with f1, which is seen in the first
    record of [b.json]. *)
Lemma ablated_features_of_emitted_rows_witness :
  let final := (_write_summary_file yaml_flow_list json_dumps_names demo_fs
                  [ "a.json"; "b.json" ] 1 []).2 in
  ∃ header r,
    final !! 0 = Some (JStr <$> header)
    ∧ final !! 1 = Some r
    ∧ cell header r "ablated_features" = JStr (json_dumps_names ["f1"]).
Proof.
  intros final.
  assert (Hr : ∃ r, final !! 1 = Some r) by (eexists; reflexivity).
  destruct Hr as [r Hr].
  destruct (ablated_features_of_emitted_rows yaml_flow_list json_dumps_names
              demo_fs [ "a.json"; "b.json" ] 1 [] ltac:(discriminate) 0 r Hr)
    as (header & lrd & name & featureset & features & names
        & Hheader & _ & Hlrd & Hname & Hfs & Hy & _ & Hnd & Hmem & Hcell).
  change (documents demo_fs [ "a.json"; "b.json" ] !! 0)
    with (Some (demo_record "A_minus_f1" "[f2, f3]")) in Hlrd.
  injection Hlrd as <-.
  change (demo_record "A_minus_f1" "[f2, f3]" !! "featureset_name")
    with (Some (JStr "A_minus_f1")) in Hname.
  injection Hname as <-.
  change (demo_record "A_minus_f1" "[f2, f3]" !! "featureset")
    with (Some (JStr "[f2, f3]")) in Hfs.
  injection Hfs as <-.
  change (yaml_flow_list (JStr "[f2, f3]")) with (Ok [ "f2"; "f3" ]) in Hy.
  injection Hy as <-.
  change (split_first "_minus_" "A_minus_f1") with "A" in Hmem.
  assert (Hnames : names = [ "f1" ]).
  { apply NoDup_only; [done| |].
    - apply Hmem. split.
      + exists "b.json", (Document [demo_record "A_minus_f2" "[f1, f3]"]).
        split_and!.
        * apply list_elem_of_lookup. by exists 1.
        * reflexivity.
        * exists (demo_record "A_minus_f2" "[f1, f3]"), [], "A_minus_f2",
            (JStr "[f1, f3]"), [ "f1"; "f3" ].
          split_and!; try reflexivity.
          apply list_elem_of_lookup. by exists 0.
      + intros H. repeat (apply elem_of_cons in H as [H|H]; [discriminate|]).
        by inversion H.
    - intros x Hx. apply Hmem in Hx as [(p & f & Hp & Hf & Hfirst) Hown].
      destruct Hfirst as (obj0 & rest & n & fv & ft & -> & Hn & _ & _ & Hfv & Hft & Hx).
      assert (Hcases : x = "f1" ∨ x ∈ [ "f2"; "f3" ]).
      { apply elem_of_cons in Hp as [->|Hp].
        - change (demo_fs !! "a.json")
            with (Some (Document [demo_record "A_minus_f1" "[f2, f3]"])) in Hf.
          injection Hf as <- <-.
          change (demo_record "A_minus_f1" "[f2, f3]" !! "featureset")
            with (Some (JStr "[f2, f3]")) in Hfv.
          injection Hfv as <-.
          change (yaml_flow_list (JStr "[f2, f3]")) with (Ok [ "f2"; "f3" ]) in Hft.
          injection Hft as <-. by right.
        - apply list_elem_of_singleton in Hp as ->.
          change (demo_fs !! "b.json")
            with (Some (Document [demo_record "A_minus_f2" "[f1, f3]"])) in Hf.
          injection Hf as <- <-.
          change (demo_record "A_minus_f2" "[f1, f3]" !! "featureset")
            with (Some (JStr "[f1, f3]")) in Hfv.
          injection Hfv as <-.
          change (yaml_flow_list (JStr "[f1, f3]")) with (Ok [ "f1"; "f3" ]) in Hft.
          injection Hft as <-.
          apply elem_of_cons in Hx as [->|Hx]; [by left|].
          apply list_elem_of_singleton in Hx as ->. right. right. left. }
      destruct Hcases as [->|Hin]; [done|]. by destruct Hown. }
  subst names.
  exists header, r. split_and!; [exact Hheader|exact Hr|].
  rewrite Hcell. reflexivity.
Defined.

(** ** First records and later records *)

(** C3, as stated, fails: a loaded record that is not the first of its file
    is not looked at by the loading loop. Its featureset name contains the
    marker, its parent is A and it has the feature f2, yet f2 is not among
    the features accumulated for A. *)
Lemma marked_record_not_unioned :
  let child := <["pearson" := JNum (1 # 2)]> (demo_record "A_minus_f1" "[f2]") in
  let all_features : gmap string (gset string) := ∅ in
  summary_load yaml_flow_list mixed_fs 1 [ "mixed.json" ] ([], ∅)
    = Ok ([ demo_record "A" "[f1, f2]"; child ], all_features)
  ∧ child !! "featureset_name" = Some (JStr "A_minus_f1")
  ∧ str_contains "_minus_" "A_minus_f1" = true
  ∧ split_first "_minus_" "A_minus_f1" = "A"
  ∧ child !! "featureset" = Some (JStr "[f2]")
  ∧ yaml_flow_list (JStr "[f2]") = Ok [ "f2" ]
  ∧ "f2" ∉ features_of all_features "A".
Proof.
  split_and!.
  - reflexivity.
  - reflexivity.
  - reflexivity.
  - reflexivity.
  - reflexivity.
  - reflexivity.
  - unfold features_of. rewrite lookup_empty. apply not_elem_of_empty.
Qed.

(** C3 (amended): in an ablation run whose loading completes, the loaded
    records are the documents in input order, and the features accumulated
    for a parent are exactly the decoded features of the first record of
    each file whose first record's featureset name contains the marker and
    starts with that parent. Records after the first of a file add
    nothing. *)
Theorem ablation_features_from_first_records
    (yaml_load : json → res (list string)) (fs : filesystem)
    (paths : list string) (ablation : Z)
    (lrds : list record) (all_features : gmap string (gset string)) :
  ablation ≠ 0%Z →
  summary_load yaml_load fs ablation paths ([], ∅) = Ok (lrds, all_features) →
  lrds = documents fs paths
  ∧ ∀ parent x,
      x ∈ features_of all_features parent ↔
      ∃ p f, p ∈ paths ∧ fs !! p = Some f
             ∧ first_record_feature yaml_load f parent x.
Proof.
  intros Habl Hload.
  destruct (summary_load_ok yaml_load fs ablation paths ([], ∅) lrds all_features Hload)
    as (Hlrds & _ & _ & Hfeat).
  split; [done|]. intros parent x. rewrite (Hfeat Habl). simpl.
  unfold features_of at 1. rewrite lookup_empty. simpl.
  split; [intros [H|H]; [by apply not_elem_of_empty in H|done]|by right].
Qed.

(** The same run: f1, which only the first record of [b.json] has, is among
    the features accumulated for the parent A. *)
Lemma ablation_features_from_first_records_witness :
  ∃ lrds all_features,
    summary_load yaml_flow_list demo_fs 1 [ "a.json"; "b.json" ] ([], ∅)
      = Ok (lrds, all_features)
    ∧ lrds = documents demo_fs [ "a.json"; "b.json" ]
    ∧ "f1" ∈ features_of all_features "A".
Proof.
  eexists _, _. split; [reflexivity|].
  destruct (ablation_features_from_first_records yaml_flow_list demo_fs
              [ "a.json"; "b.json" ] 1 _ _ ltac:(discriminate)
              ltac:(reflexivity)) as [Hlrds Hfeat].
  split; [exact Hlrds|].
  apply Hfeat. exists "b.json", (Document [demo_record "A_minus_f2" "[f1, f3]"]).
  split_and!.
  - apply list_elem_of_lookup. by exists 1.
  - reflexivity.
  - exists (demo_record "A_minus_f2" "[f1, f3]"), [], "A_minus_f2",
      (JStr "[f1, f3]"), [ "f1"; "f3" ].
    split_and!; try (reflexivity).
    apply list_elem_of_lookup. by exists 0.
Defined.

(** ** The summary header *)

(** C4, as stated, fails: the key [pearson] is observed in the second
    loaded record, but the header is built from the first record alone and
    does not have it. *)
Lemma header_misses_later_fields :
  let child : record :=
    <["pearson" := JNum (1 # 2)]> (demo_record "A_minus_f1" "[f2]") in
  let header := [ "featureset"; "featureset_name" ] in
  documents mixed_fs [ "mixed.json" ] = [ demo_record "A" "[f1, f2]"; child ]
  ∧ "pearson" ∈ dom child
  ∧ ("pearson" ∉ header)
  ∧ _write_summary_file yaml_flow_list json_dumps_names mixed_fs [ "mixed.json" ] 0 []
    = (Ok (), [ JStr <$> header;
                [ JStr "[f1, f2]"; JStr "A" ];
                [ JStr "[f2]"; JStr "A_minus_f1" ] ]).
Proof.
  split_and!.
  - reflexivity.
  - apply elem_of_dom. eexists. reflexivity.
  - intros H. repeat (apply elem_of_cons in H as [H|H]; [discriminate|]).
    by inversion H.
  - reflexivity.
Qed.

(** C4 (amended): when loading completes with at least one record, the
    first row written is the header, and the header is the sorted,
    duplicate-free list of the field names of the first loaded record
    without [result_table] and [descriptive], together with
    [ablated_features] when ablation is enabled. Fields that only later
    records have are not in it. *)
Theorem summary_header_from_first_record
    (yaml_load : json → res (list string)) (json_dumps : list string → string)
    (fs : filesystem) (paths : list string) (ablation : Z) (out : table)
    (lrd0 : record) (lrds : list record) (all_features : gmap string (gset string)) :
  summary_load yaml_load fs ablation paths ([], ∅) = Ok (lrd0 :: lrds, all_features) →
  ∃ header rows,
    (_write_summary_file yaml_load json_dumps fs paths ablation out).2
      = out ++ (JStr <$> header) :: rows
    ∧ StronglySorted String.le header
    ∧ NoDup header
    ∧ ∀ k, k ∈ header ↔
        (k ∈ dom lrd0 ∧ k ≠ "result_table" ∧ k ≠ "descriptive")
        ∨ (ablation ≠ 0%Z ∧ k = "ablated_features").
Proof.
  intros Hload.
  pose proof (write_summary_rows yaml_load json_dumps fs paths ablation out
                (lrd0 :: lrds) all_features Hload) as Hrows.
  simpl in Hrows.
  set (cols := (dom lrd0 ∖ {[ "result_table"; "descriptive" ]} : gset string)) in *.
  set (cols' := if decide (ablation ≠ 0%Z) then cols ∪ {[ "ablated_features" ]}
                else cols) in *.
  destruct Hrows as (rows & Hfinal & _).
  exists (sorted (elements cols')), rows.
  destruct (sorted_spec cols') as (Hsorted & Hnodup & Hmem).
  split_and!; try done.
  intros k. rewrite Hmem. unfold cols', cols.
  destruct (decide (ablation ≠ 0%Z)) as [Habl|Habl].
  - rewrite elem_of_union, elem_of_difference, elem_of_singleton.
    rewrite not_elem_of_union, !not_elem_of_singleton. tauto.
  - rewrite elem_of_difference.
    rewrite not_elem_of_union, !not_elem_of_singleton. tauto.
Qed.

(** The header of the same run has the keys of the first record and
    [ablated_features]. *)
Lemma summary_header_from_first_record_witness :
  ∃ header rows,
    (_write_summary_file yaml_flow_list json_dumps_names demo_fs
       [ "a.json"; "b.json" ] 1 []).2 = (JStr <$> header) :: rows
    ∧ "ablated_features" ∈ header
    ∧ "featureset" ∈ header.
Proof.
  assert (Hload :
    summary_load yaml_flow_list demo_fs 1 [ "a.json"; "b.json" ] ([], ∅)
    = Ok (demo_record "A_minus_f1" "[f2, f3]" :: [ demo_record "A_minus_f2" "[f1, f3]" ],
          {[ "A" := {[ "f1"; "f2"; "f3" ]} ]})).
  { reflexivity. }
  destruct (summary_header_from_first_record yaml_flow_list json_dumps_names
              demo_fs [ "a.json"; "b.json" ] 1 [] _ _ _ Hload)
    as (header & rows & Hfinal & _ & _ & Hmem).
  exists header, rows. split_and!.
  - exact Hfinal.
  - apply Hmem. right. split; [discriminate|reflexivity].
  - apply Hmem. left. split_and!; [|discriminate..].
    apply elem_of_dom. eexists. reflexivity.
Defined.

(** ** Learning-curve rows *)

Lemma dict_row_set_point (lrd m : record) g t :
  (∀ k, k ∈ passthrough → m !! k = lrd !! k) →
  m !! "metric" = Some g →
  dict_row curve_header (set_point t m) = curve_row lrd g t
  ∧ (∀ k, k ∈ passthrough → set_point t m !! k = lrd !! k)
  ∧ set_point t m !! "metric" = Some g.
Proof.
  intros Hpass Hmetric.
  destruct t as (size & tm & sm & fm & ts & ss & fs).
  assert (Hother : ∀ k, k ∈ "metric" :: passthrough →
                        set_point (size, (tm, (sm, (fm, (ts, (ss, fs)))))) m !! k = m !! k).
  { intros k Hk. unfold set_point.
    repeat (apply elem_of_cons in Hk as [->|Hk];
            [by rewrite !lookup_insert_ne by done|]).
    by inversion Hk. }
  split_and!.
  - unfold dict_row, curve_header, curve_row, field. simpl.
    rewrite !Hother, Hmetric, <- !Hpass
      by (unfold passthrough; repeat constructor).
    unfold set_point. simpl.
    repeat (rewrite lookup_insert_eq || rewrite lookup_insert_ne by done).
    done.
  - intros k Hk. rewrite Hother by (by right). by apply Hpass.
  - rewrite Hother by left. done.
Qed.

Lemma curve_write_points_rows (lrd : record) g pts :
  ∀ m out,
    (∀ k, k ∈ passthrough → m !! k = lrd !! k) →
    m !! "metric" = Some g →
    curve_write_points pts m out = (Ok (), out ++ (curve_row lrd g <$> pts)).
Proof.
  induction pts as [|t pts IH]; intros m out Hpass Hmetric; simpl.
  - by rewrite app_nil_r.
  - destruct (dict_row_set_point lrd m g t Hpass Hmetric) as (Hrow & Hpass' & Hmetric').
    unfold bind, writerow. rewrite Hrow, (IH _ _ Hpass' Hmetric'), <- app_assoc. done.
Qed.

Lemma curve_write_record_emit lrd out :
  curve_write_record lrd out = emit_all curve_record_rows lrd out.
Proof.
  unfold curve_write_record, emit_all, curve_record_rows, bind, lift.
  repeat (match goal with
          | |- context [getitem lrd ?k] => destruct (getitem lrd k); simpl; [|done..]
          end).
  repeat (match goal with
          | |- context [py_iter ?v] => destruct (py_iter v); simpl; [|done..]
          end).
  apply curve_write_points_rows.
  - intros k Hk. rewrite lookup_insert_ne; [done|].
    intros <-. unfold passthrough in Hk.
    repeat (apply elem_of_cons in Hk as [Hk|Hk]; [discriminate|]). by inversion Hk.
  - apply lookup_insert_eq.
Qed.

Lemma for_each_emit_all_cons {A} (f : A → res (list row)) x l out :
  for_each (emit_all f) (x :: l) out =
  match f x with
  | Ok rows => for_each (emit_all f) l (out ++ rows)
  | Abort p => (Abort p, out)
  | Raise e => (Raise e, out)
  end.
Proof. simpl. unfold bind, emit_all at 1. by destruct (f x). Qed.

(** A loop only appends to the file. *)
Lemma for_each_emit_all_grows {A} (f : A → res (list row)) l out :
  ∃ after, (for_each (emit_all f) l out).2 = out ++ after.
Proof.
  revert out. induction l as [|x l IH]; intros out.
  - exists []. simpl. by rewrite app_nil_r.
  - rewrite for_each_emit_all_cons. destruct (f x) as [rows| |].
    + destruct (IH (out ++ rows)) as [after Hafter].
      exists (rows ++ after). by rewrite Hafter, <- app_assoc.
    + exists []. simpl. by rewrite app_nil_r.
    + exists []. simpl. by rewrite app_nil_r.
Qed.

(** The records of a prefix that are all processed leave their rows, in
    order, before the loop goes on with the rest. *)
Lemma for_each_emit_all_prefix {A} (f : A → res (list row)) pre rest rss out :
  Forall2 (λ x rows, f x = Ok rows) pre rss →
  for_each (emit_all f) (pre ++ rest) out
  = for_each (emit_all f) rest (out ++ concat rss).
Proof.
  intros Hpre. revert out.
  induction Hpre as [|x rows pre rss Hx _ IH]; intros out; simpl concat.
  - by rewrite app_nil_r.
  - rewrite <- app_comm_cons, for_each_emit_all_cons, Hx, IH, <- app_assoc. done.
Qed.

(** A record that the loop body writes as [rows] has [rows] as its rows. *)
Lemma curve_write_record_rows lrd rows :
  (∀ out, curve_write_record lrd out = (Ok (), out ++ rows)) →
  curve_record_rows lrd = Ok rows.
Proof.
  intros Hrun. specialize (Hrun []). rewrite curve_write_record_emit in Hrun.
  unfold emit_all in Hrun. destruct (curve_record_rows lrd); [|done..].
  by injection Hrun as ->.
Qed.

Lemma write_curve_unfold fs paths out lrds :
  curve_load fs paths [] = Ok lrds →
  _write_learning_curve_file fs paths out
  = for_each (emit_all curve_record_rows) lrds (out ++ [JStr <$> curve_header]).
Proof.
  intros Hload. unfold _write_learning_curve_file, bind, lift. rewrite Hload. simpl.
  apply for_each_ext. intros. apply curve_write_record_emit.
Qed.

Lemma length_zip7 (l1 l2 l3 l4 l5 l6 l7 : list json) :
  length (zip7 l1 l2 l3 l4 l5 l6 l7)
  = length l1 `min` (length l2 `min` (length l3 `min` (length l4 `min`
      (length l5 `min` (length l6 `min` length l7))))).
Proof. unfold zip7. by rewrite !length_zip. Qed.

Lemma lookup_zip7 (l1 l2 l3 l4 l5 l6 l7 : list json) i x1 x2 x3 x4 x5 x6 x7 :
  zip7 l1 l2 l3 l4 l5 l6 l7 !! i = Some (x1, (x2, (x3, (x4, (x5, (x6, x7))))))
  ↔ l1 !! i = Some x1 ∧ l2 !! i = Some x2 ∧ l3 !! i = Some x3 ∧ l4 !! i = Some x4
    ∧ l5 !! i = Some x5 ∧ l6 !! i = Some x6 ∧ l7 !! i = Some x7.
Proof. unfold zip7. by rewrite !lookup_zip_Some. Qed.

(** The rows of a record whose seven fields are lists: one per tuple of the
    seven-way zip. *)
Lemma curve_record_rows_lists (lrd : record) g l1 l2 l3 l4 l5 l6 l7 :
  lrd !! "computed_curve_train_sizes" = Some (JList l1) →
  lrd !! "learning_curve_train_scores_means" = Some (JList l2) →
  lrd !! "learning_curve_test_scores_means" = Some (JList l3) →
  lrd !! "learning_curve_fit_times_means" = Some (JList l4) →
  lrd !! "learning_curve_train_scores_stds" = Some (JList l5) →
  lrd !! "learning_curve_test_scores_stds" = Some (JList l6) →
  lrd !! "learning_curve_fit_times_stds" = Some (JList l7) →
  lrd !! "grid_objective" = Some g →
  curve_record_rows lrd = Ok (curve_row lrd g <$> zip7 l1 l2 l3 l4 l5 l6 l7).
Proof.
  intros H1 H2 H3 H4 H5 H6 H7 Hg. unfold curve_record_rows, getitem.
  rewrite H1, H2, H3, H4, H5, H6, H7, Hg. reflexivity.
Qed.

(** The cells of a row of [curve_row], by column name. *)
Lemma curve_row_cells (lrd : record) g x1 x2 x3 x4 x5 x6 x7 :
  let r := curve_row lrd g (x1, (x2, (x3, (x4, (x5, (x6, x7)))))) in
  cell curve_header r "metric" = g
  ∧ cell curve_header r "training_set_size" = x1
  ∧ cell curve_header r "train_score_mean" = x2
  ∧ cell curve_header r "test_score_mean" = x3
  ∧ cell curve_header r "fit_time_mean" = x4
  ∧ cell curve_header r "train_score_std" = x5
  ∧ cell curve_header r "test_score_std" = x6
  ∧ cell curve_header r "fit_time_std" = x7.
Proof. repeat split. Qed.

(** C5: a record whose seven sequences all have length [n], reached by the
    writing loop (the records before it were written), gets exactly [n]
    rows in the output, right after the rows of the records before it; row
    [i] carries element [i] of each sequence under the matching column and
    the record's [grid_objective] under [metric]. *)
Theorem curve_record_one_row_per_size
    (fs : filesystem) (paths : list string) (out : table)
    (pre post : list record) (rss : list (list row)) (lrd : record)
    (g : json) (l1 l2 l3 l4 l5 l6 l7 : list json) (n : nat) :
  curve_load fs paths [] = Ok (pre ++ lrd :: post) →
  Forall2 (λ r rows, ∀ out', curve_write_record r out' = (Ok (), out' ++ rows))
          pre rss →
  lrd !! "computed_curve_train_sizes" = Some (JList l1) →
  lrd !! "learning_curve_train_scores_means" = Some (JList l2) →
  lrd !! "learning_curve_test_scores_means" = Some (JList l3) →
  lrd !! "learning_curve_fit_times_means" = Some (JList l4) →
  lrd !! "learning_curve_train_scores_stds" = Some (JList l5) →
  lrd !! "learning_curve_test_scores_stds" = Some (JList l6) →
  lrd !! "learning_curve_fit_times_stds" = Some (JList l7) →
  lrd !! "grid_objective" = Some g →
  length l1 = n → length l2 = n → length l3 = n → length l4 = n →
  length l5 = n → length l6 = n → length l7 = n →
  ∃ rows after,
    (_write_learning_curve_file fs paths out).2
      = out ++ (JStr <$> curve_header) :: concat rss ++ rows ++ after
    ∧ (∀ out', curve_write_record lrd out' = (Ok (), out' ++ rows))
    ∧ length rows = n
    ∧ ∀ i, i < n →
        ∃ r x1 x2 x3 x4 x5 x6 x7,
          rows !! i = Some r
          ∧ l1 !! i = Some x1 ∧ l2 !! i = Some x2 ∧ l3 !! i = Some x3
          ∧ l4 !! i = Some x4 ∧ l5 !! i = Some x5 ∧ l6 !! i = Some x6
          ∧ l7 !! i = Some x7
          ∧ r = curve_row lrd g (x1, (x2, (x3, (x4, (x5, (x6, x7))))))
          ∧ cell curve_header r "metric" = g
          ∧ cell curve_header r "training_set_size" = x1
          ∧ cell curve_header r "train_score_mean" = x2
          ∧ cell curve_header r "test_score_mean" = x3
          ∧ cell curve_header r "fit_time_mean" = x4
          ∧ cell curve_header r "train_score_std" = x5
          ∧ cell curve_header r "test_score_std" = x6
          ∧ cell curve_header r "fit_time_std" = x7.
Proof.
  intros Hload Hpre H1 H2 H3 H4 H5 H6 H7 Hg Hn1 Hn2 Hn3 Hn4 Hn5 Hn6 Hn7.
  apply (Forall2_impl _ (λ r rows, curve_record_rows r = Ok rows)) in Hpre;
    [|by intros r rows Hr; apply curve_write_record_rows].
  pose proof (curve_record_rows_lists lrd g _ _ _ _ _ _ _ H1 H2 H3 H4 H5 H6 H7 Hg)
    as Hrows.
  set (rows := curve_row lrd g <$> zip7 l1 l2 l3 l4 l5 l6 l7) in *.
  rewrite (write_curve_unfold fs paths out _ Hload).
  rewrite (for_each_emit_all_prefix _ pre (lrd :: post) rss _ Hpre).
  rewrite for_each_emit_all_cons, Hrows.
  destruct (for_each_emit_all_grows curve_record_rows post
              (((out ++ [JStr <$> curve_header]) ++ concat rss) ++ rows))
    as [after Hafter].
  exists rows, after. split_and!.
  - rewrite Hafter, <- !app_assoc. done.
  - intros out'. rewrite curve_write_record_emit. unfold emit_all. by rewrite Hrows.
  - unfold rows. rewrite length_fmap, length_zip7. lia.
  - intros i Hi.
    destruct (lookup_lt_is_Some_2 l1 i) as [x1 Hx1]; [lia|].
    destruct (lookup_lt_is_Some_2 l2 i) as [x2 Hx2]; [lia|].
    destruct (lookup_lt_is_Some_2 l3 i) as [x3 Hx3]; [lia|].
    destruct (lookup_lt_is_Some_2 l4 i) as [x4 Hx4]; [lia|].
    destruct (lookup_lt_is_Some_2 l5 i) as [x5 Hx5]; [lia|].
    destruct (lookup_lt_is_Some_2 l6 i) as [x6 Hx6]; [lia|].
    destruct (lookup_lt_is_Some_2 l7 i) as [x7 Hx7]; [lia|].
    exists (curve_row lrd g (x1, (x2, (x3, (x4, (x5, (x6, x7))))))),
      x1, x2, x3, x4, x5, x6, x7.
    split.
    { unfold rows. rewrite list_lookup_fmap.
      by rewrite (proj2 (lookup_zip7 l1 l2 l3 l4 l5 l6 l7 i x1 x2 x3 x4 x5 x6 x7)). }
    repeat (split; [done|]). done.
Qed.

(** The example record with two sizes gets two rows; the second carries
    the second entries. *)
Lemma curve_record_one_row_per_size_witness :
  ∃ rows after,
    (_write_learning_curve_file curve_fs [ "curve.json" ] []).2
      = (JStr <$> curve_header) :: rows ++ after
    ∧ length rows = 2
    ∧ ∃ r, rows !! 1 = Some r
           ∧ cell curve_header r "metric" = JStr "accuracy"
           ∧ cell curve_header r "training_set_size" = JNum 20
           ∧ cell curve_header r "train_score_mean" = JNum (6 # 10).
Proof.
  destruct (curve_record_one_row_per_size curve_fs [ "curve.json" ] []
              [] [] [] (curve_record [5 # 10; 6 # 10]%Q) (JStr "accuracy")
              (JNum <$> [10; 20]%Q) (JNum <$> [5 # 10; 6 # 10]%Q)
              (JNum <$> [4 # 10; 5 # 10]%Q) (JNum <$> [1 # 10; 2 # 10]%Q)
              (JNum <$> [5 # 100; 5 # 100]%Q) (JNum <$> [5 # 100; 5 # 100]%Q)
              (JNum <$> [1 # 100; 1 # 100]%Q) 2)
    as (rows & after & Hfinal & _ & Hlen & Hrows);
    try (by constructor); try (reflexivity).
  exists rows, after. split_and!; [exact Hfinal|exact Hlen|].
  destruct (Hrows 1) as (r & x1 & x2 & x3 & x4 & x5 & x6 & x7 & Hr
                         & Hx1 & Hx2 & _ & _ & _ & _ & _ & _ & Hm & Hs & Ht & _);
    [lia|].
  injection Hx1 as <-. injection Hx2 as <-.
  exists r. split_and!; [exact Hr|exact Hm|exact Hs|exact Ht].
Defined.

(** ** Ragged learning-curve records *)

(** C6, as stated, fails: the record of [ragged.json] has two training-set
    sizes and one train-score mean; the call returns normally and writes a
    single row for it. *)
Lemma ragged_record_is_written_short :
  curve_record [5 # 10]%Q !! "computed_curve_train_sizes"
    = Some (JList [ JNum 10; JNum 20 ])
  ∧ curve_record [5 # 10]%Q !! "learning_curve_train_scores_means"
    = Some (JList [ JNum (5 # 10) ])
  ∧ _write_learning_curve_file curve_fs [ "ragged.json" ] []
    = (Ok (),
       [ JStr <$> curve_header;
         [ JStr "A"; JStr "SVC"; JStr "accuracy"; JStr ""; JNum 10;
           JNum (5 # 10); JNum (4 # 10); JNum (1 # 10); JNum (5 # 100);
           JNum (5 # 100); JNum (1 # 100); JStr ""; JStr "" ] ]).
Proof. split_and!; reflexivity. Qed.

(** C6 (amended): for a record whose seven fields are lists of any lengths,
    the loop body raises nothing: it writes as many rows as the shortest
    list has entries, row [i] carrying element [i] of each list, and
    silently ignores the entries of the longer lists beyond that. *)
Theorem ragged_record_truncates_to_shortest
    (lrd : record) (out : table) (g : json) (l1 l2 l3 l4 l5 l6 l7 : list json) :
  lrd !! "computed_curve_train_sizes" = Some (JList l1) →
  lrd !! "learning_curve_train_scores_means" = Some (JList l2) →
  lrd !! "learning_curve_test_scores_means" = Some (JList l3) →
  lrd !! "learning_curve_fit_times_means" = Some (JList l4) →
  lrd !! "learning_curve_train_scores_stds" = Some (JList l5) →
  lrd !! "learning_curve_test_scores_stds" = Some (JList l6) →
  lrd !! "learning_curve_fit_times_stds" = Some (JList l7) →
  lrd !! "grid_objective" = Some g →
  ∃ rows,
    curve_write_record lrd out = (Ok (), out ++ rows)
    ∧ length rows
      = length l1 `min` (length l2 `min` (length l3 `min` (length l4 `min`
          (length l5 `min` (length l6 `min` length l7)))))
    ∧ ∀ i r, rows !! i = Some r →
        ∃ x1 x2 x3 x4 x5 x6 x7,
          l1 !! i = Some x1 ∧ l2 !! i = Some x2 ∧ l3 !! i = Some x3
          ∧ l4 !! i = Some x4 ∧ l5 !! i = Some x5 ∧ l6 !! i = Some x6
          ∧ l7 !! i = Some x7
          ∧ r = curve_row lrd g (x1, (x2, (x3, (x4, (x5, (x6, x7)))))).
Proof.
  intros H1 H2 H3 H4 H5 H6 H7 Hg.
  exists (curve_row lrd g <$> zip7 l1 l2 l3 l4 l5 l6 l7). split_and!.
  - rewrite curve_write_record_emit. unfold emit_all.
    by rewrite (curve_record_rows_lists lrd g _ _ _ _ _ _ _ H1 H2 H3 H4 H5 H6 H7 Hg).
  - by rewrite length_fmap, length_zip7.
  - intros i r Hr. rewrite list_lookup_fmap in Hr.
    destruct (zip7 l1 l2 l3 l4 l5 l6 l7 !! i)
      as [(x1 & x2 & x3 & x4 & x5 & x6 & x7)|] eqn:Hz; [|done].
    injection Hr as <-. apply lookup_zip7 in Hz.
    destruct Hz as (? & ? & ? & ? & ? & ? & ?).
    exists x1, x2, x3, x4, x5, x6, x7. split_and!; done.
Qed.

(** The ragged variant of the example record gets one row. *)
Lemma ragged_record_truncates_to_shortest_witness :
  ∃ rows,
    curve_write_record (curve_record [5 # 10]%Q) [] = (Ok (), rows)
    ∧ length rows = 1.
Proof.
  destruct (ragged_record_truncates_to_shortest (curve_record [5 # 10]%Q) []
              (JStr "accuracy")
              (JNum <$> [10; 20]%Q) (JNum <$> [5 # 10]%Q)
              (JNum <$> [4 # 10; 5 # 10]%Q) (JNum <$> [1 # 10; 2 # 10]%Q)
              (JNum <$> [5 # 100; 5 # 100]%Q) (JNum <$> [5 # 100; 5 # 100]%Q)
              (JNum <$> [1 # 100; 1 # 100]%Q))
    as (rows & Hrun & Hlen & _);
    try (reflexivity).
  exists rows. split; [exact Hrun|exact Hlen].
Defined.

(** ** Column selection for the plots *)

Lemma filter_sublist {A} (P : A → Prop) `{∀ x, Decision (P x)} (l : list A) :
  filter P l `sublist_of` l.
Proof.
  induction l as [|x l IH]; [constructor|].
  rewrite filter_cons. destruct (decide (P x)); by constructor.
Qed.

(** C9, as stated, fails: [train_set_name] is a column of the wide table
    and is neither a fit-time, a score nor a version field, but both frames
    drop it. The table is the one written for the example record, with its
    two rows. *)
Lemma train_set_name_is_dropped :
  let df := demo_wide in
  length (data df) = 2
  ∧ "train_set_name" ∈ columns df
  ∧ ("train_set_name" ∉
       [ "fit_time_mean"; "fit_time_std"; "train_score_mean"; "train_score_std";
         "test_score_mean"; "test_score_std"; "scikit_learn_version"; "version" ])
  ∧ columns (df_score df)
    = [ "featureset_name"; "learner_name"; "metric"; "training_set_size";
        "train_score_mean"; "test_score_mean"; "train_score_std"; "test_score_std" ]
  ∧ columns (df_time df)
    = [ "featureset_name"; "learner_name"; "metric"; "training_set_size";
        "fit_time_mean"; "fit_time_std" ]
  ∧ length (data (df_score df)) = 2
  ∧ length (data (df_time df)) = 2.
Proof.
  split_and!.
  - reflexivity.
  - apply list_elem_of_lookup. by exists 3.
  - intros H. repeat (apply elem_of_cons in H as [H|H]; [discriminate|]).
    by inversion H.
  - reflexivity.
  - reflexivity.
  - reflexivity.
  - reflexivity.
Qed.

(** C9 (amended): the score frame has exactly the wide-table columns other
    than [train_set_name], the two fit-time fields and the two version
    fields; the time frame has exactly the wide-table columns other than
    [train_set_name], the four score fields and the two version fields;
    both keep the order of the wide table. *)
Theorem frames_drop_listed_columns (df : frame) :
  (∀ c, c ∈ columns (df_score df) ↔
        c ∈ columns df
        ∧ c ∉ [ "train_set_name"; "fit_time_mean"; "fit_time_std";
                "scikit_learn_version"; "version" ])
  ∧ (∀ c, c ∈ columns (df_time df) ↔
          c ∈ columns df
          ∧ c ∉ [ "train_set_name"; "train_score_mean"; "train_score_std";
                  "test_score_mean"; "test_score_std";
                  "scikit_learn_version"; "version" ])
  ∧ columns (df_score df) `sublist_of` columns df
  ∧ columns (df_time df) `sublist_of` columns df
  ∧ length (data (df_score df)) = length (data df)
  ∧ length (data (df_time df)) = length (data df).
Proof.
  unfold df_score, df_time, select, score_columns, time_columns. simpl.
  split_and!.
  - intros c. rewrite list_elem_of_filter. unfold score_excluded. tauto.
  - intros c. rewrite list_elem_of_filter. unfold time_excluded. tauto.
  - apply filter_sublist.
  - apply filter_sublist.
  - by rewrite length_fmap.
  - by rewrite length_fmap.
Qed.

(** ** Melting the score frame *)




Section Melt.

Variable df : frame.
Hypothesis columns_NoDup : NoDup (columns df).
Hypothesis has_train : "train_score_mean" ∈ columns df.
Hypothesis has_test : "test_score_mean" ∈ columns df.




End Melt.



(** ** Axis limits *)

Lemma Qltb_lt x y : Qltb x y = true ↔ (x < y)%Q.
Proof.
  unfold Qltb. rewrite negb_true_iff. split.
  - intros H. apply Qnot_le_lt. intros Hle.
    apply Qle_bool_iff in Hle. congruence.
  - intros H. destruct (Qle_bool y x) eqn:Hb; [|done].
    apply Qle_bool_iff in Hb. apply Qlt_not_le in H. done.
Qed.

Lemma Qltb_ge x y : Qltb x y = false ↔ (y <= x)%Q.
Proof.
  unfold Qltb. rewrite negb_false_iff. apply Qle_bool_iff.
Qed.

Lemma py_max_Qmax a b : (py_max a b == Qmax a b)%Q.
Proof.
  unfold py_max. destruct (Qltb a b) eqn:Hb.
  - apply Qltb_lt in Hb. symmetry. apply Q.max_r. by apply Qlt_le_weak.
  - apply Qltb_ge in Hb. symmetry. by apply Q.max_l.
Qed.

Lemma py_min_Qmin a b : (py_min a b == Qmin a b)%Q.
Proof.
  unfold py_min. destruct (Qltb b a) eqn:Hb.
  - apply Qltb_lt in Hb. symmetry. apply Q.min_r. by apply Qlt_le_weak.
  - apply Qltb_ge in Hb. symmetry. by apply Q.min_l.
Qed.

Lemma Qmin_cases x y : Qmin x y = x ∨ Qmin x y = y.
Proof.
  unfold Qmin, GenericMinMax.gmin. destruct (x ?= y)%Q; auto.
Qed.

Lemma Qmax_cases x y : Qmax x y = x ∨ Qmax x y = y.
Proof.
  unfold Qmax, GenericMinMax.gmax. destruct (x ?= y)%Q; auto.
Qed.

Lemma fold_Qmin_spec a x :
  fold_left Qmin a x ∈ x :: a
  ∧ ∀ y, y ∈ x :: a → (fold_left Qmin a x <= y)%Q.
Proof.
  revert x. induction a as [|z a IH]; intros x; simpl.
  - split; [left|]. intros y Hy. apply list_elem_of_singleton in Hy as ->.
    apply Qle_refl.
  - destruct (IH (Qmin x z)) as [Hin Hle]. split.
    + apply elem_of_cons in Hin as [Hin|Hin]; [|by do 2 right].
      rewrite Hin. destruct (Qmin_cases x z) as [-> | ->]; [left|right; left].
    + intros y Hy.
      assert (Hm : (fold_left Qmin a (Qmin x z) <= Qmin x z)%Q) by (apply Hle; left).
      apply elem_of_cons in Hy as [->|Hy].
      * eapply Qle_trans; [exact Hm|apply Q.le_min_l].
      * apply elem_of_cons in Hy as [->|Hy].
        -- eapply Qle_trans; [exact Hm|apply Q.le_min_r].
        -- apply Hle. by right.
Qed.

Lemma fold_Qmax_spec a x :
  fold_left Qmax a x ∈ x :: a
  ∧ ∀ y, y ∈ x :: a → (y <= fold_left Qmax a x)%Q.
Proof.
  revert x. induction a as [|z a IH]; intros x; simpl.
  - split; [left|]. intros y Hy. apply list_elem_of_singleton in Hy as ->.
    apply Qle_refl.
  - destruct (IH (Qmax x z)) as [Hin Hle]. split.
    + apply elem_of_cons in Hin as [Hin|Hin]; [|by do 2 right].
      rewrite Hin. destruct (Qmax_cases x z) as [-> | ->]; [left|right; left].
    + intros y Hy.
      assert (Hm : (Qmax x z <= fold_left Qmax a (Qmax x z))%Q) by (apply Hle; left).
      apply elem_of_cons in Hy as [->|Hy].
      * eapply Qle_trans; [apply Q.le_max_l|exact Hm].
      * apply elem_of_cons in Hy as [->|Hy].
        -- eapply Qle_trans; [apply Q.le_max_r|exact Hm].
        -- apply Hle. by right.
Qed.

Lemma np_min_spec a :
  a ≠ [] → ∃ m, np_min a = Ok m ∧ m ∈ a ∧ ∀ y, y ∈ a → (m <= y)%Q.
Proof.
  destruct a as [|x a]; [done|]. intros _. eexists. split; [done|].
  apply fold_Qmin_spec.
Qed.

Lemma np_max_spec a :
  a ≠ [] → ∃ m, np_max a = Ok m ∧ m ∈ a ∧ ∀ y, y ∈ a → (y <= m)%Q.
Proof.
  destruct a as [|x a]; [done|]. intros _. eexists. split; [done|].
  apply fold_Qmax_spec.
Qed.

Lemma band_elem (df : list observation) (m : string) (op : Q → Q → Q) x :
  x ∈ ((λ o, op (value o) (train_score_std o)) <$>
         filter (λ o, variable o = "train_score_mean" ∧ metric o = m) df)
      ++ ((λ o, op (value o) (test_score_std o)) <$>
         filter (λ o, variable o = "test_score_mean" ∧ metric o = m) df)
  ↔ ∃ o, o ∈ df ∧ plotted m o ∧ x = op (value o) (band_std o).
Proof.
  rewrite elem_of_app, !list_elem_of_fmap. unfold plotted, band_std. split.
  - intros [(o & -> & Ho)|(o & -> & Ho)];
      apply list_elem_of_filter in Ho as [[Hv Hm] Ho];
      exists o; rewrite Hv; simpl; split_and!; auto.
  - intros (o & Ho & (Hm & [Hv|Hv]) & ->); rewrite Hv; simpl.
    + left. exists o. split; [done|]. apply list_elem_of_filter. done.
    + right. exists o. split; [done|]. apply list_elem_of_filter. done.
Qed.

(** The limits of one metric that has an observation. *)
Lemma metric_ylimits_spec (df : list observation) (m : string) :
  (∃ o, o ∈ df ∧ plotted m o) →
  ∃ lower upper,
    metric_ylimits df m = Ok (lower, upper)
    ∧ clamped_limits df m lower upper
    ∧ (lower <= 0)%Q ∧ (0 <= upper)%Q.
Proof.
  intros (o0 & Ho0 & Hp0). unfold metric_ylimits.
  set (lowers := _ ++ _). set (uppers := _ ++ _).
  assert (Hlow : ∀ x, x ∈ lowers ↔
            ∃ o, o ∈ df ∧ plotted m o ∧ x = (value o - band_std o)%Q)
    by (intros x; apply (band_elem df m Qminus)).
  assert (Hupp : ∀ x, x ∈ uppers ↔
            ∃ o, o ∈ df ∧ plotted m o ∧ x = (value o + band_std o)%Q)
    by (intros x; apply (band_elem df m Qplus)).
  destruct (np_min_spec lowers) as (min_score & -> & Hmin_in & Hmin_le).
  { intros Hnil. assert (H : (value o0 - band_std o0)%Q ∈ lowers) by (apply Hlow; eauto).
    rewrite Hnil in H. by inversion H. }
  destruct (np_max_spec uppers) as (max_score & -> & Hmax_in & Hmax_le).
  { intros Hnil. assert (H : (value o0 + band_std o0)%Q ∈ uppers) by (apply Hupp; eauto).
    rewrite Hnil in H. by inversion H. }
  simpl. eexists _, _. split; [reflexivity|].
  split; [exists min_score, max_score; split_and!|split].
  - by apply Hlow.
  - intros o Ho Hp. apply Hmin_le, Hlow. eauto.
  - by apply Hupp.
  - intros o Ho Hp. apply Hmax_le, Hupp. eauto.
  - intros Hneg. apply Qltb_lt in Hneg. rewrite Hneg. apply py_max_Qmax.
  - intros Hnn. destruct (Qltb min_score 0) eqn:Hb; [|done].
    apply Qltb_lt in Hb. done.
  - intros Hpos. apply Qltb_lt in Hpos. rewrite Hpos. apply py_min_Qmin.
  - intros Hnp. destruct (Qltb 0 max_score) eqn:Hb; [|done].
    apply Qltb_lt in Hb. done.
  - destruct (Qltb min_score 0) eqn:Hb; [|apply Qle_refl].
    apply Qltb_lt in Hb. pose proof (Qfloor_le min_score) as Hfl.
    unfold py_max. destruct (Qltb _ _); lra.
  - destruct (Qltb 0 max_score) eqn:Hb; [|apply Qle_refl].
    apply Qltb_lt in Hb. pose proof (Qle_ceiling max_score) as Hce.
    unfold py_min. destruct (Qltb _ _); lra.
Qed.

Lemma ylimits_loop_spec (df : list observation) metrics acc :
  (∀ m, m ∈ metrics → ∃ o, o ∈ df ∧ plotted m o) →
  ∃ ylimits,
    ylimits_loop df metrics acc = Ok ylimits
    ∧ (∀ m, m ∈ metrics → ∃ limits,
         ylimits !! m = Some limits ∧ metric_ylimits df m = Ok limits)
    ∧ (∀ m, m ∉ metrics → ylimits !! m = acc !! m).
Proof.
  revert acc. induction metrics as [|m0 metrics IH]; intros acc Hobs; simpl.
  - exists acc. split_and!; [done| |done]. intros m Hm. by inversion Hm.
  - destruct (metric_ylimits_spec df m0) as (lower & upper & Hm0 & _).
    { apply Hobs. left. }
    rewrite Hm0. simpl.
    destruct (IH (<[m0 := (lower, upper)]> acc)) as (ylimits & Hrun & Hin & Hout).
    { intros m Hm. apply Hobs. by right. }
    exists ylimits. split_and!; [done| |].
    + intros m Hm. destruct (decide (m ∈ metrics)) as [Hm'|Hm']; [by apply Hin|].
      apply elem_of_cons in Hm as [->|Hm]; [|done].
      exists (lower, upper). split; [|done].
      rewrite (Hout m0 Hm'). apply lookup_insert_eq.
    + intros m Hm. apply not_elem_of_cons in Hm as [Hne Hm].
      rewrite (Hout m Hm). by apply lookup_insert_ne.
Qed.

(** C7: when every requested metric has at least one train or test
    observation, the function returns a mapping that gives each of them the
    clamped limits: lower is [max (min_score - 0.1) (floor min_score - 0.05)]
    when [min_score < 0] and 0 otherwise, upper is
    [min (max_score + 0.1) (ceil max_score + 0.05)] when [max_score > 0] and
    0 otherwise, with [min_score] the least value minus std and [max_score]
    the greatest value plus std of the metric's train and test
    observations. The lower limit is never positive (and the upper never
    negative), and only the requested metrics are keys. *)
Theorem ylimits_are_clamped (df : list observation) (metrics : list string) :
  (∀ m, m ∈ metrics → ∃ o, o ∈ df ∧ plotted m o) →
  ∃ ylimits,
    _compute_ylimits_for_featureset df metrics = Ok ylimits
    ∧ (∀ m, m ∈ metrics →
         ∃ lower upper,
           ylimits !! m = Some (lower, upper)
           ∧ clamped_limits df m lower upper
           ∧ (lower <= 0)%Q ∧ (0 <= upper)%Q)
    ∧ (∀ m, m ∉ metrics → ylimits !! m = None).
Proof.
  intros Hobs. unfold _compute_ylimits_for_featureset.
  destruct (ylimits_loop_spec df metrics ∅ Hobs) as (ylimits & Hrun & Hin & Hout).
  exists ylimits. split_and!; [done| |].
  - intros m Hm. destruct (Hin m Hm) as (limits & Hlook & Hlim).
    destruct (metric_ylimits_spec df m (Hobs m Hm))
      as (lower & upper & Hlim' & Hspec).
    rewrite Hlim in Hlim'. injection Hlim' as ->. eauto.
  - intros m Hm. rewrite (Hout m Hm). apply lookup_empty.
Qed.

(** The limits of the example observations: accuracy gets 0 and 0.65, the
    negated error gets -1.8 and 0. *)
Lemma ylimits_are_clamped_witness :
  ∃ ylimits,
    _compute_ylimits_for_featureset demo_observations [ "accuracy"; "neg_error" ]
      = Ok ylimits
    ∧ ylimits !! "accuracy" = Some (0, 6500 # 10000)%Q
    ∧ ylimits !! "neg_error" = Some (- (1800 # 1000), 0)%Q.
Proof.
  destruct (ylimits_are_clamped demo_observations [ "accuracy"; "neg_error" ])
    as (ylimits & Hrun & _).
  { intros m Hm. apply elem_of_cons in Hm as [->|Hm].
    - exists (Observation "train_score_mean" "accuracy" (5 # 10) (5 # 100) 0)%Q.
      split; [left|]. split; [done|by left].
    - apply list_elem_of_singleton in Hm as ->.
      exists (Observation "test_score_mean" "neg_error" (- (15 # 10)) 0 (2 # 10))%Q.
      split; [do 3 right; left|]. split; [done|by right]. }
  exists ylimits. split; [exact Hrun|].
  assert (Hval : _compute_ylimits_for_featureset demo_observations
                   [ "accuracy"; "neg_error" ]
                 = Ok (<["neg_error" := (- (1800 # 1000), 0)%Q]>
                         (<["accuracy" := (0, 6500 # 10000)%Q]> ∅))) by reflexivity.
  rewrite Hval in Hrun. injection Hrun as <-.
  split; reflexivity.
Defined.

(** * Further properties of the aggregators *)

(** ** Complete runs of the summary without ablation *)

Lemma summary_load_no_ablation
    (yaml_load : json → res (list string)) (fs : filesystem) paths st :
  Forall (λ p, ∃ obj0 rest, fs !! p = Some (Document (obj0 :: rest))
                            ∧ is_Some (obj0 !! "featureset_name")) paths →
  summary_load yaml_load fs 0 paths st = Ok (st.1 ++ documents fs paths, st.2).
Proof.
  intros Hall. revert st. induction Hall as [|p paths Hp _ IH]; intros st; simpl.
  - destruct st. simpl. by rewrite app_nil_r.
  - destruct Hp as (obj0 & rest & Hp & [v Hv]). rewrite Hp.
    unfold summary_load_file, getitem. simpl. rewrite Hv. simpl.
    rewrite IH. simpl. by rewrite <- app_assoc.
Qed.

(** The first record of an existing, non-empty file is one of the loaded
    records. *)
Lemma first_record_in_documents (fs : filesystem) paths p obj0 rest :
  p ∈ paths → fs !! p = Some (Document (obj0 :: rest)) →
  obj0 ∈ documents fs paths.
Proof.
  intros Hin Hp. unfold documents. apply list_elem_of_bind.
  exists p. rewrite Hp. split; [left|done].
Qed.

Lemma summary_record_row_no_ablation
    (yaml_load : json → res (list string)) (json_dumps : list string → string)
    all_features header (lrd : record) :
  summary_record_row yaml_load json_dumps 0 all_features header lrd
  = match lrd !! "featureset_name" with
    | Some _ => Ok (dict_row header lrd)
    | None => Raise (KeyError "featureset_name")
    end.
Proof.
  unfold summary_record_row, getitem. by destruct (lrd !! "featureset_name").
Qed.

(** A loop of [emit] over records that all give a row, then one that
    raises: the rows of the first are written, then the loop stops. *)
Lemma for_each_emit_rows {A} (f : A → res row) (g : A → row) l out :
  Forall (λ x, f x = Ok (g x)) l →
  for_each (emit f) l out = (Ok (), out ++ (g <$> l)).
Proof.
  intros Hall. revert out. induction Hall as [|x l Hx _ IH]; intros out.
  - simpl. by rewrite app_nil_r.
  - rewrite for_each_emit_cons, Hx, IH, <- app_assoc. done.
Qed.

Lemma for_each_emit_raise {A} (f : A → res row) (g : A → row) pre x post e out :
  Forall (λ x, f x = Ok (g x)) pre → f x = Raise e →
  for_each (emit f) (pre ++ x :: post) out = (Raise e, out ++ (g <$> pre)).
Proof.
  intros Hall Hx. revert out. induction Hall as [|y pre Hy _ IH]; intros out.
  - simpl app. rewrite for_each_emit_cons, Hx. simpl. by rewrite app_nil_r.
  - rewrite <- app_comm_cons, for_each_emit_cons, Hy, IH, <- app_assoc. done.
Qed.

(** X1: with ablation disabled, when every path names a non-empty array and
    every loaded record has a [featureset_name], the call returns normally
    and the file gets the header followed by one row per loaded record, in
    input order, each row showing the record's own fields under the header;
    the [featureset] field is never decoded. *)
Theorem summary_without_ablation_writes_every_record
    (yaml_load : json → res (list string)) (json_dumps : list string → string)
    (fs : filesystem) (paths : list string) (out : table) :
  paths ≠ [] →
  Forall (λ p, ∃ obj0 rest, fs !! p = Some (Document (obj0 :: rest))) paths →
  Forall (λ lrd, is_Some (lrd !! "featureset_name")) (documents fs paths) →
  ∃ header,
    summary_header 0 (documents fs paths) = Ok header
    ∧ _write_summary_file yaml_load json_dumps fs paths 0 out
      = (Ok (), out ++ (JStr <$> header) :: (dict_row header <$> documents fs paths)).
Proof.
  intros Hne Hfiles Hkeys.
  assert (Hload : summary_load yaml_load fs 0 paths ([], ∅)
                  = Ok (documents fs paths, ∅)).
  { rewrite summary_load_no_ablation; [done|].
    apply Forall_forall. intros p Hp.
    destruct (proj1 (Forall_forall _ _) Hfiles p Hp) as (obj0 & rest & Hfs).
    exists obj0, rest. split; [done|].
    apply (proj1 (Forall_forall _ _) Hkeys).
    by eapply first_record_in_documents. }
  rewrite (write_summary_unfold yaml_load json_dumps fs paths 0 out _ _ Hload).
  destruct (summary_header 0 (documents fs paths)) as [header| |] eqn:Hh.
  - exists header. split; [done|].
    rewrite (for_each_emit_rows _ (dict_row header)), <- app_assoc; [done|].
    eapply Forall_impl; [exact Hkeys|]. intros lrd [v Hv].
    by rewrite summary_record_row_no_ablation, Hv.
  - unfold summary_header in Hh. by destruct (documents fs paths).
  - exfalso. unfold summary_header in Hh.
    destruct paths as [|p paths]; [done|].
    apply Forall_cons in Hfiles as [(obj0 & rest & Hp) _].
    unfold documents in Hh. simpl in Hh. by rewrite Hp in Hh.
Qed.

(** The run over [mixed.json] with ablation off: both records are written,
    under the header of the first. *)
Lemma summary_without_ablation_writes_every_record_witness :
  ∃ header,
    _write_summary_file yaml_flow_list json_dumps_names mixed_fs [ "mixed.json" ] 0 []
    = (Ok (), (JStr <$> header) :: (dict_row header <$> documents mixed_fs [ "mixed.json" ])).
Proof.
  destruct (summary_without_ablation_writes_every_record yaml_flow_list
              json_dumps_names mixed_fs [ "mixed.json" ] [])
    as (header & _ & Hrun).
  - discriminate.
  - repeat constructor. eexists _, _. reflexivity.
  - repeat constructor; eexists; reflexivity.
  - exists header. exact Hrun.
Defined.

(** X2: with ablation disabled, a loaded record without [featureset_name]
    that is not the first of its file makes the call raise [KeyError] in
    the writing loop, after the header and the rows of the records before
    it were written: the file is left truncated. *)
Theorem summary_truncated_by_record_without_name
    (yaml_load : json → res (list string)) (json_dumps : list string → string)
    (fs : filesystem) (paths : list string) (out : table)
    (pre post : list record) (bad : record) :
  Forall (λ p, ∃ obj0 rest, fs !! p = Some (Document (obj0 :: rest))
                            ∧ is_Some (obj0 !! "featureset_name")) paths →
  documents fs paths = pre ++ bad :: post →
  Forall (λ lrd, is_Some (lrd !! "featureset_name")) pre →
  bad !! "featureset_name" = None →
  ∃ header,
    summary_header 0 (documents fs paths) = Ok header
    ∧ _write_summary_file yaml_load json_dumps fs paths 0 out
      = (Raise (KeyError "featureset_name"),
         out ++ (JStr <$> header) :: (dict_row header <$> pre)).
Proof.
  intros Hfiles Hdocs Hpre Hbad.
  assert (Hload : summary_load yaml_load fs 0 paths ([], ∅)
                  = Ok (documents fs paths, ∅))
    by (by rewrite summary_load_no_ablation).
  rewrite (write_summary_unfold yaml_load json_dumps fs paths 0 out _ _ Hload).
  rewrite Hdocs.
  destruct (summary_header 0 (pre ++ bad :: post)) as [header| |] eqn:Hh.
  - exists header. split; [done|].
    rewrite (for_each_emit_raise _ (dict_row header) pre bad post
               (KeyError "featureset_name")), <- app_assoc; [done| |].
    + eapply Forall_impl; [exact Hpre|]. intros lrd [v Hv].
      by rewrite summary_record_row_no_ablation, Hv.
    + by rewrite summary_record_row_no_ablation, Hbad.
  - unfold summary_header in Hh. by destruct (pre ++ bad :: post).
  - unfold summary_header in Hh. by destruct pre.
Qed.

Lemma summary_truncated_by_record_without_name_witness :
  _write_summary_file yaml_flow_list json_dumps_names nameless_fs [ "folds.json" ] 0 []
  = (Raise (KeyError "featureset_name"),
     [ [ JStr "featureset"; JStr "featureset_name" ]; [ JStr "[f1]"; JStr "A" ] ]).
Proof.
  destruct (summary_truncated_by_record_without_name yaml_flow_list
              json_dumps_names nameless_fs [ "folds.json" ] []
              [ demo_record "A" "[f1]" ] [] {[ "featureset" := JStr "[f1]" ]})
    as (header & Hh & Hrun).
  - repeat constructor. eexists _, _. split; [reflexivity|]. eexists. reflexivity.
  - reflexivity.
  - repeat constructor. eexists. reflexivity.
  - reflexivity.
  - rewrite Hrun. assert (header = [ "featureset"; "featureset_name" ]) as ->.
    { assert (H : summary_header 0 (documents nameless_fs [ "folds.json" ])
                  = Ok [ "featureset"; "featureset_name" ]) by reflexivity.
      rewrite H in Hh. by injection Hh. }
    reflexivity.
Defined.

(** ** Complete and truncated learning-curve runs *)

Lemma curve_load_documents (fs : filesystem) paths acc :
  Forall (λ p, ∃ obj, fs !! p = Some (Document obj)) paths →
  curve_load fs paths acc = Ok (acc ++ documents fs paths).
Proof.
  intros Hall. revert acc. induction Hall as [|p paths [obj Hp] _ IH]; intros acc; simpl.
  - by rewrite app_nil_r.
  - rewrite Hp. simpl. by rewrite IH, <- app_assoc.
Qed.

Lemma for_each_emit_all_raise {A} (f : A → res (list row)) pre x post rss e out :
  Forall2 (λ y rows, f y = Ok rows) pre rss → f x = Raise e →
  for_each (emit_all f) (pre ++ x :: post) out = (Raise e, out ++ concat rss).
Proof.
  intros Hpre Hx. rewrite (for_each_emit_all_prefix f pre (x :: post) rss out Hpre).
  by rewrite for_each_emit_all_cons, Hx.
Qed.

(** X4: when every path names a JSON array and the loop body writes the
    rows [rss !! i] for the [i]-th loaded record, the call returns normally
    and the file gets the fixed header followed by the rows of all records,
    in input order. *)
Theorem curve_file_is_header_and_all_rows
    (fs : filesystem) (paths : list string) (out : table) (rss : list (list row)) :
  Forall (λ p, ∃ obj, fs !! p = Some (Document obj)) paths →
  Forall2 (λ lrd rows, ∀ out', curve_write_record lrd out' = (Ok (), out' ++ rows))
          (documents fs paths) rss →
  _write_learning_curve_file fs paths out
  = (Ok (), out ++ (JStr <$> curve_header) :: concat rss).
Proof.
  intros Hfiles Hrows.
  rewrite (write_curve_unfold fs paths out (documents fs paths))
    by (by rewrite curve_load_documents).
  apply (Forall2_impl _ (λ r rows, curve_record_rows r = Ok rows)) in Hrows;
    [|by intros r rows Hr; apply curve_write_record_rows].
  rewrite <- (app_nil_r (documents fs paths)).
  rewrite (for_each_emit_all_prefix _ _ [] rss _ Hrows). simpl.
  by rewrite <- app_assoc.
Qed.

(** The complete and the ragged example record in one run: two rows, then
    one. *)
Lemma curve_file_is_header_and_all_rows_witness :
  ∃ rows1 rows2,
    _write_learning_curve_file curve_fs [ "curve.json"; "ragged.json" ] []
    = (Ok (), (JStr <$> curve_header) :: rows1 ++ rows2)
    ∧ length rows1 = 2 ∧ length rows2 = 1.
Proof.
  assert (full_rows : ∃ rows,
            curve_record_rows (curve_record [5 # 10; 6 # 10]%Q) = Ok rows
            ∧ length rows = 2)
    by (eexists; split; reflexivity).
  assert (ragged_rows : ∃ rows,
            curve_record_rows (curve_record [5 # 10]%Q) = Ok rows
            ∧ length rows = 1)
    by (eexists; split; reflexivity).
  destruct full_rows as (rows1 & full_rows & Hlen1).
  destruct ragged_rows as (rows2 & ragged_rows & Hlen2).
  exists rows1, rows2. split_and!; [ | done | done ].
  rewrite (curve_file_is_header_and_all_rows curve_fs
             [ "curve.json"; "ragged.json" ] [] [ rows1; rows2 ]).
  - simpl. by rewrite app_nil_r.
  - repeat constructor; eexists; reflexivity.
  - change (documents curve_fs [ "curve.json"; "ragged.json" ])
      with [ curve_record [5 # 10; 6 # 10]%Q; curve_record [5 # 10]%Q ].
    constructor; [ | constructor; [ | constructor ] ];
      intros out'; rewrite curve_write_record_emit; unfold emit_all.
    + by rewrite full_rows.
    + by rewrite ragged_rows.
Defined.

Lemma curve_record_rows_missing_key (lrd : record) :
  (∃ k, k ∈ curve_required ∧ lrd !! k = None) →
  ∃ k, k ∈ curve_required ∧ lrd !! k = None
       ∧ curve_record_rows lrd = Raise (KeyError k).
Proof.
  intros (k0 & Hk0 & Hnone). unfold curve_record_rows, getitem, curve_required in *.
  repeat (match goal with
          | |- context [lrd !! ?k] =>
              lazymatch k with
              | k0 => fail
              | _ => destruct (lrd !! k) eqn:?; simpl;
                     [|exists k; split_and!; [repeat constructor|done|done]]
              end
          end).
  exfalso. repeat (apply elem_of_cons in Hk0 as [->|Hk0]; [congruence|]).
  by inversion Hk0.
Qed.

(** X5: when every path names a JSON array and some loaded record lacks one
    of the eight keys the flattening reads, the call raises [KeyError] for a
    key that the record lacks, after the header and the rows of the records
    before it were written; the header is written even when the first
    record is the faulty one. *)
Theorem curve_file_truncated_by_missing_key
    (fs : filesystem) (paths : list string) (out : table)
    (pre post : list record) (bad : record) (rss : list (list row)) :
  Forall (λ p, ∃ obj, fs !! p = Some (Document obj)) paths →
  documents fs paths = pre ++ bad :: post →
  Forall2 (λ lrd rows, ∀ out', curve_write_record lrd out' = (Ok (), out' ++ rows))
          pre rss →
  (∃ k, k ∈ curve_required ∧ bad !! k = None) →
  ∃ k, k ∈ curve_required ∧ bad !! k = None
       ∧ _write_learning_curve_file fs paths out
         = (Raise (KeyError k), out ++ (JStr <$> curve_header) :: concat rss).
Proof.
  intros Hfiles Hdocs Hpre Hbad.
  destruct (curve_record_rows_missing_key bad Hbad) as (k & Hk & Hnone & Hraise).
  exists k. split_and!; [done..|].
  rewrite (write_curve_unfold fs paths out (documents fs paths))
    by (by rewrite curve_load_documents).
  apply (Forall2_impl _ (λ r rows, curve_record_rows r = Ok rows)) in Hpre;
    [|by intros r rows Hr; apply curve_write_record_rows].
  rewrite Hdocs, (for_each_emit_all_raise _ pre bad post rss _ _ Hpre Hraise).
  by rewrite <- app_assoc.
Qed.

Lemma curve_file_truncated_by_missing_key_witness :
  _write_learning_curve_file no_objective_fs [ "curve.json" ] []
  = (Raise (KeyError "grid_objective"), [ JStr <$> curve_header ]).
Proof.
  destruct (curve_file_truncated_by_missing_key no_objective_fs [ "curve.json" ] []
              [] [] (delete "grid_objective" (curve_record [5 # 10; 6 # 10]%Q)) [])
    as (k & Hk & Hnone & Hrun).
  - repeat constructor. eexists. reflexivity.
  - reflexivity.
  - constructor.
  - exists "grid_objective". split; [|reflexivity].
    unfold curve_required. repeat constructor.
  - rewrite Hrun. unfold curve_required in Hk.
    repeat (apply elem_of_cons in Hk as [->|Hk];
            [first [ reflexivity
                   | exfalso; apply eq_None_not_Some in Hnone; apply Hnone;
                     eexists; reflexivity ]|]).
    by inversion Hk.
Defined.

(** X6: when every path names an empty array, in particular for the empty
    path list, the learning-curve call returns normally and writes exactly
    the header; unlike the summary it does not require a record. *)
Theorem curve_file_without_records_is_header_only
    (fs : filesystem) (paths : list string) (out : table) :
  Forall (λ p, fs !! p = Some (Document [])) paths →
  _write_learning_curve_file fs paths out = (Ok (), out ++ [ JStr <$> curve_header ]).
Proof.
  intros Hfiles.
  assert (Hdocs : documents fs paths = []).
  { induction Hfiles as [|p paths Hp _ IH]; [done|].
    change (documents fs (p :: paths))
      with (match fs !! p with Some (Document obj) => obj | _ => [] end
            ++ documents fs paths).
    by rewrite Hp, IH. }
  assert (Hload : curve_load fs paths [] = Ok []).
  { rewrite curve_load_documents, Hdocs; [done|].
    eapply Forall_impl; [exact Hfiles|]. simpl. eauto. }
  by rewrite (write_curve_unfold fs paths out [] Hload).
Qed.

Lemma curve_file_without_records_is_header_only_witness :
  _write_learning_curve_file ∅ [] [] = (Ok (), [ JStr <$> curve_header ]).
Proof. apply (curve_file_without_records_is_header_only ∅ [] []). constructor. Defined.

(** ** What loading accumulates, continued *)

(** X7: loading never forgets: if the loop completes on a list of paths, it
    completes on every initial part of it, and going on with the rest only
    appends the records of the remaining files and only adds features to
    the sets accumulated for each parent. *)
Theorem loading_only_adds
    (yaml_load : json → res (list string)) (fs : filesystem) (ablation : Z)
    (pre post : list string) (final : list record * gmap string (gset string)) :
  summary_load yaml_load fs ablation (pre ++ post) ([], ∅) = Ok final →
  ∃ mid,
    summary_load yaml_load fs ablation pre ([], ∅) = Ok mid
    ∧ mid.1 = documents fs pre
    ∧ final.1 = mid.1 ++ documents fs post
    ∧ ∀ parent, features_of mid.2 parent ⊆ features_of final.2 parent.
Proof.
  rewrite summary_load_app. intros Hfinal.
  destruct (summary_load yaml_load fs ablation pre ([], ∅)) as [mid| |] eqn:Hmid;
    [|done..].
  simpl in Hfinal. exists mid. destruct final as [lrds all_features].
  destruct mid as [lrds0 all0].
  destruct (summary_load_ok yaml_load fs ablation pre ([], ∅) lrds0 all0 Hmid)
    as (Hmid1 & _).
  destruct (summary_load_ok yaml_load fs ablation post (lrds0, all0) lrds
              all_features Hfinal) as (Hlrds & _ & Hz & Hfeat).
  split_and!; try done.
  intros parent x Hx. simpl in *.
  destruct (decide (ablation = 0%Z)) as [Habl|Habl].
  - by rewrite (Hz Habl).
  - apply (Hfeat Habl). by left.
Qed.

Lemma loading_only_adds_witness :
  ∃ mid final,
    summary_load yaml_flow_list demo_fs 1 [ "a.json"; "b.json" ] ([], ∅) = Ok final
    ∧ summary_load yaml_flow_list demo_fs 1 [ "a.json" ] ([], ∅) = Ok mid
    ∧ features_of mid.2 "A" ⊆ features_of final.2 "A".
Proof.
  destruct (loading_only_adds yaml_flow_list demo_fs 1 [ "a.json" ] [ "b.json" ]
              ([ demo_record "A_minus_f1" "[f2, f3]"; demo_record "A_minus_f2" "[f1, f3]" ],
               demo_features) eq_refl)
    as (mid & Hmid & _ & _ & Hsub).
  eexists mid, _. split_and!; [reflexivity|exact Hmid|exact (Hsub "A")].
Defined.

(** X8: in an ablation run in which no file's first record has the marker
    in its featureset name, nothing is accumulated, and every row written
    has the empty string under [ablated_features]. *)
Theorem ablation_without_children_leaves_cells_empty
    (yaml_load : json → res (list string)) (json_dumps : list string → string)
    (fs : filesystem) (paths : list string) (ablation : Z) (out : table)
    (lrds : list record) (all_features : gmap string (gset string)) :
  ablation ≠ 0%Z →
  summary_load yaml_load fs ablation paths ([], ∅) = Ok (lrds, all_features) →
  (∀ p obj0 rest name,
     p ∈ paths → fs !! p = Some (Document (obj0 :: rest)) →
     obj0 !! "featureset_name" = Some (JStr name) →
     str_contains "_minus_" name = false) →
  let final := (_write_summary_file yaml_load json_dumps fs paths ablation out).2 in
  (∀ parent, features_of all_features parent = ∅)
  ∧ ∀ i r, final !! (length out + 1 + i) = Some r →
      ∃ header,
        final !! length out = Some (JStr <$> header)
        ∧ cell header r "ablated_features" = JStr "".
Proof.
  intros Habl Hload Hplain final.
  assert (Hempty : ∀ parent, features_of all_features parent = ∅).
  { intros parent. apply set_eq. intros x. split; [|by intros ?%not_elem_of_empty].
    intros Hx.
    destruct (summary_load_ok yaml_load fs ablation paths ([], ∅) lrds
                all_features Hload) as (_ & _ & _ & Hfeat).
    apply (Hfeat Habl) in Hx as [Hx|(p & f & Hin & Hp & Hfr)].
    - simpl in Hx. unfold features_of in Hx. rewrite lookup_empty in Hx.
      by apply not_elem_of_empty in Hx.
    - destruct Hfr as (obj0 & rest & name & fv & ft & -> & Hn & Hc & _).
      rewrite (Hplain p obj0 rest name Hin Hp Hn) in Hc. discriminate. }
  split; [done|]. intros i r Hr.
  pose proof (write_summary_rows yaml_load json_dumps fs paths ablation out
                lrds all_features Hload) as Hrows.
  simpl in Hrows. fold final in Hrows.
  destruct (summary_header ablation lrds) as [header| |] eqn:Hh.
  - destruct Hrows as (rows & Hfinal & Hrows & _).
    assert (Hin : "ablated_features" ∈ header).
    { unfold summary_header in Hh. destruct lrds as [|lrd0 ?]; [done|].
      simpl in Hh. destruct (decide (ablation ≠ 0%Z)); [|done].
      injection Hh as <-. apply sorted_spec.
      apply elem_of_union. right. by apply elem_of_singleton. }
    exists header. rewrite Hfinal in Hr |- *. split.
    + rewrite lookup_app_r by lia.
      by replace (length out - length out) with 0 by lia.
    + rewrite lookup_app_r in Hr by lia.
      replace (length out + 1 + i - length out) with (S i) in Hr by lia.
      simpl in Hr. destruct (Hrows i r Hr) as (lrd & _ & Hrow).
      destruct (summary_record_row_ablation yaml_load json_dumps ablation
                  all_features header lrd r Habl Hrow)
        as (name & featureset & features & _ & _ & _ & ->).
      rewrite cell_dict_row by done. rewrite set_ablated_lookup.
      unfold ablated_of. rewrite Hempty.
      destruct (decide (∅ ∖ list_to_set features = (∅ : gset string))) as [|Hne];
        [done|]. destruct Hne. apply set_eq. intros x.
      rewrite elem_of_difference. split; [tauto|]. by intros ?%not_elem_of_empty.
  - destruct Hrows as [Hfinal _]. rewrite Hfinal in Hr.
    apply lookup_lt_Some in Hr. lia.
  - destruct Hrows as [Hfinal _]. rewrite Hfinal in Hr.
    apply lookup_lt_Some in Hr. lia.
Qed.

Lemma ablation_without_children_leaves_cells_empty_witness :
  let final := (_write_summary_file yaml_flow_list json_dumps_names plain_fs
                  [ "a.json"; "b.json" ] 1 []).2 in
  ∃ header r,
    final !! 0 = Some (JStr <$> header) ∧ final !! 2 = Some r
    ∧ cell header r "ablated_features" = JStr "".
Proof.
  intros final.
  destruct (ablation_without_children_leaves_cells_empty yaml_flow_list
              json_dumps_names plain_fs [ "a.json"; "b.json" ] 1 []
              [ demo_record "A" "[f1, f2]"; demo_record "B" "[f3]" ] ∅)
    as (_ & Hcells).
  - discriminate.
  - reflexivity.
  - intros p obj0 rest name Hin Hp Hn.
    repeat (apply elem_of_cons in Hin as [->|Hin];
            [injection Hp as <- <-; injection Hn as <-; reflexivity|]).
    by inversion Hin.
  - destruct (final !! 2) as [r|] eqn:Hr; [|discriminate Hr].
    destruct (Hcells 1 r Hr) as (header & Hh & Hcell).
    exists header, r. split_and!; [exact Hh|reflexivity|exact Hcell].
Defined.

(** X9: in an ablation run, the decoded features of a marked first record
    are all among the features accumulated for its parent; so for the rows
    of such records the own features and the ablated features split the
    accumulated set in two disjoint parts. *)
Theorem first_record_features_split_accumulated
    (yaml_load : json → res (list string)) (fs : filesystem)
    (paths : list string) (ablation : Z)
    (lrds : list record) (all_features : gmap string (gset string))
    (p : string) (obj0 : record) (rest : list record)
    (name : string) (featureset : json) (features : list string) :
  ablation ≠ 0%Z →
  summary_load yaml_load fs ablation paths ([], ∅) = Ok (lrds, all_features) →
  p ∈ paths →
  fs !! p = Some (Document (obj0 :: rest)) →
  obj0 !! "featureset_name" = Some (JStr name) →
  str_contains "_minus_" name = true →
  obj0 !! "featureset" = Some featureset →
  yaml_load featureset = Ok features →
  let parent := split_first "_minus_" name in
  let ablated := ablated_of all_features parent features in
  (∀ x, x ∈ features → x ∈ features_of all_features parent)
  ∧ ablated ∪ list_to_set features = features_of all_features parent
  ∧ ablated ∩ list_to_set features = ∅.
Proof.
  intros Habl Hload Hin Hp Hname Hmark Hfs Hy parent ablated.
  destruct (summary_load_ok yaml_load fs ablation paths ([], ∅) lrds
              all_features Hload) as (_ & _ & _ & Hfeat).
  assert (Hsub : ∀ x, x ∈ features → x ∈ features_of all_features parent).
  { intros x Hx. apply (Hfeat Habl). right.
    exists p, (Document (obj0 :: rest)). split_and!; [done..|].
    by exists obj0, rest, name, featureset, features. }
  split_and!; [done| |].
  - apply set_eq. intros x. unfold ablated, ablated_of.
    rewrite elem_of_union, elem_of_difference, elem_of_list_to_set.
    destruct (decide (x ∈ features)) as [Hx|Hx]; [|tauto].
    split; [|tauto]. intros _. by apply Hsub.
  - apply set_eq. intros x. unfold ablated, ablated_of.
    rewrite elem_of_intersection, elem_of_difference, elem_of_list_to_set.
    split; [tauto|]. by intros ?%not_elem_of_empty.
Qed.

Lemma first_record_features_split_accumulated_witness :
  ablated_of demo_features "A" [ "f2"; "f3" ] ∪ list_to_set [ "f2"; "f3" ]
  = features_of demo_features "A".
Proof.
  assert (Hin : "a.json" ∈ [ "a.json"; "b.json" ]) by left.
  assert (Habl : 1%Z ≠ 0%Z) by discriminate.
  exact (proj1 (proj2 (first_record_features_split_accumulated yaml_flow_list
    demo_fs [ "a.json"; "b.json" ] 1
    [ demo_record "A_minus_f1" "[f2, f3]"; demo_record "A_minus_f2" "[f1, f3]" ]
    demo_features "a.json" (demo_record "A_minus_f1" "[f2, f3]") []
    "A_minus_f1" (JStr "[f2, f3]") [ "f2"; "f3" ]
    Habl eq_refl Hin eq_refl eq_refl eq_refl eq_refl eq_refl))).
Defined.

(** ** The parent of a featureset name *)

Lemma prefix_app (sep s : string) :
  String.prefix sep s = true ↔ ∃ rest, s = sep +:+ rest.
Proof.
  revert s. induction sep as [|a sep IH]; intros s; simpl.
  - destruct s; split; eauto.
  - destruct s as [|b s]; simpl.
    + split; [done|]. by intros [rest Hrest].
    + destruct (Ascii.ascii_dec a b) as [->|Hne].
      * rewrite IH. split; intros [rest Hrest]; exists rest.
        -- simpl. by rewrite Hrest.
        -- simpl in Hrest. by injection Hrest.
      * split; [done|]. intros [rest Hrest]. simpl in Hrest.
        injection Hrest as Hab _. by destruct Hne.
Qed.

Lemma str_contains_nil sep : str_contains sep "" = String.prefix sep "".
Proof. by destruct sep. Qed.

Lemma str_contains_cons sep c s :
  str_contains sep (String c s)
  = String.prefix sep (String c s) || str_contains sep s.
Proof. reflexivity. Qed.

Lemma split_first_nil sep : split_first sep "" = "".
Proof. by destruct sep. Qed.

Lemma split_first_cons sep c s :
  split_first sep (String c s)
  = if String.prefix sep (String c s) then "" else String c (split_first sep s).
Proof. reflexivity. Qed.

Lemma str_contains_app (sep s : string) :
  str_contains sep s = true ↔ ∃ a b, s = a +:+ sep +:+ b.
Proof.
  induction s as [|c s IH].
  - rewrite str_contains_nil, prefix_app. split.
    + intros [rest Hrest]. by exists "", rest.
    + intros (a & b & Hab). destruct a; [by exists b|done].
  - rewrite str_contains_cons, orb_true_iff, prefix_app, IH. split.
    + intros [[rest Hrest]|(a & b & ->)].
      * by exists "", rest.
      * by exists (String c a), b.
    + intros (a & b & Hab). destruct a as [|c' a]; simpl in Hab.
      * left. by exists b.
      * right. exists a, b. by injection Hab.
Qed.

(** X10: the parent that both passes compute for a featureset name is the
    text before the first occurrence of the marker: a name without the
    marker is its own parent, a name with the marker is its parent followed
    by the marker and the rest, and no occurrence of the marker starts
    earlier. *)
Theorem parent_is_text_before_first_marker (sep s : string) :
  (str_contains sep s = false → split_first sep s = s)
  ∧ (str_contains sep s = true → ∃ rest, s = split_first sep s +:+ sep +:+ rest)
  ∧ (∀ a b, s = a +:+ sep +:+ b →
       String.length (split_first sep s) ≤ String.length a).
Proof.
  induction s as [|c s (IH1 & IH2 & IH3)].
  - rewrite split_first_nil. split_and!.
    + done.
    + intros Hc. apply str_contains_app in Hc as (a & b & Hab).
      destruct a; [|done]. simpl in Hab.
      destruct sep; [|done]. by exists "".
    + intros a b Hab. simpl. lia.
  - rewrite split_first_cons, str_contains_cons.
    destruct (String.prefix sep (String c s)) eqn:Hp; simpl orb.
    + split_and!; [done| |simpl; lia].
      intros _. apply prefix_app in Hp as [rest Hrest]. by exists rest.
    + split_and!.
      * intros Hc. by rewrite (IH1 Hc).
      * intros Hc. destruct (IH2 Hc) as [rest Hrest].
        exists rest.
        change (String c s = String c (split_first sep s +:+ sep +:+ rest)).
        by rewrite <- Hrest.
      * intros a b Hab. destruct a as [|c' a]; simpl in Hab.
        -- assert (String.prefix sep (String c s) = true)
             by (apply prefix_app; by exists b).
           congruence.
        -- injection Hab as _ Hs. simpl. apply le_n_S. by apply (IH3 a b).
Qed.

(** ** Axis limits, continued *)

Lemma metric_ylimits_no_observation (df : list observation) (m : string) :
  (∀ o, o ∈ df → ¬ plotted m o) → metric_ylimits df m = Raise ValueError.
Proof.
  intros Hnone. unfold metric_ylimits.
  assert (Hempty : ∀ var, (var = "train_score_mean" ∨ var = "test_score_mean") →
            filter (λ o, variable o = var ∧ metric o = m) df = []).
  { intros var Hvar. destruct (filter _ df) as [|o l] eqn:Hf; [done|].
    assert (Ho : o ∈ filter (λ o, variable o = var ∧ metric o = m) df)
      by (rewrite Hf; left).
    apply list_elem_of_filter in Ho as [[Hv Hm] Ho].
    destruct (Hnone o Ho). split; [done|]. by destruct Hvar as [-> | ->]; [left|right]. }
  rewrite !Hempty by auto. reflexivity.
Qed.

(** A metric either has a plotted observation or none at all. *)
Lemma plotted_dec (df : list observation) (m : string) :
  (∃ o, o ∈ df ∧ plotted m o) ∨ (∀ o, o ∈ df → ¬ plotted m o).
Proof.
  induction df as [|o df [(o' & Ho' & Hp)|Hnone]].
  - right. intros o Ho. by inversion Ho.
  - left. exists o'. split; [by right|done].
  - destruct (decide (metric o = m ∧ (variable o = "train_score_mean"
                                      ∨ variable o = "test_score_mean")))
      as [Hp|Hp].
    + left. exists o. split; [left|done].
    + right. intros o' Ho'. apply elem_of_cons in Ho' as [->|Ho']; [done|].
      by apply Hnone.
Qed.

(** X11: when some requested metric has no train or test observation in
    the frame, the function raises [ValueError] (from the minimum of an
    empty array) and returns no limits at all, not even for the metrics
    that do have observations. *)
Theorem ylimits_need_observations (df : list observation) (metrics : list string) :
  (∃ m, m ∈ metrics ∧ ∀ o, o ∈ df → ¬ plotted m o) →
  _compute_ylimits_for_featureset df metrics = Raise ValueError.
Proof.
  intros (m & Hm & Hnone). unfold _compute_ylimits_for_featureset.
  generalize (∅ : gmap string (Q * Q)) as acc.
  induction metrics as [|m0 metrics IH]; intros acc; [by inversion Hm|].
  simpl. destruct (plotted_dec df m0) as [Hobs|Hnone0].
  - destruct (metric_ylimits_spec df m0 Hobs) as (lower & upper & -> & _).
    simpl. apply elem_of_cons in Hm as [->|Hm].
    + destruct Hobs as (o & Ho & Hp). by destruct (Hnone o Ho).
    + by apply IH.
  - by rewrite (metric_ylimits_no_observation df m0 Hnone0).
Qed.

Lemma ylimits_need_observations_witness :
  _compute_ylimits_for_featureset demo_observations [ "accuracy"; "f1" ]
  = Raise ValueError.
Proof.
  apply ylimits_need_observations. exists "f1". split; [right; left|].
  intros o Ho [Hm _].
  repeat (apply elem_of_cons in Ho as [->|Ho]; [discriminate Hm|]).
  by inversion Ho.
Defined.

(** X13: for a metric whose bands all lie between 0 and 1, the lower limit
    is 0 and the upper limit is at most 1.05. *)
Theorem ylimits_of_unit_scores (df : list observation) (m : string) :
  (∃ o, o ∈ df ∧ plotted m o) →
  (∀ o, o ∈ df → plotted m o →
     (0 <= value o - band_std o)%Q ∧ (value o + band_std o <= 1)%Q) →
  ∃ ylimits lower upper,
    _compute_ylimits_for_featureset df [ m ] = Ok ylimits
    ∧ ylimits !! m = Some (lower, upper)
    ∧ lower = 0%Q ∧ (0 <= upper)%Q ∧ (upper <= 105 # 100)%Q.
Proof.
  intros Hobs Hunit.
  destruct (metric_ylimits_spec df m Hobs) as (lower & upper & Hlim & Hclamp & _ & Hnn).
  exists (<[m := (lower, upper)]> ∅), lower, upper.
  unfold _compute_ylimits_for_featureset. simpl. rewrite Hlim. simpl.
  split; [done|]. split; [apply lookup_insert_eq|].
  destruct Hclamp as (min_score & max_score & (omin & Homin & Hpmin & Hmin)
                      & _ & (omax & Homax & Hpmax & Hmax) & _
                      & _ & Hlow_0 & Hupp_pos & Hupp_0).
  split_and!; [|done|].
  - apply Hlow_0. apply Qle_not_lt. rewrite Hmin. by apply Hunit.
  - destruct (Qlt_le_dec 0 max_score) as [Hpos|Hnp].
    + rewrite (Hupp_pos Hpos).
      assert (Hmax1 : (max_score <= 1)%Q) by (rewrite Hmax; by apply Hunit).
      apply Qceiling_resp_le in Hmax1. change (Qceiling 1) with 1%Z in Hmax1.
      rewrite Zle_Qle in Hmax1.
      eapply Qle_trans; [apply Q.le_min_r|]. change (inject_Z 1) with 1%Q in Hmax1. lra.
    + by rewrite (Hupp_0 (Qle_not_lt _ _ Hnp)).
Qed.

Lemma ylimits_of_unit_scores_witness :
  ∃ ylimits lower upper,
    _compute_ylimits_for_featureset demo_observations [ "accuracy" ] = Ok ylimits
    ∧ ylimits !! "accuracy" = Some (lower, upper)
    ∧ lower = 0%Q ∧ (0 <= upper)%Q ∧ (upper <= 105 # 100)%Q.
Proof.
  apply ylimits_of_unit_scores.
  - exists (Observation "train_score_mean" "accuracy" (5 # 10) (5 # 100) 0)%Q.
    split; [left|]. split; [done|by left].
  - intros o Ho [Hm _].
    repeat (apply elem_of_cons in Ho as [->|Ho];
            [first [discriminate Hm | split; vm_compute; discriminate]|]).
    by inversion Ho.
Defined.

(** ** Axis limits with missing scores *)

Lemma numbers_Some a qs : Float.numbers a = Some qs → a = Float.Num <$> qs.
Proof.
  revert qs. induction a as [|[q|] a IH]; intros qs; simpl.
  - by intros [= <-].
  - destruct (Float.numbers a) as [qs'|]; simpl; [|done].
    intros [= <-]. simpl. by rewrite (IH qs').
  - done.
Qed.

Lemma numbers_None a : Float.numbers a = None → Float.NaN ∈ a.
Proof.
  induction a as [|[q|] a IH]; simpl; [done| |by left].
  destruct (Float.numbers a); simpl; [done|]. intros _. right. by apply IH.
Qed.

Lemma numbers_NaN a : Float.NaN ∈ a → Float.numbers a = None.
Proof.
  intros Hin. destruct (Float.numbers a) as [qs|] eqn:Hn; [|done].
  apply numbers_Some in Hn. subst a.
  apply list_elem_of_fmap in Hin as (q & Hq & _). discriminate.
Qed.

Lemma numbers_fmap qs : Float.numbers (Float.Num <$> qs) = Some qs.
Proof.
  induction qs as [|q qs IH]; [done|].
  change (cons q <$> Float.numbers (Float.Num <$> qs) = Some (q :: qs)).
  by rewrite IH.
Qed.

(** The band ends of a metric, over its plotted rows. *)
Lemma float_band_elem (df : list Float.observation) (m : string)
    (op : Float.float → Float.float → Float.float) x :
  x ∈ ((λ o, op (Float.value o) (Float.train_score_std o)) <$>
         filter (λ o, Float.variable o = "train_score_mean" ∧ Float.metric o = m) df)
      ++ ((λ o, op (Float.value o) (Float.test_score_std o)) <$>
         filter (λ o, Float.variable o = "test_score_mean" ∧ Float.metric o = m) df)
  ↔ ∃ o, o ∈ df ∧ float_plotted m o ∧ x = op (Float.value o) (float_band_std o).
Proof.
  rewrite elem_of_app, !list_elem_of_fmap. unfold float_plotted, float_band_std. split.
  - intros [(o & -> & Ho)|(o & -> & Ho)];
      apply list_elem_of_filter in Ho as [[Hv Hm] Ho];
      exists o; rewrite Hv; simpl; split_and!; auto.
  - intros (o & Ho & (Hm & [Hv|Hv]) & ->); rewrite Hv; simpl.
    + left. exists o. split; [done|]. apply list_elem_of_filter. done.
    + right. exists o. split; [done|]. apply list_elem_of_filter. done.
Qed.

Lemma lower_limit_le (q : Q) :
  ((if Qltb q 0
    then py_max (q - (1 # 10)) (inject_Z (Qfloor q) - (5 # 100))
    else 0) <= q)%Q.
Proof.
  destruct (Qltb q 0) eqn:Hb.
  - rewrite py_max_Qmax. pose proof (Qfloor_le q). apply Q.max_lub; lra.
  - by apply Qltb_ge in Hb.
Qed.

Lemma upper_limit_ge (q : Q) :
  (q <= (if Qltb 0 q
         then py_min (q + (1 # 10)) (inject_Z (Qceiling q) + (5 # 100))
         else 0))%Q.
Proof.
  destruct (Qltb 0 q) eqn:Hb.
  - rewrite py_min_Qmin. pose proof (Qle_ceiling q). apply Q.min_glb; lra.
  - by apply Qltb_ge in Hb.
Qed.

(** The limits of one metric that has a row: both are 0 when a band end of
    the metric is NaN, and they enclose the bands otherwise. *)
Lemma float_metric_ylimits_spec (df : list Float.observation) (m : string) :
  (∃ o, o ∈ df ∧ float_plotted m o) →
  ∃ lower upper,
    Float.metric_ylimits df m = Ok (lower, upper)
    ∧ ((∃ o, o ∈ df ∧ float_plotted m o
             ∧ (Float.value o = Float.NaN ∨ float_band_std o = Float.NaN)) →
       lower = 0%Q ∧ upper = 0%Q)
    ∧ ((∀ o, o ∈ df → float_plotted m o →
             Float.value o ≠ Float.NaN ∧ float_band_std o ≠ Float.NaN) →
       ∀ o v s, o ∈ df → float_plotted m o →
         Float.value o = Float.Num v → float_band_std o = Float.Num s →
         (lower <= v - s)%Q ∧ (v + s <= upper)%Q).
Proof.
  intros (o0 & Ho0 & Hp0). unfold Float.metric_ylimits.
  set (lowers := _ ++ _). set (uppers := _ ++ _).
  assert (Hlow : ∀ x, x ∈ lowers ↔
            ∃ o, o ∈ df ∧ float_plotted m o
                 ∧ x = Float.sub (Float.value o) (float_band_std o))
    by (intros x; apply (float_band_elem df m Float.sub)).
  assert (Hupp : ∀ x, x ∈ uppers ↔
            ∃ o, o ∈ df ∧ float_plotted m o
                 ∧ x = Float.add (Float.value o) (float_band_std o))
    by (intros x; apply (float_band_elem df m Float.add)).
  assert (Hnan : (∃ o, o ∈ df ∧ float_plotted m o
                   ∧ (Float.value o = Float.NaN ∨ float_band_std o = Float.NaN))
                 ∨ (∀ o, o ∈ df → float_plotted m o →
                      ∃ v s, Float.value o = Float.Num v
                             ∧ float_band_std o = Float.Num s)).
  { clear. induction df as [|o df [(o' & Ho' & H)|Hall]].
    - right. intros o Ho. by inversion Ho.
    - left. exists o'. split; [by right|done].
    - destruct (decide (float_plotted m o)) as [Hp|Hp].
      + destruct (Float.value o) as [v|] eqn:Hv, (float_band_std o) as [s|] eqn:Hs;
          try (left; exists o; split; [left|]; split; [done|]; rewrite ?Hv, ?Hs; auto; fail).
        right. intros o' Ho' Hp'. apply elem_of_cons in Ho' as [->|Ho'].
        * rewrite Hv, Hs. eauto.
        * by apply Hall.
      + right. intros o' Ho' Hp'. apply elem_of_cons in Ho' as [->|Ho']; [done|].
        by apply Hall. }
  destruct Hnan as [(o & Ho & Hp & Hn)|Hnum].
  - assert (Hl : Float.NaN ∈ lowers).
    { apply Hlow. exists o. split_and!; [done..|].
      destruct Hn as [-> | ->]; [done|]. by destruct (Float.value o). }
    assert (Hu : Float.NaN ∈ uppers).
    { apply Hupp. exists o. split_and!; [done..|].
      destruct Hn as [-> | ->]; [done|]. by destruct (Float.value o). }
    unfold Float.np_min, Float.np_max.
    rewrite (numbers_NaN lowers Hl), (numbers_NaN uppers Hu). simpl.
    exists 0%Q, 0%Q. split_and!; [done..|].
    intros Hall. destruct (Hall o Ho Hp) as [Hv Hs]. by destruct Hn.
  - assert (Hln : ∃ qs, Float.numbers lowers = Some qs).
    { destruct (Float.numbers lowers) eqn:Hq; [eauto|].
      apply numbers_None, Hlow in Hq as (o & Ho & Hp & Hq).
      destruct (Hnum o Ho Hp) as (v & s & Hv & Hs). by rewrite Hv, Hs in Hq. }
    assert (Hun : ∃ qs, Float.numbers uppers = Some qs).
    { destruct (Float.numbers uppers) eqn:Hq; [eauto|].
      apply numbers_None, Hupp in Hq as (o & Ho & Hp & Hq).
      destruct (Hnum o Ho Hp) as (v & s & Hv & Hs). by rewrite Hv, Hs in Hq. }
    destruct Hln as [ql Hql], Hun as [qu Hqu].
    pose proof (numbers_Some _ _ Hql) as Hlq.
    pose proof (numbers_Some _ _ Hqu) as Huq.
    destruct (Hnum o0 Ho0 Hp0) as (v0 & s0 & Hv0 & Hs0).
    destruct (np_min_spec ql) as (min_score & Hmin & _ & Hmin_le).
    { intros ->. assert (H : Float.Num (v0 - s0) ∈ lowers)
        by (apply Hlow; exists o0; by rewrite Hv0, Hs0).
      rewrite Hlq in H. by inversion H. }
    destruct (np_max_spec qu) as (max_score & Hmax & _ & Hmax_le).
    { intros ->. assert (H : Float.Num (v0 + s0) ∈ uppers)
        by (apply Hupp; exists o0; by rewrite Hv0, Hs0).
      rewrite Huq in H. by inversion H. }
    unfold Float.np_min, Float.np_max. rewrite Hql, Hqu, Hmin, Hmax. simpl.
    eexists _, _. split; [reflexivity|]. split.
    + intros (o & Ho & Hp & Hn). destruct (Hnum o Ho Hp) as (v & s & Hv & Hs).
      rewrite Hv, Hs in Hn. by destruct Hn.
    + intros _ o v s Ho Hp Hv Hs. split.
      * apply Qle_trans with min_score; [apply lower_limit_le|].
        apply Hmin_le.
        assert (H : Float.Num (v - s) ∈ lowers)
          by (apply Hlow; exists o; by rewrite Hv, Hs).
        rewrite Hlq in H. apply list_elem_of_fmap in H as (q & [= ->] & Hq). done.
      * apply Qle_trans with max_score; [|apply upper_limit_ge].
        apply Hmax_le.
        assert (H : Float.Num (v + s) ∈ uppers)
          by (apply Hupp; exists o; by rewrite Hv, Hs).
        rewrite Huq in H. apply list_elem_of_fmap in H as (q & [= ->] & Hq). done.
Qed.

Lemma float_ylimits_loop_spec (df : list Float.observation) metrics acc :
  (∀ m, m ∈ metrics → ∃ o, o ∈ df ∧ float_plotted m o) →
  ∃ ylimits,
    Float.ylimits_loop df metrics acc = Ok ylimits
    ∧ (∀ m, m ∈ metrics → ∃ limits,
         ylimits !! m = Some limits ∧ Float.metric_ylimits df m = Ok limits)
    ∧ (∀ m, m ∉ metrics → ylimits !! m = acc !! m).
Proof.
  revert acc. induction metrics as [|m0 metrics IH]; intros acc Hobs; simpl.
  - exists acc. split_and!; [done| |done]. intros m Hm. by inversion Hm.
  - destruct (float_metric_ylimits_spec df m0) as (lower & upper & Hm0 & _).
    { apply Hobs. left. }
    rewrite Hm0. simpl.
    destruct (IH (<[m0 := (lower, upper)]> acc)) as (ylimits & Hrun & Hin & Hout).
    { intros m Hm. apply Hobs. by right. }
    exists ylimits. split_and!; [done| |].
    + intros m Hm. destruct (decide (m ∈ metrics)) as [Hm'|Hm']; [by apply Hin|].
      apply elem_of_cons in Hm as [->|Hm]; [|done].
      exists (lower, upper). split; [|done].
      rewrite (Hout m0 Hm'). apply lookup_insert_eq.
    + intros m Hm. apply not_elem_of_cons in Hm as [Hne Hm].
      rewrite (Hout m Hm). by apply lookup_insert_ne.
Qed.

(** On a frame of numbers the limits are those of the computation on
    numbers. *)
Lemma float_metric_ylimits_numbers (df : list observation) (m : string) :
  Float.metric_ylimits (float_observation <$> df) m = metric_ylimits df m.
Proof.
  unfold Float.metric_ylimits, metric_ylimits.
  assert (Hfilter : ∀ var,
            filter (λ o, Float.variable o = var ∧ Float.metric o = m)
                   (float_observation <$> df)
            = float_observation <$> filter (λ o, variable o = var ∧ metric o = m) df).
  { intros var. induction df as [|o df IH]; [done|].
    rewrite fmap_cons, !filter_cons, IH. simpl.
    destruct (decide (variable o = var ∧ metric o = m)); done. }
  rewrite !Hfilter, <- !list_fmap_compose.
  set (df_train := filter (λ o, variable o = "train_score_mean" ∧ metric o = m) df).
  set (df_test := filter (λ o, variable o = "test_score_mean" ∧ metric o = m) df).
  assert (Hnum : ∀ (f g : observation → Q) (l1 l2 : list observation),
            ((λ o, Float.Num (f o)) <$> l1) ++ ((λ o, Float.Num (g o)) <$> l2)
            = Float.Num <$> ((f <$> l1) ++ (g <$> l2))).
  { intros f g l1 l2. by rewrite fmap_app, <- !list_fmap_compose. }
  unfold Float.np_min, Float.np_max.
  change ((λ o, Float.sub (Float.value o) (Float.train_score_std o)) ∘ float_observation)
    with (λ o, Float.Num (value o - train_score_std o)%Q).
  change ((λ o, Float.sub (Float.value o) (Float.test_score_std o)) ∘ float_observation)
    with (λ o, Float.Num (value o - test_score_std o)%Q).
  change ((λ o, Float.add (Float.value o) (Float.train_score_std o)) ∘ float_observation)
    with (λ o, Float.Num (value o + train_score_std o)%Q).
  change ((λ o, Float.add (Float.value o) (Float.test_score_std o)) ∘ float_observation)
    with (λ o, Float.Num (value o + test_score_std o)%Q).
  rewrite !Hnum, !numbers_fmap.
  destruct (np_min _) as [min_score| |]; simpl; [|done..].
  destruct (np_max _) as [max_score| |]; simpl; done.
Qed.

Lemma float_ylimits_numbers (df : list observation) (metrics : list string) :
  Float._compute_ylimits_for_featureset (float_observation <$> df) metrics
  = _compute_ylimits_for_featureset df metrics.
Proof.
  unfold Float._compute_ylimits_for_featureset, _compute_ylimits_for_featureset.
  generalize (∅ : gmap string (Q * Q)) as acc.
  induction metrics as [|m metrics IH]; intros acc; [done|].
  simpl. rewrite float_metric_ylimits_numbers.
  destruct (metric_ylimits df m); simpl; [apply IH|done..].
Qed.

(** X12: on a frame whose score cells are numbers or NaN, when every
    requested metric has a train or test row the function returns limits
    for each of them. If one of the metric's rows has NaN as its value or
    as its own standard deviation, both limits of the metric are 0;
    otherwise the limits enclose every band drawn for the metric: value
    minus std is at least the lower limit and value plus std at most the
    upper limit. *)
Theorem ylimits_enclose_bands (df : list Float.observation) (metrics : list string) :
  (∀ m, m ∈ metrics → ∃ o, o ∈ df ∧ float_plotted m o) →
  ∃ ylimits,
    Float._compute_ylimits_for_featureset df metrics = Ok ylimits
    ∧ ∀ m, m ∈ metrics →
        ∃ lower upper,
          ylimits !! m = Some (lower, upper)
          ∧ ((∃ o, o ∈ df ∧ float_plotted m o
                   ∧ (Float.value o = Float.NaN ∨ float_band_std o = Float.NaN)) →
             lower = 0%Q ∧ upper = 0%Q)
          ∧ ((∀ o, o ∈ df → float_plotted m o →
                   Float.value o ≠ Float.NaN ∧ float_band_std o ≠ Float.NaN) →
             ∀ o v s, o ∈ df → float_plotted m o →
               Float.value o = Float.Num v → float_band_std o = Float.Num s →
               (lower <= v - s)%Q ∧ (v + s <= upper)%Q).
Proof.
  intros Hobs. unfold Float._compute_ylimits_for_featureset.
  destruct (float_ylimits_loop_spec df metrics ∅ Hobs) as (ylimits & Hrun & Hin & _).
  exists ylimits. split; [done|]. intros m Hm.
  destruct (Hin m Hm) as (limits & Hlook & Hlim).
  destruct (float_metric_ylimits_spec df m (Hobs m Hm))
    as (lower & upper & Hlim' & Hnan & Hnum).
  rewrite Hlim in Hlim'. injection Hlim' as ->.
  by exists lower, upper.
Qed.

(** Accuracy, with all its scores, gets limits around its bands; f1, whose
    train score is missing, gets 0 and 0. *)
Lemma ylimits_enclose_bands_witness :
  ∃ ylimits lower upper,
    Float._compute_ylimits_for_featureset gappy_observations [ "accuracy"; "f1" ]
    = Ok ylimits
    ∧ ylimits !! "accuracy" = Some (lower, upper)
    ∧ (lower <= (4 # 10) - (5 # 100))%Q ∧ ((5 # 10) + (5 # 100) <= upper)%Q
    ∧ ylimits !! "f1" = Some (0%Q, 0%Q).
Proof.
  destruct (ylimits_enclose_bands gappy_observations [ "accuracy"; "f1" ])
    as (ylimits & Hrun & Hlim).
  { intros m Hm. apply elem_of_cons in Hm as [->|Hm].
    - eexists. split; [left|]. split; [done|by left].
    - apply list_elem_of_singleton in Hm as ->.
      eexists. split; [do 3 right; left|]. split; [done|by right]. }
  destruct (Hlim "accuracy") as (lower & upper & Hlook & _ & Hband); [left|].
  destruct (Hlim "f1") as (lower' & upper' & Hlook' & Hnan & _); [right; left|].
  destruct Hnan as [-> ->].
  { eexists. split; [do 2 right; left|]. split; [split; [done|by left]|by left]. }
  assert (Hnum : ∀ o, o ∈ gappy_observations → float_plotted "accuracy" o →
            Float.value o ≠ Float.NaN ∧ float_band_std o ≠ Float.NaN).
  { intros o Ho [Hm _]. unfold gappy_observations in Ho.
    repeat (apply elem_of_cons in Ho as [->|Ho];
            [first [ discriminate Hm | by split ]|]).
    by inversion Ho. }
  exists ylimits, lower, upper. split_and!; [done..| | |done].
  - eapply (Hband Hnum (Float.Observation "test_score_mean" "accuracy" _ _ _)).
    + right; left.
    + split; [done|by right].
    + reflexivity.
    + reflexivity.
  - eapply (Hband Hnum (Float.Observation "train_score_mean" "accuracy" _ _ _)).
    + left.
    + split; [done|by left].
    + reflexivity.
    + reflexivity.
Defined.


(** ** The fold ids file *)

Lemma fold_getitem_item (skll_fold_ids : fold_mapping) k v :
  NoDup (skll_fold_ids.*1) → (k, v) ∈ skll_fold_ids →
  fold_getitem skll_fold_ids k = Ok v.
Proof.
  intros Hnd Hin. unfold fold_getitem.
  induction skll_fold_ids as [|[k' v'] l IH]; [by inversion Hin|].
  simpl in *. apply NoDup_cons in Hnd as [Hk' Hnd].
  destruct (decide (k' = k)) as [->|Hne]; simpl.
  - apply elem_of_cons in Hin as [[= <-]|Hin]; [done|].
    destruct Hk'. apply list_elem_of_fmap. by exists (k, v).
  - apply elem_of_cons in Hin as [[= -> ->]|Hin]; [done|].
    specialize (IH Hnd Hin).
    destruct (list_find (λ item, item.1 = k) l) as [[i item]|]; simpl in *; done.
Qed.

(** X14: for a fold mapping (distinct ids), the call never raises and
    writes the header row and then one row per example, in the order of the
    mapping, holding the id and its fold. *)
Theorem folds_file_lists_every_example (skll_fold_ids : fold_mapping) (out : table) :
  NoDup (skll_fold_ids.*1) →
  _write_skll_folds skll_fold_ids out
  = (Ok (), out ++ [ JStr "id"; JStr "cv_test_fold" ]
                :: ((λ item, [ JStr item.1; item.2 ]) <$> skll_fold_ids)).
Proof.
  intros Hnd. unfold _write_skll_folds, bind at 1. unfold csv_writerow at 1.
  assert (Hloop : ∀ items out',
            (∀ item, item ∈ items → item ∈ skll_fold_ids) →
            for_each (λ example_id,
                        fold <- lift (fold_getitem skll_fold_ids example_id) ;;
                        csv_writerow [ JStr example_id; fold ]) (items.*1) out'
            = (Ok (), out' ++ ((λ item, [ JStr item.1; item.2 ]) <$> items))).
  { induction items as [|[k v] items IH]; intros out' Hsub.
    - simpl. by rewrite app_nil_r.
    - change (((k, v) :: items).*1) with (k :: items.*1).
      cbn [for_each]. unfold bind at 1. unfold bind at 1. unfold lift.
      rewrite (fold_getitem_item skll_fold_ids k v Hnd) by (apply Hsub; left).
      unfold csv_writerow at 1.
      etransitivity; [ apply (IH (out' ++ [[JStr k; v]])); intros; apply Hsub; by right | ].
      by rewrite <- app_assoc. }
  rewrite Hloop by done. by rewrite <- app_assoc.
Qed.

Lemma folds_file_lists_every_example_witness :
  _write_skll_folds [ ("ex1", JNum 0); ("ex2", JNum 1) ] []
  = (Ok (), [ [ JStr "id"; JStr "cv_test_fold" ];
              [ JStr "ex1"; JNum 0 ]; [ JStr "ex2"; JNum 1 ] ]).
Proof.
  apply (folds_file_lists_every_example [ ("ex1", JNum 0); ("ex2", JNum 1) ] []).
  apply (bool_decide_unpack _). reflexivity.
Defined.

(** ** The frames and the figures *)

Lemma elem_of_unique {A} `{EqDecision A} (l : list A) x :
  x ∈ unique l ↔ x ∈ l.
Proof.
  induction l as [|y l IH]; simpl; [done|].
  rewrite !elem_of_cons, list_elem_of_filter, IH.
  destruct (decide (x = y)); tauto.
Qed.

Lemma NoDup_unique {A} `{EqDecision A} (l : list A) : NoDup (unique l).
Proof.
  induction l as [|y l IH]; simpl; [constructor|].
  apply NoDup_cons. split.
  - rewrite list_elem_of_filter. intros [Hne _]. by apply Hne.
  - by apply NoDup_filter.
Qed.

Lemma unique_nil_inv {A} `{EqDecision A} (l : list A) : unique l = [] → l = [].
Proof. by destruct l. Qed.

(** X21: for a table with the columns that [_write_learning_curve_file]
    writes, the melted score frame has the eight columns featureset, learner,
    metric, size, the two standard deviations, [variable] and [value], and
    its rows are the train-score block followed by the test-score block of
    the table; the time frame, before averaging, keeps the six columns
    featureset, learner, metric, size and the two fit-time columns of every
    row. *)
Theorem frames_of_written_table (df : list Wide.line) :
  df_score_melted (wide_frame df)
  = Frame [ "featureset_name"; "learner_name"; "metric"; "training_set_size";
            "train_score_std"; "test_score_std"; "variable"; "value" ]
          (long_cells <$> score_rows df)
  ∧ df_time (wide_frame df)
    = Frame [ "featureset_name"; "learner_name"; "metric"; "training_set_size";
              "fit_time_mean"; "fit_time_std" ]
            (time_cells <$> df).
Proof.
  split.
  - unfold df_score_melted, melt, score_id_vars, df_score, wide_frame, select.
    cbn [columns data].
    change (score_columns curve_header) with
      [ "featureset_name"; "learner_name"; "metric"; "training_set_size";
        "train_score_mean"; "test_score_mean"; "train_score_std";
        "test_score_std" ].
    f_equal. unfold score_rows.
    change (filter (λ c, c ∉ filter _ _) _)
      with [ "train_score_mean"; "test_score_mean" ].
    change (filter (λ c, c ∉ score_vars) _) with
      [ "featureset_name"; "learner_name"; "metric"; "training_set_size";
        "train_score_std"; "test_score_std" ].
    unfold score_vars.
    cbn [mbind list_bind app]. rewrite !fmap_app. cbn [fmap list_fmap app].
    rewrite !app_nil_r, <- !list_fmap_compose.
    f_equal; apply list_fmap_ext; intros _ [] _; reflexivity.
  - unfold df_time, wide_frame, select. cbn [columns data].
    change (time_columns curve_header) with
      [ "featureset_name"; "learner_name"; "metric"; "training_set_size";
        "fit_time_mean"; "fit_time_std" ].
    f_equal. rewrite <- list_fmap_compose.
    apply list_fmap_ext; intros _ [] _; reflexivity.
Qed.

(** ** The keys of the time frame *)

Lemma time_keys (df : list Wide.line) :
  time_key <$> df_time_melted df = merge_sort key_le (unique (key_of <$> df)).
Proof.
  unfold df_time_melted, time_means. rewrite <- !list_fmap_compose.
  rewrite <- (list_fmap_id (merge_sort _ _)) at 2.
  apply list_fmap_ext. intros _ [[f l] s] _. reflexivity.
Qed.

(** ** Tick labels *)

(** X17: on an empty table the tick-label test raises [ValueError]; on
    any other table it answers whether some row has a training-set size of
    at least 1000. *)
Theorem rotate_labels_iff_large_size (df : list Wide.line) :
  rotate_labels df
  = if decide (df = []) then Raise ValueError
    else Ok (bool_decide (Exists (λ l, (1000 ≤ Wide.training_set_size l)%Z) df)).
Proof.
  unfold rotate_labels. destruct (decide (df = [])) as [->|Hne]; [done|].
  set (sizes := inject_Z <$> unique (Wide.training_set_size <$> df)).
  assert (Hsizes : ∀ x, x ∈ sizes ↔
            ∃ l, l ∈ df ∧ x = inject_Z (Wide.training_set_size l)).
  { intros x. unfold sizes. rewrite list_elem_of_fmap. split.
    - intros (z & -> & Hz). apply elem_of_unique, list_elem_of_fmap in Hz.
      destruct Hz as (l & -> & Hl). eauto.
    - intros (l & Hl & ->). eexists. split; [done|].
      apply elem_of_unique, list_elem_of_fmap. eauto. }
  destruct (np_max_spec sizes) as (largest & -> & Hin & Hmax).
  { destruct df as [|l0 df]; [done|]. intros Hnil.
    assert (H : inject_Z (Wide.training_set_size l0) ∈ sizes)
      by (apply Hsizes; exists l0; split; [left|done]).
    rewrite Hnil in H. by inversion H. }
  simpl. f_equal.
  apply Hsizes in Hin as (l1 & Hl1 & ->).
  destruct (Qle_bool 1000 (inject_Z (Wide.training_set_size l1))) eqn:Hb; symmetry.
  - apply bool_decide_eq_true, Exists_exists. exists l1. split; [done|].
    apply Qle_bool_iff in Hb. change 1000%Q with (inject_Z 1000) in Hb.
    by rewrite <- Zle_Qle in Hb.
  - apply bool_decide_eq_false. rewrite Exists_exists. intros (l & Hl & Hlarge).
    assert (Hle : (1000 <= inject_Z (Wide.training_set_size l1))%Q).
    { apply Qle_trans with (inject_Z (Wide.training_set_size l)).
      - change 1000%Q with (inject_Z 1000). by rewrite <- Zle_Qle.
      - apply Hmax, Hsizes. eauto. }
    apply Qle_bool_iff in Hle. congruence.
Qed.

(** ** The figures *)

Lemma for_res_ok {A} (body : A → res unit) (l : list A) :
  (∀ x, x ∈ l → body x = Ok ()) → for_res body l = Ok ().
Proof.
  induction l as [|x l IH]; intros Hl; [done|]. simpl.
  rewrite (Hl x) by left. simpl. apply IH. intros y Hy. apply Hl. by right.
Qed.

Lemma for_figures_save {A} (body : A → figures → res unit * figures)
    (name : A → string) (l : list A) (saved : figures) :
  (∀ x saved', x ∈ l → body x saved' = (Ok (), saved' ++ [name x])) →
  for_figures body l saved = (Ok (), saved ++ (name <$> l)).
Proof.
  revert saved. induction l as [|x l IH]; intros saved Hl; simpl.
  - by rewrite app_nil_r.
  - rewrite (Hl x) by left. rewrite IH by (intros; apply Hl; by right).
    by rewrite <- app_assoc.
Qed.

(** Limits asked for metrics that occur in a group of train and test
    scores are all returned. *)
Lemma group_limits (df_scores : list Long.row) (fs_name : string)
    (row_names : list string) :
  (∀ r, r ∈ df_scores → variable (Long.observed r) ∈ score_vars) →
  let df_fs := filter (λ r, Long.featureset_name r = fs_name) df_scores in
  (∀ m, m ∈ row_names → m ∈ (λ r, metric (Long.observed r)) <$> df_fs) →
  ∃ ylimits,
    _compute_ylimits_for_featureset (Long.observed <$> df_fs) row_names = Ok ylimits
    ∧ ∀ row_name, row_name ∈ row_names →
        ∃ limits, ylimits !! row_name = Some limits
                  ∧ metric_ylimits (Long.observed <$> df_fs) row_name = Ok limits.
Proof.
  intros Hvars df_fs Hrows.
  destruct (ylimits_loop_spec (Long.observed <$> df_fs) row_names ∅)
    as (ylimits & Hrun & Hin & _).
  { intros m Hm. apply Hrows, list_elem_of_fmap in Hm as (r & -> & Hr).
    exists (Long.observed r). split; [apply list_elem_of_fmap; eauto|].
    split; [done|].
    apply list_elem_of_filter in Hr as [_ Hr]. specialize (Hvars r Hr).
    unfold score_vars in Hvars.
    apply elem_of_cons in Hvars as [Hv|Hv]; [by left|].
    apply list_elem_of_singleton in Hv. by right. }
  by exists ylimits.
Qed.

(** So drawing the group cannot fail. *)
Lemma score_plot_ok (df_scores : list Long.row) (experiment_name fs_name : string)
    (saved : figures) :
  (∀ r, r ∈ df_scores → variable (Long.observed r) ∈ score_vars) →
  score_plot df_scores experiment_name fs_name saved
  = (Ok (), saved ++ [score_plot_name experiment_name fs_name]).
Proof.
  intros Hvars. unfold score_plot.
  destruct (group_limits df_scores fs_name
              (unique ((λ r, metric (Long.observed r))
                         <$> filter (λ r, Long.featureset_name r = fs_name) df_scores))
              Hvars) as (ylimits & -> & Hin).
  { intros m Hm. by apply elem_of_unique. }
  simpl. rewrite for_res_ok; [done|].
  intros row_name Hrow. apply for_res_ok. intros _ _.
  destruct (Hin row_name Hrow) as (limits & Hlook & _).
  unfold limits_of. by rewrite Hlook.
Qed.

Lemma score_plots_run (df_scores : list Long.row) (n_metrics n_learners : nat)
    (experiment_name : string) (rotate : bool) (saved : figures) :
  (∀ r, r ∈ df_scores → variable (Long.observed r) ∈ score_vars) →
  _generate_learning_curve_score_plots df_scores n_metrics n_learners
    experiment_name rotate saved
  = (Ok (), saved ++ (score_plot_name experiment_name
                        <$> sorted (unique (Long.featureset_name <$> df_scores)))).
Proof.
  intros Hvars. unfold _generate_learning_curve_score_plots.
  apply for_figures_save. intros fs_name saved' _. by apply score_plot_ok.
Qed.

(** X18: take a long score frame whose rows are all train or test scores,
    as the melted score frame is, and one of its featureset groups. The
    limits computed for metric names that occur in the group, as the facet
    row names do, are returned for every one of them: the computation does
    not raise [ValueError], and the lookup [ylimits[row_name]] of the axes
    loop finds the limits of that metric on the group. *)
Theorem score_plots_never_lack_limits (df_scores : list Long.row)
    (fs_name : string) (row_names : list string) :
  (∀ r, r ∈ df_scores → variable (Long.observed r) ∈ score_vars) →
  let df_fs := filter (λ r, Long.featureset_name r = fs_name) df_scores in
  (∀ m, m ∈ row_names → m ∈ (λ r, metric (Long.observed r)) <$> df_fs) →
  ∃ ylimits,
    _compute_ylimits_for_featureset (Long.observed <$> df_fs) row_names = Ok ylimits
    ∧ ∀ row_name, row_name ∈ row_names →
        ∃ limits, limits_of ylimits row_name = Ok limits
                  ∧ metric_ylimits (Long.observed <$> df_fs) row_name = Ok limits.
Proof.
  intros Hvars df_fs Hrows.
  destruct (group_limits df_scores fs_name row_names Hvars Hrows)
    as (ylimits & Hrun & Hin).
  exists ylimits. split; [done|].
  intros row_name Hrow. destruct (Hin row_name Hrow) as (limits & Hlook & Hlim).
  exists limits. split; [|done]. unfold limits_of. by rewrite Hlook.
Qed.

Lemma score_rows_variable (df : list Wide.line) r :
  r ∈ score_rows df → variable (Long.observed r) ∈ score_vars.
Proof.
  unfold score_rows. rewrite list_elem_of_bind. intros (var & Hr & Hvar).
  apply list_elem_of_fmap in Hr as (l & -> & _). done.
Qed.

(** The group of the featureset A in the example table has the metrics
    accuracy and f1. *)
Lemma score_plots_never_lack_limits_witness :
  ∃ ylimits,
    _compute_ylimits_for_featureset
      (Long.observed
         <$> filter (λ r, Long.featureset_name r = "A") (score_rows two_sets))
      [ "accuracy"; "f1" ]
    = Ok ylimits
    ∧ ∀ row_name, row_name ∈ [ "accuracy"; "f1" ] →
        ∃ limits,
          limits_of ylimits row_name = Ok limits
          ∧ metric_ylimits
              (Long.observed
                 <$> filter (λ r, Long.featureset_name r = "A") (score_rows two_sets))
              row_name
            = Ok limits.
Proof.
  apply (score_plots_never_lack_limits (score_rows two_sets) "A" [ "accuracy"; "f1" ]).
  - apply Forall_forall. apply (bool_decide_unpack _). reflexivity.
  - apply Forall_forall. apply (bool_decide_unpack _). reflexivity.
Defined.

Lemma sorted_unique_ext (l1 l2 : list string) :
  (∀ x, x ∈ l1 ↔ x ∈ l2) → sorted (unique l1) = sorted (unique l2).
Proof.
  intros Hext. unfold sorted.
  apply (StronglySorted_unique String.le);
    [apply (StronglySorted_merge_sort String.le)..|].
  rewrite !merge_sort_Permutation.
  apply NoDup_Permutation; [apply NoDup_unique..|].
  intros x. by rewrite !elem_of_unique.
Qed.

Lemma featuresets_spec (df : list Wide.line) :
  NoDup (featuresets df)
  ∧ ∀ fs, fs ∈ featuresets df ↔ ∃ l, l ∈ df ∧ Wide.featureset_name l = fs.
Proof.
  unfold featuresets, sorted. split.
  - rewrite merge_sort_Permutation. apply NoDup_unique.
  - intros fs. rewrite merge_sort_Permutation, elem_of_unique, list_elem_of_fmap.
    split; intros (l & H1 & H2); exists l; done.
Qed.

Lemma score_rows_featuresets (df : list Wide.line) :
  sorted (unique (Long.featureset_name <$> score_rows df)) = featuresets df.
Proof.
  apply sorted_unique_ext. intros fs. rewrite !list_elem_of_fmap. split.
  - intros (r & -> & Hr). unfold score_rows in Hr.
    apply list_elem_of_bind in Hr as (var & Hr & _).
    apply list_elem_of_fmap in Hr as (l & -> & Hl). by exists l.
  - intros (l & -> & Hl). exists (score_row "train_score_mean" l). split; [done|].
    unfold score_rows. apply list_elem_of_bind. exists "train_score_mean".
    split; [apply list_elem_of_fmap; eauto|]. unfold score_vars. left.
Qed.

Lemma time_rows_featuresets (df : list Wide.line) :
  sorted (unique (Time.featureset_name <$> df_time_melted df)) = featuresets df.
Proof.
  apply sorted_unique_ext. intros fs.
  assert (Hkeys : ∀ k, k ∈ time_key <$> df_time_melted df ↔ k ∈ key_of <$> df).
  { intros k. by rewrite time_keys, merge_sort_Permutation, elem_of_unique. }
  rewrite !list_elem_of_fmap. split.
  - intros (r & -> & Hr).
    assert (Hk : time_key r ∈ key_of <$> df)
      by (apply Hkeys, list_elem_of_fmap; eauto).
    apply list_elem_of_fmap in Hk as (l & Hk & Hl). exists l. split; [|done].
    unfold time_key, key_of in Hk. congruence.
  - intros (l & -> & Hl).
    assert (Hk : key_of l ∈ time_key <$> df_time_melted df)
      by (apply Hkeys, list_elem_of_fmap; eauto).
    apply list_elem_of_fmap in Hk as (r & Hk & Hr). exists r. split; [|done].
    unfold time_key, key_of in Hk. congruence.
Qed.

Lemma rotate_labels_ok (df : list Wide.line) :
  df ≠ [] → ∃ rotate, rotate_labels df = Ok rotate.
Proof.
  intros Hne. unfold rotate_labels.
  destruct (inject_Z <$> unique (Wide.training_set_size <$> df)) as [|x a] eqn:Heq.
  - apply fmap_nil_inv, unique_nil_inv, fmap_nil_inv in Heq. done.
  - simpl. eauto.
Qed.

Lemma plots_run (experiment_name : string) (df : list Wide.line) (saved : figures) :
  df ≠ [] →
  generate_learning_curve_plots experiment_name df saved
  = (Ok (), saved ++ (score_plot_name experiment_name <$> featuresets df)
                  ++ (time_plot_name experiment_name <$> featuresets df)).
Proof.
  intros Hne. unfold generate_learning_curve_plots.
  destruct (rotate_labels_ok df Hne) as [rotate ->].
  rewrite score_plots_run by apply score_rows_variable.
  unfold _generate_learning_curve_time_plots.
  rewrite (for_figures_save _ (time_plot_name experiment_name)) by done.
  by rewrite score_rows_featuresets, time_rows_featuresets, <- app_assoc.
Qed.

(** ** File names *)

Lemma string_length_app (a b : string) :
  String.length (a +:+ b) = String.length a + String.length b.
Proof.
  induction a as [|c a IH]; [done|].
  change (S (String.length (a +:+ b)) = S (String.length a + String.length b)).
  by rewrite IH.
Qed.

Lemma string_app_assoc (a b c : string) : (a +:+ b) +:+ c = a +:+ b +:+ c.
Proof.
  induction a as [|x a IH]; [done|].
  change (String x ((a +:+ b) +:+ c) = String x (a +:+ b +:+ c)).
  by rewrite IH.
Qed.

Lemma string_app_inj_r (a b t : string) : a +:+ t = b +:+ t → a = b.
Proof.
  revert b. induction a as [|c a IH]; intros [|c' b] Heq; [done| | |].
  - apply (f_equal String.length) in Heq.
    change (String.length t = S (String.length (b +:+ t))) in Heq.
    rewrite string_length_app in Heq. lia.
  - apply (f_equal String.length) in Heq.
    change (S (String.length (a +:+ t)) = String.length t) in Heq.
    rewrite string_length_app in Heq. lia.
  - change (String c (a +:+ t) = String c' (b +:+ t)) in Heq.
    injection Heq as -> Heq. f_equal. by apply IH.
Qed.

Lemma plot_names_clash (experiment_name fs fs' : string) :
  score_plot_name experiment_name fs = time_plot_name experiment_name fs'
  ↔ fs = fs' +:+ "_times".
Proof.
  unfold score_plot_name, time_plot_name. split.
  - intros Heq. apply (inj (String.app experiment_name)) in Heq.
    apply (inj (String.app "_")) in Heq.
    change "_times.png" with ("_times" +:+ ".png") in Heq.
    rewrite <- string_app_assoc in Heq. by apply string_app_inj_r in Heq.
  - intros ->. by rewrite string_app_assoc.
Qed.

Lemma score_plot_name_inj (experiment_name : string) :
  Inj (=) (=) (score_plot_name experiment_name).
Proof.
  intros fs fs' Heq. unfold score_plot_name in Heq.
  apply (inj (String.app experiment_name)) in Heq.
  apply (inj (String.app "_")) in Heq. by apply string_app_inj_r in Heq.
Qed.

Lemma time_plot_name_inj (experiment_name : string) :
  Inj (=) (=) (time_plot_name experiment_name).
Proof.
  intros fs fs' Heq. unfold time_plot_name in Heq.
  apply (inj (String.app experiment_name)) in Heq.
  apply (inj (String.app "_")) in Heq. by apply string_app_inj_r in Heq.
Qed.

(** X20: in a run that returns, the files saved are pairwise distinct
    exactly when no featureset of the table is named as another one
    followed by [_times]; with such a pair, the time plot of the one is
    saved under the name of the score plot of the other. *)
Theorem plot_files_distinct_unless_times_suffix (experiment_name : string)
    (df : list Wide.line) (final : figures) :
  generate_learning_curve_plots experiment_name df [] = (Ok (), final) →
  NoDup final
  ↔ ¬ ∃ fs fs', fs ∈ featuresets df ∧ fs' ∈ featuresets df
                ∧ fs = fs' +:+ "_times".
Proof.
  destruct (decide (df = [])) as [->|Hne]; [done|].
  rewrite plots_run by done. intros [= <-]. simpl.
  destruct (featuresets_spec df) as [Hnd _].
  rewrite NoDup_app. split.
  - intros (_ & Hcross & _) (fs & fs' & Hfs & Hfs' & Heq).
    apply (Hcross (score_plot_name experiment_name fs)).
    + apply list_elem_of_fmap. eauto.
    + apply list_elem_of_fmap. exists fs'. split; [|done].
      by apply (plot_names_clash experiment_name).
  - intros Hno. split_and!.
    + by apply (NoDup_fmap_2 _ (Inj0 := score_plot_name_inj experiment_name)).
    + intros x Hx Hx'.
      apply list_elem_of_fmap in Hx as (fs & -> & Hfs).
      apply list_elem_of_fmap in Hx' as (fs' & Heq & Hfs').
      apply Hno. exists fs, fs'. split_and!; [done..|].
      by apply (plot_names_clash experiment_name).
    + by apply (NoDup_fmap_2 _ (Inj0 := time_plot_name_inj experiment_name)).
Qed.

Lemma plot_files_distinct_unless_times_suffix_witness :
  NoDup [ "exp_A.png"; "exp_B.png"; "exp_A_times.png"; "exp_B_times.png" ].
Proof.
  apply (plot_files_distinct_unless_times_suffix "exp" two_sets); [reflexivity|].
  change (featuresets two_sets) with [ "A"; "B" ].
  intros (fs & fs' & Hfs & Hfs' & ->).
  repeat (apply elem_of_cons in Hfs' as [->|Hfs'];
          [repeat (apply elem_of_cons in Hfs as [Hfs|Hfs]; [discriminate|]);
           by inversion Hfs|]).
  by inversion Hfs'.
Defined.

(** With the featuresets [A] and [A_times], the time plot of [A] is saved
    under the name of the score plot of [A_times]. *)
Example times_suffix_overwrites_score_plot :
  generate_learning_curve_plots "exp" times_sets []
  = (Ok (), [ "exp_A.png"; "exp_A_times.png";
              "exp_A_times.png"; "exp_A_times_times.png" ]).
Proof. reflexivity. Qed.
